(** * native-websocket-vue3: the [useWebSocket] composable and the routing core

    A shallow embedding of the composable [useWebSocket] (its text is in
    [src/CHANGELOG.md], lines 33 to 190: connection life cycle, bounded
    reconnection, [send] and the message path), of the host objects it
    drives (the [WebSocket] handles, the timers, the [JSON] built-ins) and
    of the reconnection and store routing of the plugin path, followed by
    the properties of the specification that were checked against them.

    The composable is single-threaded and event-driven.  Its refs and
    closure variables and the host's handles and timers form one [State];
    every function of the composable is a computation over that state that
    returns or throws; one turn of the event loop is [step]. *)

From Stdlib Require Import ZArith Ascii String List Lia Bool.
From Stdlib Require Import DecimalString DecimalZ DecimalPos DecimalFacts.
From stdpp Require Import base list strings.
From stdpp Require Import gmap.

(** ** JavaScript values that travel through the socket *)

(** The values of messages and of [data], as trees.  Numbers are the
    integer-valued ones (a fraction, a negative zero and the rounding of a
    double are not represented), strings are sequences of 8-bit code units,
    and an object is the list of its own enumerable properties in
    enumeration order.  Apart from the [typeof] test of [send], the
    composable never looks inside a value: it hands it to
    [JSON.stringify], and a text to [JSON.parse], as they are. *)
Unset Elimination Schemes.
Inductive JValue : Type :=
| JNull
| JBool (b : bool)
| JNum (n : Z)
| JStr (s : string)
| JArr (items : list JValue)
| JObj (props : list (string * JValue)).
Set Elimination Schemes.

(** Induction that reaches the values inside arrays and objects. *)
Section JValue_induction.
Variable P : JValue -> Prop.
Hypothesis P_null : P JNull.
Hypothesis P_bool : forall b, P (JBool b).
Hypothesis P_num : forall n, P (JNum n).
Hypothesis P_str : forall s, P (JStr s).
Hypothesis P_arr : forall items, Forall P items -> P (JArr items).
Hypothesis P_obj : forall props, Forall (fun kv => P (snd kv)) props -> P (JObj props).

Fixpoint JValue_ind (v : JValue) : P v :=
  match v with
  | JNull => P_null
  | JBool b => P_bool b
  | JNum n => P_num n
  | JStr s => P_str s
  | JArr items =>
      P_arr items
        ((fix go (l : list JValue) : Forall P l :=
            match l with
            | [] => @List.Forall_nil _ P
            | x :: l' => @List.Forall_cons _ P x l' (JValue_ind x) (go l')
            end) items)
  | JObj props =>
      P_obj props
        ((fix go (l : list (string * JValue)) : Forall (fun kv => P (snd kv)) l :=
            match l with
            | [] => @List.Forall_nil _ _
            | kv :: l' => @List.Forall_cons _ _ kv l' (JValue_ind (snd kv)) (go l')
            end) props)
  end.
End JValue_induction.

(** [typeof v === 'object'] *)
Definition typeof_object (v : JValue) : bool :=
  match v with
  | JNull | JArr _ | JObj _ => true
  | JBool _ | JNum _ | JStr _ => false
  end.

(** What a [throw] carries and what an error event is: an opaque description. *)
Definition Err : Type := string.

(** Completion of a JavaScript call: it returns or it throws. *)
Inductive Completion (A : Type) : Type :=
| Normal (a : A)
| Throw (e : Err).
Arguments Normal {A} a.
Arguments Throw {A} e.

(** ** The host: WebSocket handles and timers *)

Module WebSocket.
(** [WebSocket.CONNECTING = 0], [OPEN = 1], [CLOSING = 2], [CLOSED = 3] *)
Inductive readyState : Type := CONNECTING | OPEN | CLOSING | CLOSED.

Record t : Type := {
  url : string;
  protocol : option string;
  state : readyState;
  listening : bool   (* onopen/onclose/onerror/onmessage are assigned *)
}.

Definition with_state (r : readyState) (w : t) : t :=
  {| url := url w; protocol := protocol w; state := r; listening := listening w |}.

Definition with_listening (w : t) : t :=
  {| url := url w; protocol := protocol w; state := state w; listening := true |}.

Definition is_open (w : t) : bool :=
  match state w with OPEN => true | _ => false end.

Definition is_closed (w : t) : bool :=
  match state w with CLOSED => true | _ => false end.
End WebSocket.

Inductive TimerState : Type := Pending | Fired | Cleared.

(** A timer made by [setTimeout]; the only callback the composable ever
    schedules is [() => { connect() }]. *)
Record Timer : Type := { delay : nat; tstate : TimerState }.

Definition is_pending (t : Timer) : bool :=
  match tstate t with Pending => true | _ => false end.

(** ** Options and state of one [useWebSocket] instance *)

Inductive Status : Type := DISCONNECTED | CONNECTING | CONNECTED | ERROR.

(** [reconnectAttempts] is a count or [Infinity] (the default). *)
Inductive Limit : Type := Finite (n : nat) | Infinity.

(** [count < limit] *)
Definition below (count : nat) (limit : Limit) : bool :=
  match limit with
  | Finite m => Nat.ltb count m
  | Infinity => true
  end.

(** [Math.min(n, limit)] *)
Definition min_limit (n : nat) (limit : Limit) : nat :=
  match limit with
  | Finite m => Nat.min n m
  | Infinity => n
  end.

Record Options : Type := {
  autoConnect : bool;
  autoReconnect : bool;
  reconnectAttempts : Limit;
  reconnectDelay : nat;
  protocol : string;
  json : bool
}.

(** The destructuring defaults of [useWebSocket(url, options = {})]. *)
Definition default_options : Options :=
  {| autoConnect := true; autoReconnect := false; reconnectAttempts := Infinity;
     reconnectDelay := 1000; protocol := EmptyString; json := false |}.

(** What the composable takes from its environment. *)
Record Host : Type := {
  (** [JSON.parse(text)]: a value, or a thrown [SyntaxError] *)
  JSON_parse : string -> Completion JValue;
  (** [JSON.stringify(value)] *)
  JSON_stringify : JValue -> string;
  (** [new WebSocket(url, protocol)] throws for some addresses *)
  WebSocket_rejects : string -> option string -> option Err;
  (** [close()] runs [onclose] before it returns (the mock of the test
      suite) or only marks the handle CLOSING and fires the close event
      later (a browser) *)
  close_is_synchronous : bool
}.

(** The refs and the closure variables of one instance, followed by the
    part of the host they act on.  Handles and timers are named by their
    position in [sockets] and [timers]. *)
Record State : Type := {
  ws : option nat;                   (* shallowRef(null) *)
  isConnected : bool;                (* ref(false) *)
  data : JValue;                     (* shallowRef(null) *)
  error : option Err;                (* shallowRef(null) *)
  status : Status;                   (* ref('DISCONNECTED') *)
  reconnectCount : nat;              (* let reconnectCount = 0 *)
  reconnectTimeoutId : option nat;   (* let reconnectTimeoutId = null *)
  explicitClose : bool;              (* let explicitClose = false *)
  sockets : list WebSocket.t;        (* every handle constructed so far *)
  timers : list Timer;               (* every timer scheduled so far *)
  sent : list (nat * JValue);        (* calls of a handle's send, oldest first *)
  console : list string;             (* console.warn lines, oldest first *)
  status_trace : list Status         (* ghost: the values status has been
                                        assigned, newest first *)
}.

Definition initial : State :=
  {| ws := None; isConnected := false; data := JNull; error := None;
     status := DISCONNECTED; reconnectCount := 0; reconnectTimeoutId := None;
     explicitClose := false; sockets := []; timers := []; sent := [];
     console := []; status_trace := [DISCONNECTED] |}.

(** ** Calls that may throw, over the state *)

Definition M (A : Type) : Type := State -> Completion A * State.

Definition ret {A} (a : A) : M A := fun s => (Normal a, s).

Definition bind {A B} (m : M A) (k : A -> M B) : M B :=
  fun s =>
    match m s with
    | (Normal a, s') => k a s'
    | (Throw e, s') => (Throw e, s')
    end.

Definition throw {A} (e : Err) : M A := fun s => (Throw e, s).

(** [try { body } catch (e) { handler }] *)
Definition try_catch {A} (body : M A) (handler : Err -> M A) : M A :=
  fun s =>
    match body s with
    | (Normal a, s') => (Normal a, s')
    | (Throw e, s') => handler e s'
    end.

(** A host call that does not touch the state. *)
Definition lift {A} (c : Completion A) : M A := fun s => (c, s).

Definition get : M State := fun s => (Normal s, s).

Definition modify (f : State -> State) : M unit := fun s => (Normal tt, f s).

Declare Scope js_scope.
Delimit Scope js_scope with js.
Notation "x <- m ;; k" := (bind m (fun x => k))
  (at level 20, m at level 99, k at level 200, only parsing) : js_scope.
Notation "m ;; k" := (bind m (fun _ => k))
  (at level 100, k at level 200, only parsing, right associativity) : js_scope.
Local Open Scope js_scope.

(** *** Assignments *)

Definition with_ws (v : option nat) (s : State) : State :=
  {| ws := v; isConnected := isConnected s; data := data s; error := error s;
     status := status s; reconnectCount := reconnectCount s;
     reconnectTimeoutId := reconnectTimeoutId s; explicitClose := explicitClose s;
     sockets := sockets s; timers := timers s; sent := sent s;
     console := console s; status_trace := status_trace s |}.

Definition with_isConnected (v : bool) (s : State) : State :=
  {| ws := ws s; isConnected := v; data := data s; error := error s;
     status := status s; reconnectCount := reconnectCount s;
     reconnectTimeoutId := reconnectTimeoutId s; explicitClose := explicitClose s;
     sockets := sockets s; timers := timers s; sent := sent s;
     console := console s; status_trace := status_trace s |}.

Definition with_data (v : JValue) (s : State) : State :=
  {| ws := ws s; isConnected := isConnected s; data := v; error := error s;
     status := status s; reconnectCount := reconnectCount s;
     reconnectTimeoutId := reconnectTimeoutId s; explicitClose := explicitClose s;
     sockets := sockets s; timers := timers s; sent := sent s;
     console := console s; status_trace := status_trace s |}.

Definition with_error (v : option Err) (s : State) : State :=
  {| ws := ws s; isConnected := isConnected s; data := data s; error := v;
     status := status s; reconnectCount := reconnectCount s;
     reconnectTimeoutId := reconnectTimeoutId s; explicitClose := explicitClose s;
     sockets := sockets s; timers := timers s; sent := sent s;
     console := console s; status_trace := status_trace s |}.

(** An assignment to [status.value] also extends the trace. *)
Definition with_status (v : Status) (s : State) : State :=
  {| ws := ws s; isConnected := isConnected s; data := data s; error := error s;
     status := v; reconnectCount := reconnectCount s;
     reconnectTimeoutId := reconnectTimeoutId s; explicitClose := explicitClose s;
     sockets := sockets s; timers := timers s; sent := sent s;
     console := console s; status_trace := v :: status_trace s |}.

Definition with_reconnectCount (v : nat) (s : State) : State :=
  {| ws := ws s; isConnected := isConnected s; data := data s; error := error s;
     status := status s; reconnectCount := v;
     reconnectTimeoutId := reconnectTimeoutId s; explicitClose := explicitClose s;
     sockets := sockets s; timers := timers s; sent := sent s;
     console := console s; status_trace := status_trace s |}.

Definition with_reconnectTimeoutId (v : option nat) (s : State) : State :=
  {| ws := ws s; isConnected := isConnected s; data := data s; error := error s;
     status := status s; reconnectCount := reconnectCount s;
     reconnectTimeoutId := v; explicitClose := explicitClose s;
     sockets := sockets s; timers := timers s; sent := sent s;
     console := console s; status_trace := status_trace s |}.

Definition with_explicitClose (v : bool) (s : State) : State :=
  {| ws := ws s; isConnected := isConnected s; data := data s; error := error s;
     status := status s; reconnectCount := reconnectCount s;
     reconnectTimeoutId := reconnectTimeoutId s; explicitClose := v;
     sockets := sockets s; timers := timers s; sent := sent s;
     console := console s; status_trace := status_trace s |}.

Definition with_sockets (v : list WebSocket.t) (s : State) : State :=
  {| ws := ws s; isConnected := isConnected s; data := data s; error := error s;
     status := status s; reconnectCount := reconnectCount s;
     reconnectTimeoutId := reconnectTimeoutId s; explicitClose := explicitClose s;
     sockets := v; timers := timers s; sent := sent s;
     console := console s; status_trace := status_trace s |}.

Definition with_timers (v : list Timer) (s : State) : State :=
  {| ws := ws s; isConnected := isConnected s; data := data s; error := error s;
     status := status s; reconnectCount := reconnectCount s;
     reconnectTimeoutId := reconnectTimeoutId s; explicitClose := explicitClose s;
     sockets := sockets s; timers := v; sent := sent s;
     console := console s; status_trace := status_trace s |}.

Definition with_sent (v : list (nat * JValue)) (s : State) : State :=
  {| ws := ws s; isConnected := isConnected s; data := data s; error := error s;
     status := status s; reconnectCount := reconnectCount s;
     reconnectTimeoutId := reconnectTimeoutId s; explicitClose := explicitClose s;
     sockets := sockets s; timers := timers s; sent := v;
     console := console s; status_trace := status_trace s |}.

Definition with_console (v : list string) (s : State) : State :=
  {| ws := ws s; isConnected := isConnected s; data := data s; error := error s;
     status := status s; reconnectCount := reconnectCount s;
     reconnectTimeoutId := reconnectTimeoutId s; explicitClose := explicitClose s;
     sockets := sockets s; timers := timers s; sent := sent s;
     console := v; status_trace := status_trace s |}.

(** [ws.value?.readyState] *)
Definition held_readyState (s : State) : option WebSocket.readyState :=
  match ws s with
  | Some h => WebSocket.state <$> sockets s !! h
  | None => None
  end.

(** [ws.value?.readyState === WebSocket.OPEN] *)
Definition held_is_open (s : State) : bool :=
  match held_readyState s with
  | Some WebSocket.OPEN => true
  | _ => false
  end.

(** ** The composable, function by function

    Line numbers are those of [src/CHANGELOG.md]. *)

Section useWebSocket.

Variable host : Host.
Variable url : string.
Variable options : Options.

(** *** Host calls *)

(** The sub-protocol the constructor is given: none when [protocol] is
    the empty string. *)
Definition requested_protocol : option string :=
  if String.eqb (protocol options) EmptyString then None
  else Some (protocol options).

(** [protocol ? new WebSocket(url, protocol) : new WebSocket(url)]: the
    constructor throws or returns a fresh handle in state CONNECTING, its
    handlers not yet assigned. *)
Definition new_WebSocket : M nat :=
  match WebSocket_rejects host url requested_protocol with
  | Some e => throw e
  | None =>
      s <- get ;;
      modify (with_sockets
                (sockets s ++ [ {| WebSocket.url := url;
                                   WebSocket.protocol := requested_protocol;
                                   WebSocket.state := WebSocket.CONNECTING;
                                   WebSocket.listening := false |} ])) ;;
      ret (length (sockets s))
  end.

(** [ws.value.onopen = ...; ws.value.onclose = ...; ws.value.onerror = ...;
    ws.value.onmessage = ...] *)
Definition assign_handlers (h : nat) : M unit :=
  s <- get ;;
  match sockets s !! h with
  | Some w => modify (with_sockets (<[h := WebSocket.with_listening w]> (sockets s)))
  | None => ret tt
  end.

Definition set_readyState (h : nat) (r : WebSocket.readyState) : M unit :=
  s <- get ;;
  match sockets s !! h with
  | Some w => modify (with_sockets (<[h := WebSocket.with_state r w]> (sockets s)))
  | None => ret tt
  end.

(** [setTimeout(() => { connect() }, delay)] returns the new timer's id. *)
Definition setTimeout (d : nat) : M nat :=
  s <- get ;;
  modify (with_timers (timers s ++ [ {| delay := d; tstate := Pending |} ])) ;;
  ret (length (timers s)).

(** [clearTimeout(id)] cancels a timer that has not fired yet. *)
Definition clearTimeout (t : nat) : M unit :=
  s <- get ;;
  match timers s !! t with
  | Some tm =>
      if is_pending tm
      then modify (with_timers (<[t := {| delay := delay tm; tstate := Cleared |}]> (timers s)))
      else ret tt
  | None => ret tt
  end.

(** A handle's [send(payload)]: it throws unless the handle is OPEN. *)
Definition WebSocket_send (h : nat) (payload : JValue) : M unit :=
  s <- get ;;
  match sockets s !! h with
  | Some w =>
      if WebSocket.is_open w
      then modify (with_sent (sent s ++ [(h, payload)]))
      else throw "WebSocket is not open"%string
  | None => throw "WebSocket is not open"%string
  end.

(** *** The four handlers that [connect] assigns

    They are closures over the refs and variables of the instance, not
    over the handle they are assigned to: the handler of an earlier
    handle acts on the same state as that of the current one. *)

(** [ws.value.onopen], lines 91-96 *)
Definition onopen : M unit :=
  modify (with_isConnected true) ;;
  modify (with_status CONNECTED) ;;
  modify (with_error None) ;;
  modify (with_reconnectCount 0).

(** [!explicitClose && autoReconnect && reconnectCount < reconnectAttempts] *)
Definition should_reconnect (s : State) : bool :=
  negb (explicitClose s) && autoReconnect options
  && below (reconnectCount s) (reconnectAttempts options).

(** [ws.value.onclose], lines 98-109; the timer it schedules calls
    [connect]. *)
Definition onclose : M unit :=
  modify (with_isConnected false) ;;
  modify (with_status DISCONNECTED) ;;
  modify (with_ws None) ;;
  s <- get ;;
  if should_reconnect s
  then
    modify (with_reconnectCount (S (reconnectCount s))) ;;
    t <- setTimeout (reconnectDelay options) ;;
    modify (with_reconnectTimeoutId (Some t))
  else ret tt.

(** [ws.value.onerror], lines 111-114 *)
Definition onerror (event : Err) : M unit :=
  modify (with_error (Some event)) ;;
  modify (with_status ERROR).

(** [ws.value.onmessage], lines 116-127; [event.data] is the text of the
    frame. *)
Definition onmessage (event_data : string) : M unit :=
  if json options then
    try_catch
      (v <- lift (JSON_parse host event_data) ;;
       modify (with_data v))
      (fun _ => modify (with_data (JStr event_data)))
  else modify (with_data (JStr event_data)).

(** A handle's [close()]: the mock sets CLOSED and calls [onclose]; a
    browser moves a handle that is not yet closing to CLOSING. *)
Definition WebSocket_close (h : nat) : M unit :=
  s <- get ;;
  match sockets s !! h with
  | Some w =>
      if close_is_synchronous host then
        set_readyState h WebSocket.CLOSED ;;
        (if WebSocket.listening w then onclose else ret tt)
      else
        match WebSocket.state w with
        | WebSocket.CLOSING | WebSocket.CLOSED => ret tt
        | _ => set_readyState h WebSocket.CLOSING
        end
  | None => ret tt
  end.

(** *** connect, disconnect, send *)

(** [connect()], lines 73-128 *)
Definition connect : M unit :=
  s <- get ;;
  if held_is_open s then ret tt
  else
    modify (with_explicitClose false) ;;
    modify (with_status CONNECTING) ;;
    created <- try_catch
                 (h <- new_WebSocket ;;
                  modify (with_ws (Some h)) ;;
                  ret (Some h))
                 (fun e =>
                    modify (with_error (Some e)) ;;
                    modify (with_status ERROR) ;;
                    ret None) ;;
    match created with
    | Some h => assign_handlers h
    | None => ret tt     (* the return inside catch *)
    end.

(** [disconnect()], lines 133-145.  The ids [setTimeout] returns are
    truthy, so [if (reconnectTimeoutId)] is the test against [null]. *)
Definition disconnect : M unit :=
  modify (with_explicitClose true) ;;
  s <- get ;;
  match reconnectTimeoutId s with
  | Some t => clearTimeout t ;; modify (with_reconnectTimeoutId None)
  | None => ret tt
  end ;;
  s <- get ;;
  match ws s with
  | Some h => WebSocket_close h ;; modify (with_ws None)
  | None => ret tt
  end ;;
  modify (with_isConnected false) ;;
  modify (with_status DISCONNECTED).

Definition cannot_send : string :=
  "[useWebSocket] Cannot send - WebSocket is not connected"%string.

(** [json && typeof message === 'object' ? JSON.stringify(message) : message] *)
Definition payload_of (message : JValue) : JValue :=
  if json options && typeof_object message
  then JStr (JSON_stringify host message)
  else message.

(** [send(message)], lines 151-163 *)
Definition send (message : JValue) : M bool :=
  s <- get ;;
  match ws s with
  | None => modify (with_console (console s ++ [cannot_send])) ;; ret false
  | Some h =>
      if negb (held_is_open s)
      then modify (with_console (console s ++ [cannot_send])) ;; ret false
      else
        WebSocket_send h (payload_of message) ;;
        ret true
  end.

(** *** The instance and what can happen to it *)

(** The state a call of a function or of a handler leaves behind. *)
Definition after {A} (m : M A) (s : State) : State := snd (m s).

(** [useWebSocket(url, options)], lines 48-68 and 165-168: the state when
    the call returns.  The unmount hook of lines 171-175 is a later
    [disconnect()], the event [CallDisconnect] below. *)
Definition useWebSocket : State :=
  if autoConnect options then after connect initial else initial.

(** What the consumer and the host can do to an instance. *)
Inductive Event : Type :=
| CallConnect
| CallDisconnect
| CallSend (message : JValue)
| SockOpen (h : nat)
| SockClose (h : nat)
| SockError (h : nat) (event : Err)
| SockMessage (h : nat) (event_data : string)
| TimerFire (t : nat).

(** One turn of the event loop; [None] when the host cannot produce the
    event: a handle opens once, from CONNECTING, and closes once; a closed
    handle is silent; messages arrive on a handle that is OPEN or CLOSING;
    only a pending timer fires.  The change of [readyState] and the handler
    are one turn here, as in the mock of the test suite; [turn], further
    down, takes them apart and assumes no order. *)
Definition step (ev : Event) (s : State) : option State :=
  match ev with
  | CallConnect => Some (after connect s)
  | CallDisconnect => Some (after disconnect s)
  | CallSend m => Some (after (send m) s)
  | SockOpen h =>
      match sockets s !! h with
      | Some w =>
          match WebSocket.state w with
          | WebSocket.CONNECTING =>
              if WebSocket.listening w
              then Some (after (set_readyState h WebSocket.OPEN ;; onopen) s)
              else None
          | _ => None
          end
      | None => None
      end
  | SockClose h =>
      match sockets s !! h with
      | Some w =>
          if WebSocket.is_closed w || negb (WebSocket.listening w) then None
          else Some (after (set_readyState h WebSocket.CLOSED ;; onclose) s)
      | None => None
      end
  | SockError h e =>
      match sockets s !! h with
      | Some w =>
          if WebSocket.is_closed w || negb (WebSocket.listening w) then None
          else Some (after (onerror e) s)
      | None => None
      end
  | SockMessage h d =>
      match sockets s !! h with
      | Some w =>
          match WebSocket.state w with
          | WebSocket.OPEN | WebSocket.CLOSING =>
              if WebSocket.listening w then Some (after (onmessage d) s) else None
          | _ => None
          end
      | None => None
      end
  | TimerFire t =>
      match timers s !! t with
      | Some tm =>
          if is_pending tm
          then Some (after (modify (with_timers
                              (<[t := {| delay := delay tm; tstate := Fired |}]> (timers s))) ;;
                            connect) s)
          else None
      | None => None
      end
  end.

Fixpoint run (evs : list Event) (s : State) : option State :=
  match evs with
  | [] => Some s
  | ev :: rest =>
      match step ev s with
      | Some s' => run rest s'
      | None => None
      end
  end.

(** The states an instance can be in. *)
Definition reachable (s : State) : Prop :=
  exists evs, run evs useWebSocket = Some s.

(** *** Vocabulary of the statements *)

(** The handle [connect] leaves in [sockets] when construction succeeds. *)
Definition fresh_socket : WebSocket.t :=
  {| WebSocket.url := url;
     WebSocket.protocol := requested_protocol;
     WebSocket.state := WebSocket.CONNECTING;
     WebSocket.listening := true |}.

(** The timer [onclose] schedules. *)
Definition reconnect_timer : Timer :=
  {| delay := reconnectDelay options; tstate := Pending |}.

(** The held handle has its handlers assigned. *)
Definition held_listening (s : State) : bool :=
  match ws s with
  | Some h =>
      match sockets s !! h with
      | Some w => WebSocket.listening w
      | None => false
      end
  | None => false
  end.

(** The values one turn assigns to [status], in order, read off the
    operation alone. *)
Definition status_writes (ev : Event) (s : State) : list Status :=
  match ev with
  | CallConnect | TimerFire _ =>
      if held_is_open s then []
      else
        match WebSocket_rejects host url requested_protocol with
        | Some _ => [CONNECTING; ERROR]
        | None => [CONNECTING]
        end
  | CallDisconnect =>
      if close_is_synchronous host && held_listening s
      then [DISCONNECTED; DISCONNECTED]
      else [DISCONNECTED]
  | SockOpen _ => [CONNECTED]
  | SockClose _ => [DISCONNECTED]
  | SockError _ _ => [ERROR]
  | CallSend _ | SockMessage _ _ => []
  end.

(** Every handle is fully closed; no timer is waiting. *)
Definition no_live (s : State) : bool := forallb WebSocket.is_closed (sockets s).
Definition no_pending (s : State) : bool :=
  forallb (fun t => negb (is_pending t)) (timers s).

(** The consumer calls [connect] only where it is harmless: on an open
    connection, or when nothing is live and no reconnect is scheduled. *)
Definition disciplined (ev : Event) (s : State) : bool :=
  match ev with
  | CallConnect => held_is_open s || (no_live s && no_pending s)
  | _ => true
  end.

Fixpoint run_disciplined (evs : list Event) (s : State) : bool :=
  match evs with
  | [] => true
  | ev :: rest =>
      disciplined ev s
      && match step ev s with
         | Some s' => run_disciplined rest s'
         | None => true
         end
  end.

End useWebSocket.

(** A handle that is not fully closed. *)
Definition live (s : State) (h : nat) : Prop :=
  exists w, sockets s !! h = Some w /\ WebSocket.is_closed w = false.

Definition at_most_one_live (s : State) : Prop :=
  forall h1 h2, live s h1 -> live s h2 -> h1 = h2.

(** A timer that can still fire. *)
Definition pending (s : State) (t : nat) : Prop :=
  exists tm, timers s !! t = Some tm /\ is_pending tm = true.

(** At most one handle is live, and while a reconnect is scheduled none is
    and the scheduled timer is the one [reconnectTimeoutId] names. *)
Definition tidy (s : State) : Prop :=
  at_most_one_live s
  /\ forall t, pending s t ->
       (forall h, ~ live s h) /\ reconnectTimeoutId s = Some t.

(** [set_readyState] as a function on states. *)
Definition set_state (h : nat) (r : WebSocket.readyState) (s : State) : State :=
  match sockets s !! h with
  | Some w => with_sockets (<[h := WebSocket.with_state r w]> (sockets s)) s
  | None => s
  end.

(** The host marks a timer as fired, a timer as cleared. *)
Definition fire (t : nat) (s : State) : State :=
  match timers s !! t with
  | Some tm => with_timers (<[t := {| delay := delay tm; tstate := Fired |}]> (timers s)) s
  | None => s
  end.

Definition clear (t : nat) (s : State) : State :=
  match timers s !! t with
  | Some tm =>
      if is_pending tm
      then with_timers (<[t := {| delay := delay tm; tstate := Cleared |}]> (timers s)) s
      else s
  | None => s
  end.

(** The state [disconnect] reaches before it closes the handle: the flag set
    and the tracked timer cancelled. *)
Definition cancelled (s : State) : State :=
  match reconnectTimeoutId s with
  | Some t => with_reconnectTimeoutId None (clear t (with_explicitClose true s))
  | None => with_explicitClose true s
  end.

(** What [disconnect] establishes when every waiting timer is the tracked
    one, and what every event but [connect()] keeps. *)
Definition shut (s : State) : Prop :=
  explicitClose s = true /\ forall t, ~ pending s t.

(** [isConnected] is set and the held handle [h] is open. *)
Definition up (h : nat) (s : State) : Prop :=
  isConnected s = true /\ ws s = Some h /\ held_is_open s = true.

Definition is_close (ev : Event) : bool :=
  match ev with SockClose _ => true | _ => false end.

(** The transport closes in a list of events. *)
Definition closes (evs : list Event) : nat := length (List.filter is_close evs).

(** No successful open and no explicit close among the events. *)
Definition uninterrupted (evs : list Event) : bool :=
  forallb (fun ev => match ev with
                     | SockOpen _ | CallDisconnect => false
                     | _ => true
                     end) evs.


(** No explicit [connect()] among the events. *)
Definition no_connect_call (evs : list Event) : bool :=
  forallb (fun ev => match ev with CallConnect => false | _ => true end) evs.

(** The reconnects that [n] further closes schedule when the attempt counter
    stands at [c] and the maximum is [m]. *)
Definition further (c n : nat) (m : Limit) : nat := min_limit (c + n) m - c.

(** The four transitions of the specification's status machine. *)
Definition specified_transition (a b : Status) : bool :=
  match a, b with
  | DISCONNECTED, CONNECTING
  | CONNECTING, CONNECTED
  | CONNECTING, ERROR
  | CONNECTED, DISCONNECTED => true
  | _, _ => false
  end.

(** ** A reference printer and parser

    The hosts of the scenarios need a [JSON.stringify] and a [JSON.parse].
    These two follow the built-ins on the values above whose integers a
    double holds exactly and whose objects have no integer-like keys; they
    do not read fractions or exponents, do not round to a double, print
    every digit of any integer, and keep the keys of a parsed object in
    the order of the text.  What is proved of the composable is proved for
    every [Host], with the host's own built-ins; these functions only fill
    in the scenarios. *)

Module JSON.

Definition text : Type := list ascii.

Definition chr (n : nat) : ascii := ascii_of_nat n.

Definition quote : ascii := chr 34.       (* the double quote *)
Definition backslash : ascii := chr 92.

Definition hex_digit (n : nat) : ascii :=
  if Nat.ltb n 10 then chr (48 + n) else chr (87 + n).

(** [QuoteJSONString], one code unit at a time. *)
Definition quote_char (c : ascii) : text :=
  let n := nat_of_ascii c in
  if Nat.eqb n 34 then [backslash; quote]
  else if Nat.eqb n 92 then [backslash; backslash]
  else if Nat.eqb n 8 then [backslash; "b"%char]
  else if Nat.eqb n 12 then [backslash; "f"%char]
  else if Nat.eqb n 10 then [backslash; "n"%char]
  else if Nat.eqb n 13 then [backslash; "r"%char]
  else if Nat.eqb n 9 then [backslash; "t"%char]
  else if Nat.ltb n 32
       then [backslash; "u"%char; "0"%char; "0"%char;
             hex_digit (n / 16); hex_digit (n mod 16)]
       else [c].

Definition quote_string (s : string) : text :=
  quote :: flat_map quote_char (list_ascii_of_string s) ++ [quote].

(** [Number::toString] of an integer. *)
Definition number_to_text (n : Z) : text :=
  list_ascii_of_string (DecimalString.NilZero.string_of_int (Z.to_int n)).

(** The items of a list, each printed by [item], with commas between. *)
Definition serialize_list {A : Type} (item : A -> text) : list A -> text :=
  fix go (l : list A) : text :=
    match l with
    | [] => []
    | x :: l' =>
        item x ++ match l' with [] => [] | _ :: _ => ","%char :: go l' end
    end.

(** [SerializeJSONProperty] without indentation. *)
Fixpoint serialize (v : JValue) : text :=
  match v with
  | JNull => list_ascii_of_string "null"
  | JBool true => list_ascii_of_string "true"
  | JBool false => list_ascii_of_string "false"
  | JNum n => number_to_text n
  | JStr s => quote_string s
  | JArr items => "["%char :: serialize_list serialize items ++ ["]"%char]
  | JObj props =>
      "{"%char ::
      serialize_list
        (fun kv => quote_string (fst kv) ++ ":"%char :: serialize (snd kv)) props
      ++ ["}"%char]
  end.

Definition stringify (v : JValue) : string :=
  string_of_list_ascii (serialize v).

(** *** Parsing *)

Definition is_ws (c : ascii) : bool :=
  let n := nat_of_ascii c in
  Nat.eqb n 32 || Nat.eqb n 9 || Nat.eqb n 10 || Nat.eqb n 13.

Fixpoint skip_ws (l : text) : text :=
  match l with
  | c :: rest => if is_ws c then skip_ws rest else l
  | [] => []
  end.

Definition is_digit (c : ascii) : bool :=
  let n := nat_of_ascii c in Nat.leb 48 n && Nat.leb n 57.

Definition hex_value (c : ascii) : option nat :=
  let n := nat_of_ascii c in
  if Nat.leb 48 n && Nat.leb n 57 then Some (n - 48)
  else if Nat.leb 97 n && Nat.leb n 102 then Some (n - 87)
  else if Nat.leb 65 n && Nat.leb n 70 then Some (n - 55)
  else None.

(** The character a one-letter escape stands for. *)
Definition unescape (c : ascii) : option ascii :=
  let n := nat_of_ascii c in
  if Nat.eqb n 34 then Some quote
  else if Nat.eqb n 92 then Some backslash
  else if Nat.eqb n 47 then Some "/"%char
  else if Nat.eqb n 98 then Some (chr 8)
  else if Nat.eqb n 102 then Some (chr 12)
  else if Nat.eqb n 110 then Some (chr 10)
  else if Nat.eqb n 114 then Some (chr 13)
  else if Nat.eqb n 116 then Some (chr 9)
  else None.

(** The characters of a string literal after its opening quote, up to and
    including the closing quote.  A code unit above 255 is outside the
    fragment. *)
Fixpoint parse_chars (l : text) : option (text * text) :=
  match l with
  | [] => None
  | c :: rest =>
      let n := nat_of_ascii c in
      if Nat.eqb n 34 then Some ([], rest)
      else if Nat.eqb n 92 then
        match rest with
        | e :: rest1 =>
            if Nat.eqb (nat_of_ascii e) 117 then
              match rest1 with
              | h1 :: h2 :: h3 :: h4 :: rest2 =>
                  match hex_value h1, hex_value h2, hex_value h3, hex_value h4 with
                  | Some a, Some b, Some c3, Some d =>
                      if Nat.eqb a 0 && Nat.eqb b 0 then
                        match parse_chars rest2 with
                        | Some (cs, r) => Some (chr (16 * c3 + d) :: cs, r)
                        | None => None
                        end
                      else None
                  | _, _, _, _ => None
                  end
              | _ => None
              end
            else
              match unescape e with
              | Some c' =>
                  match parse_chars rest1 with
                  | Some (cs, r) => Some (c' :: cs, r)
                  | None => None
                  end
              | None => None
              end
        | [] => None
        end
      else if Nat.ltb n 32 then None
      else
        match parse_chars rest with
        | Some (cs, r) => Some (c :: cs, r)
        | None => None
        end
  end.

Fixpoint span_digits (l : text) : text * text :=
  match l with
  | c :: rest =>
      if is_digit c then let (ds, r) := span_digits rest in (c :: ds, r)
      else ([], l)
  | [] => ([], [])
  end.

Definition leading_zero (ds : text) : bool :=
  match ds with
  | c :: _ :: _ => Nat.eqb (nat_of_ascii c) 48
  | _ => false
  end.

(** An integer literal: [-]? then [0] or a digit string without a leading
    zero.  A fraction or an exponent is outside the fragment: the literal
    ends before it and the caller rejects what follows. *)
Definition parse_number (l : text) : option (JValue * text) :=
  let (negative, l1) :=
    match l with
    | c :: rest => if Nat.eqb (nat_of_ascii c) 45 then (true, rest) else (false, l)
    | [] => (false, l)
    end in
  let (ds, rest) := span_digits l1 in
  if leading_zero ds then None
  else
    match ds with
    | [] => None
    | _ :: _ =>
        match DecimalString.NilEmpty.uint_of_string (string_of_list_ascii ds) with
        | Some d =>
            let n := Z.of_uint d in
            Some (JNum (if negative then Z.opp n else n), rest)
        | None => None
        end
    end.

(** [CreateDataProperty]: a repeated key keeps its place and takes the
    later value. *)
Fixpoint set_prop (k : string) (v : JValue) (props : list (string * JValue))
  : list (string * JValue) :=
  match props with
  | [] => [(k, v)]
  | (k', v') :: rest =>
      if String.eqb k k' then (k', v) :: rest else (k', v') :: set_prop k v rest
  end.

Definition make_object (members : list (string * JValue)) : JValue :=
  JObj (fold_left (fun acc kv => set_prop (fst kv) (snd kv) acc) members []).

Definition starts_with (c : ascii) (l : text) : option text :=
  match l with
  | c' :: rest => if Ascii.eqb c c' then Some rest else None
  | [] => None
  end.

Fixpoint strip_prefix (p l : text) : option text :=
  match p with
  | [] => Some l
  | c :: p' =>
      match starts_with c l with
      | Some rest => strip_prefix p' rest
      | None => None
      end
  end.

Fixpoint parse_value (fuel : nat) (l : text) {struct fuel} : option (JValue * text) :=
  match fuel with
  | 0 => None
  | S fuel' =>
      match skip_ws l with
      | [] => None
      | c :: rest =>
          let n := nat_of_ascii c in
          if Nat.eqb n 110 then      (* n *)
            match strip_prefix (list_ascii_of_string "ull") rest with
            | Some r => Some (JNull, r) | None => None end
          else if Nat.eqb n 116 then (* t *)
            match strip_prefix (list_ascii_of_string "rue") rest with
            | Some r => Some (JBool true, r) | None => None end
          else if Nat.eqb n 102 then (* f *)
            match strip_prefix (list_ascii_of_string "alse") rest with
            | Some r => Some (JBool false, r) | None => None end
          else if Nat.eqb n 34 then
            match parse_chars rest with
            | Some (cs, r) => Some (JStr (string_of_list_ascii cs), r)
            | None => None
            end
          else if Nat.eqb n 91 then  (* [ *)
            match starts_with "]"%char (skip_ws rest) with
            | Some r => Some (JArr [], r)
            | None =>
                match parse_elements fuel' rest with
                | Some (vs, r) => Some (JArr vs, r)
                | None => None
                end
            end
          else if Nat.eqb n 123 then (* { *)
            match starts_with "}"%char (skip_ws rest) with
            | Some r => Some (JObj [], r)
            | None =>
                match parse_members fuel' rest with
                | Some (ms, r) => Some (make_object ms, r)
                | None => None
                end
            end
          else parse_number (c :: rest)
      end
  end
with parse_elements (fuel : nat) (l : text) {struct fuel} : option (list JValue * text) :=
  match fuel with
  | 0 => None
  | S fuel' =>
      match parse_value fuel' l with
      | Some (v, rest) =>
          match skip_ws rest with
          | c :: rest' =>
              if Nat.eqb (nat_of_ascii c) 44 then
                match parse_elements fuel' rest' with
                | Some (vs, r) => Some (v :: vs, r)
                | None => None
                end
              else if Nat.eqb (nat_of_ascii c) 93 then Some ([v], rest')
              else None
          | [] => None
          end
      | None => None
      end
  end
with parse_members (fuel : nat) (l : text) {struct fuel}
  : option (list (string * JValue) * text) :=
  match fuel with
  | 0 => None
  | S fuel' =>
      match starts_with quote (skip_ws l) with
      | Some l1 =>
          match parse_chars l1 with
          | Some (k, l2) =>
              match starts_with ":"%char (skip_ws l2) with
              | Some l3 =>
                  match parse_value fuel' l3 with
                  | Some (v, rest) =>
                      match skip_ws rest with
                      | c :: rest' =>
                          if Nat.eqb (nat_of_ascii c) 44 then
                            match parse_members fuel' rest' with
                            | Some (ms, r) => Some ((string_of_list_ascii k, v) :: ms, r)
                            | None => None
                            end
                          else if Nat.eqb (nat_of_ascii c) 125
                          then Some ([(string_of_list_ascii k, v)], rest')
                          else None
                      | [] => None
                      end
                  | None => None
                  end
              | None => None
              end
          | None => None
          end
      | None => None
      end
  end.

(** [JSON.parse(text)]: one value, surrounded by white space only. *)
Definition parse (s : string) : Completion JValue :=
  let l := list_ascii_of_string s in
  match parse_value (S (length l)) l with
  | Some (v, rest) =>
      match skip_ws rest with
      | [] => Normal v
      | _ :: _ => Throw "SyntaxError"%string
      end
  | None => Throw "SyntaxError"%string
  end.

Fixpoint no_repeat (keys : list string) : bool :=
  match keys with
  | [] => true
  | k :: rest => negb (existsb (String.eqb k) rest) && no_repeat rest
  end.

(** No object of the value has two properties of the same name. *)
Fixpoint distinct_keys (v : JValue) : bool :=
  match v with
  | JArr items => forallb distinct_keys items
  | JObj props =>
      no_repeat (map fst props)
      && forallb (fun kv => distinct_keys (snd kv)) props
  | _ => true
  end.

(** *** Vocabulary of the round trip *)

(** What may follow a printed value: no digit. *)
Definition no_digit_head (l : text) : Prop :=
  match l with c :: _ => is_digit c = false | [] => True end.

(** How a printed value starts: with a character that is neither white
    space nor a closing bracket. *)
Definition opens_value (c : ascii) : Prop :=
  is_ws c = false /\ Nat.eqb (nat_of_ascii c) 93 = false.

(** One property of an object, printed. *)
Definition member_text (kv : string * JValue) : text :=
  quote_string (fst kv) ++ ":"%char :: serialize (snd kv).

(** The printed value is read back, whatever follows it. *)
Definition reads_back (v : JValue) : Prop :=
  forall fuel rest,
    distinct_keys v = true ->
    length (serialize v) <= fuel ->
    no_digit_head rest ->
    parse_value fuel (serialize v ++ rest) = Some (v, rest).

End JSON.

(** ** The plugin path: reconnection and store routing of the Observer *)

Module Observer.

Record Config : Type := {
  reconnection : bool;
  reconnectionAttempts : Limit;
  reconnectionDelay : nat
}.

(** Modelled from the spec: the connection state of the ConnectionManager
    ([src/Observer.js] is not among the sources).  [scheduled] holds the
    delays of the [connect()] calls scheduled so far and [routed] the
    events handed to the store routing, with the counter value where the
    specification names one. *)
Record t : Type := {
  reconnectionCount : nat;
  explicitly_closed : bool;
  state : Status;
  handle : bool;
  scheduled : list nat;
  routed : list (string * option nat)
}.

(** Modelled from the spec: [connect()] of section 4.3, the handle being
    the one [Observer.connect] creates: it clears the explicit-close flag,
    moves to CONNECTING and opens a handle. *)
Definition connect (o : t) : t :=
  {| reconnectionCount := reconnectionCount o;
     explicitly_closed := false;
     state := CONNECTING;
     handle := true;
     scheduled := scheduled o;
     routed := routed o |}.

(** Modelled from the spec: the transport close of section 4.3
    ([Observer.js], its close handler and [reconnect], are not among the
    sources): DISCONNECTED, the handle discarded, [SOCKET_ONCLOSE] routed;
    then, for a close that was not explicit under an enabled policy, either
    the counter is below the maximum (increment, route [SOCKET_RECONNECT]
    with the new value, schedule [connect()] after the delay) or it has
    reached it (route [SOCKET_RECONNECT_ERROR], schedule nothing). *)
Definition onclose (c : Config) (o : t) : t :=
  let routed1 := routed o ++ [("SOCKET_ONCLOSE"%string, None)] in
  if negb (explicitly_closed o) && reconnection c then
    if below (reconnectionCount o) (reconnectionAttempts c) then
      {| reconnectionCount := S (reconnectionCount o);
         explicitly_closed := explicitly_closed o;
         state := DISCONNECTED;
         handle := false;
         scheduled := scheduled o ++ [reconnectionDelay c];
         routed := routed1 ++ [("SOCKET_RECONNECT"%string, Some (S (reconnectionCount o)))] |}
    else
      {| reconnectionCount := reconnectionCount o;
         explicitly_closed := explicitly_closed o;
         state := DISCONNECTED;
         handle := false;
         scheduled := scheduled o;
         routed := routed1 ++ [("SOCKET_RECONNECT_ERROR"%string, None)] |}
  else
    {| reconnectionCount := reconnectionCount o;
       explicitly_closed := explicitly_closed o;
       state := DISCONNECTED;
       handle := false;
       scheduled := scheduled o;
       routed := routed1 |}.

(** [n] rounds of a connection attempt that closes without opening. *)
Definition closes (c : Config) (n : nat) (o : t) : t :=
  Nat.iter n (fun x => onclose c (connect x)) o.

Definition reconnect_errors (o : t) : nat :=
  length (List.filter (fun r => String.eqb (fst r) "SOCKET_RECONNECT_ERROR") (routed o)).

(** *** Store routing *)

Inductive SinkShape : Type := Committer | Patcher | Unknown.

(** What a state container exposes. *)
Record Sink : Type := {
  has_merge_state : bool;     (* the patch-merge primitive *)
  has_commit : bool;
  has_dispatch : bool;
  methods : list string       (* its named action methods *)
}.

(** Modelled from the spec: [classify] of section 4.2. *)
Definition classify (k : Sink) : SinkShape :=
  if has_merge_state k then Patcher
  else if has_commit k && has_dispatch k then Committer
  else Unknown.

Inductive SinkCall : Type :=
| commit (name : string) (payload : JValue)
| dispatch (path : string) (payload : JValue)
| invoke (method : string) (payload : JValue).

(** The sink calls and the log lines a routing produces. *)
Definition Effects : Type := (list SinkCall * list string)%type.

Definition Handler : Type :=
  string -> JValue -> (string -> JValue -> Effects) -> Effects.

Fixpoint field (name : string) (props : list (string * JValue)) : option string :=
  match props with
  | [] => None
  | (k, v) :: rest =>
      if String.eqb k name
      then match v with JStr s => Some s | _ => None end
      else field name rest
  end.

Definition mapped (mutations : list (string * string)) (label : string) : string :=
  match find (fun kv => String.eqb (fst kv) label) mutations with
  | Some kv => snd kv
  | None => label
  end.

(** Modelled from the spec: the default routing of section 4.2
    ([defaultPassToStore] of [src/Observer.js] is not among the sources).
    The payload of a message event is its text, a [JStr]. *)
Definition default_route (k : Sink) (format_json : bool)
    (mutations : list (string * string)) (label : string) (payload : JValue)
  : Effects :=
  let by_name :=
    match classify k with
    | Committer => ([commit (mapped mutations label) payload], [])
    | Patcher =>
        if existsb (String.eqb (mapped mutations label)) (methods k)
        then ([invoke (mapped mutations label) payload], [])
        else ([], ["no action of that name"%string])
    | Unknown => ([], ["unknown store"%string])
    end in
  match classify k, payload with
  | Committer, JStr text =>
      if format_json then
        match JSON.parse text with
        | Normal (JObj props) =>
            match field "namespace" props, field "action" props, field "mutation" props with
            | Some ns, Some a, _ =>
                ([dispatch (ns ++ "/" ++ a)%string (JObj props)], [])
            | Some ns, None, Some m =>
                ([commit (ns ++ "/" ++ m)%string (JObj props)], [])
            | _, _, _ => by_name
            end
        | _ => by_name
        end
      else by_name
  | _, _ => by_name
  end.

(** Modelled from the spec: [route] of section 4.2 ([passToStore] of
    [src/Observer.js] is not among the sources): skipped entirely unless
    the label begins with [SOCKET_]; a custom handler, when supplied, is
    given the default routing as its continuation. *)
Definition passToStore (k : Sink) (format_json : bool)
    (mutations : list (string * string)) (passToStoreHandler : option Handler)
    (label : string) (payload : JValue) : Effects :=
  if negb (String.prefix "SOCKET_" label) then ([], [])
  else
    match passToStoreHandler with
    | Some handler =>
        handler label payload (default_route k format_json mutations)
    | None => default_route k format_json mutations label payload
    end.

(** A Vuex-like store and a handler that commits whatever it is given. *)
Definition vuex : Sink :=
  {| has_merge_state := false; has_commit := true; has_dispatch := true;
     methods := [] |}.

Definition eager_handler : Handler :=
  fun label payload _ => ([commit label payload], []).

End Observer.

(** ** Two hosts *)

(** A browser: the reference printer and parser for the JSON built-ins, a
    constructor that throws a [SyntaxError] unless the address has the
    scheme [ws:] or [wss:], and a [close()] that only starts the closing
    handshake. *)
Definition browser : Host :=
  {| JSON_parse := JSON.parse;
     JSON_stringify := JSON.stringify;
     WebSocket_rejects := fun url _ =>
       if String.prefix "ws://" url || String.prefix "wss://" url then None
       else Some "SyntaxError"%string;
     close_is_synchronous := false |}.

(** The [MockWebSocket] of the test suite: any address is accepted and
    [close()] calls [onclose] at once. *)
Definition MockWebSocket : Host :=
  {| JSON_parse := JSON.parse;
     JSON_stringify := JSON.stringify;
     WebSocket_rejects := fun _ _ => None;
     close_is_synchronous := true |}.

Definition localhost : string := "ws://localhost:9090".

(** [{ autoReconnect: true }] and [{ autoReconnect: true, reconnectAttempts: 2 }] *)
Definition reconnecting : Options :=
  {| autoConnect := true; autoReconnect := true; reconnectAttempts := Infinity;
     reconnectDelay := 1000; protocol := EmptyString; json := false |}.

Definition reconnecting_twice : Options :=
  {| autoConnect := true; autoReconnect := true; reconnectAttempts := Finite 2;
     reconnectDelay := 1000; protocol := EmptyString; json := false |}.

(** [{ autoConnect: false }] *)
Definition manual : Options :=
  {| autoConnect := false; autoReconnect := false; reconnectAttempts := Infinity;
     reconnectDelay := 1000; protocol := EmptyString; json := false |}.

(** [{ json: true }] *)
Definition with_json : Options :=
  {| autoConnect := true; autoReconnect := false; reconnectAttempts := Infinity;
     reconnectDelay := 1000; protocol := EmptyString; json := true |}.

(** ** Scenarios of the test suite and of the statements *)

(** After [await vi.runAllTimersAsync()]: the handle has opened. *)
Definition opened : State :=
  Eval vm_compute in
    after onopen (set_state 0 WebSocket.OPEN
                    (useWebSocket MockWebSocket localhost default_options)).

Definition opened_json : State :=
  Eval vm_compute in
    after onopen (set_state 0 WebSocket.OPEN
                    (useWebSocket MockWebSocket localhost with_json)).

(** After [ws.value.onerror(errorEvent)] on the open connection. *)
Definition errored : State :=
  Eval vm_compute in after (onerror "Connection failed"%string) opened.

Definition malformed : string := "not a url".

(** A string between double quotes. *)
Definition quoted (s : string) : string :=
  String JSON.quote (s ++ String JSON.quote EmptyString).

(** [{ type: 'test', data: 123 }] *)
Definition test_message : JValue :=
  JObj [("type"%string, JStr "test"); ("data"%string, JNum 123)].

(** Three connection attempts that close without opening. *)
Definition three_closes : list Event :=
  [SockClose 0; TimerFire 0; SockClose 1; TimerFire 1; SockClose 2].

Definition after_three_closes : State :=
  Eval vm_compute in
    match run MockWebSocket localhost reconnecting_twice three_closes
            (useWebSocket MockWebSocket localhost reconnecting_twice) with
    | Some s => s
    | None => initial
    end.

(** Open, drop, reconnect by timer, a redundant [connect()], [disconnect()],
    [connect()] again. *)
Definition one_session : list Event :=
  [SockOpen 0; SockClose 0; TimerFire 0; SockOpen 1; CallConnect;
   CallDisconnect; CallConnect].

Definition after_one_session : State :=
  Eval vm_compute in
    match run MockWebSocket localhost reconnecting one_session
            (useWebSocket MockWebSocket localhost reconnecting) with
    | Some s => s
    | None => initial
    end.

(** The connection drops, the consumer calls [connect()] before the
    reconnect timer fires, the new connection drops as well, and the
    consumer calls [disconnect()]. *)
Definition two_timers : list Event :=
  [SockClose 0; CallConnect; SockClose 1; CallDisconnect].

Definition disconnected_with_timer : State :=
  Eval vm_compute in
    match run browser localhost reconnecting two_timers
            (useWebSocket browser localhost reconnecting) with
    | Some s => s
    | None => initial
    end.

Definition reconnected_after_disconnect : State :=
  Eval vm_compute in
    match step browser localhost reconnecting (TimerFire 0) disconnected_with_timer with
    | Some s => s
    | None => initial
    end.

(** ** Proof automation *)

Ltac js_unfold :=
  unfold after, connect, disconnect, send, onopen, onclose, onerror, onmessage,
    WebSocket_close, WebSocket_send, new_WebSocket, assign_handlers,
    set_readyState, setTimeout, clearTimeout,
    try_catch, bind, lift, get, modify, ret, throw in *.

(** Case analysis on the host's list updates. *)
Ltac split_ops :=
  unfold clear, fire, set_state in *;
  repeat match goal with
         | |- context [match ?l !! ?i with _ => _ end] => destruct (l !! i) eqn:?
         | |- context [if is_pending ?t then _ else _] => destruct (is_pending t) eqn:?
         end.

(** ** Further vocabulary *)

(** A handle as [connect] configures it: the address and sub-protocol of the
    instance, its handlers assigned. *)
Definition as_configured (url : string) (options : Options) (w : WebSocket.t) : Prop :=
  WebSocket.url w = url
  /\ WebSocket.protocol w = requested_protocol options
  /\ WebSocket.listening w = true.

(** Events by kind. *)
Definition is_send (ev : Event) : bool :=
  match ev with CallSend _ => true | _ => false end.

Definition is_open_event (ev : Event) : bool :=
  match ev with SockOpen _ => true | _ => false end.

(** What an instance keeps true of the host objects it created: every socket
    is as configured, every timer waits [reconnectDelay], and what the
    closure holds refers to objects that exist. *)
Definition well_formed (url : string) (options : Options) (s : State) : Prop :=
  Forall (as_configured url options) (sockets s)
  /\ Forall (fun tm => delay tm = reconnectDelay options) (timers s)
  /\ (forall h, ws s = Some h -> h < length (sockets s))
  /\ (forall t, reconnectTimeoutId s = Some t -> t < length (timers s)).

(** The instance of [{ autoReconnect: true }] once its first handle has
    opened. *)
Definition opened_then_reconnecting : State :=
  Eval vm_compute in
    after onopen (set_state 0 WebSocket.OPEN
                    (useWebSocket MockWebSocket localhost reconnecting)).

(** A malformed address: [connect()], [send(null)], [disconnect()]. *)
Definition rejected_calls : list Event :=
  [CallConnect; CallSend JNull; CallDisconnect].

Definition rejected_session : State :=
  Eval vm_compute in
    match run browser malformed default_options rejected_calls
            (useWebSocket browser malformed default_options) with
    | Some s => s
    | None => initial
    end.

(** The connection opens and drops: a reconnect is scheduled. *)
Definition open_and_drop : list Event := [SockOpen 0; SockClose 0].

Definition dropped : State :=
  Eval vm_compute in
    match run MockWebSocket localhost reconnecting open_and_drop
            (useWebSocket MockWebSocket localhost reconnecting) with
    | Some s => s
    | None => initial
    end.

(** [send(null)] before and after the handle opens. *)
Definition two_sends : State :=
  Eval vm_compute in
    match run MockWebSocket localhost default_options
            [CallSend JNull; SockOpen 0; CallSend JNull]
            (useWebSocket MockWebSocket localhost default_options) with
    | Some s => s
    | None => initial
    end.

(** The attempts are used up: three closes under [reconnectAttempts: 2];
    then the consumer disconnects and connects again, and that connection
    closes too. *)
Definition retry_by_hand : list Event := [CallDisconnect; CallConnect; SockClose 3].

Definition after_retry_by_hand : State :=
  Eval vm_compute in
    match run MockWebSocket localhost reconnecting_twice retry_by_hand
            after_three_closes with
    | Some s => s
    | None => initial
    end.

(** [connect()] once more while the first handle is still connecting, in a
    browser; then both handles open and the consumer disconnects. *)
Definition twice_connected : State :=
  Eval vm_compute in
    match run browser localhost default_options [CallConnect]
            (useWebSocket browser localhost default_options) with
    | Some s => s
    | None => initial
    end.

Definition both_open_then_disconnect : list Event :=
  [SockOpen 0; SockOpen 1; CallDisconnect].

Definition first_handle_abandoned : State :=
  Eval vm_compute in
    match run browser localhost default_options both_open_then_disconnect
            twice_connected with
    | Some s => s
    | None => initial
    end.

(** ** Turns in any order

    [step] delivers the events of a handle in one order: a handle becomes
    CLOSED in the turn that runs its close handler.  A host may as well set
    [readyState] first and run the handlers later (a browser that fails a
    connection sets CLOSED, then fires [error], then [close]), and consumer
    code can run in between.  A [Turn] assumes no order: the host sets the
    [readyState] of a handle, runs one of the four handlers, which are the
    same closures for every handle, or fires a pending timer; the consumer
    calls one of the three functions. *)
Inductive Turn : Type :=
| Sets (h : nat) (r : WebSocket.readyState)
| Runs_onopen
| Runs_onclose
| Runs_onerror (event : Err)
| Runs_onmessage (event_data : string)
| Fires (t : nat)
| Calls_connect
| Calls_disconnect
| Calls_send (message : JValue).

Definition turn (host : Host) (url : string) (options : Options)
    (tn : Turn) (s : State) : option State :=
  match tn with
  | Sets h r => Some (set_state h r s)
  | Runs_onopen => Some (after onopen s)
  | Runs_onclose => Some (after (onclose options) s)
  | Runs_onerror e => Some (after (onerror e) s)
  | Runs_onmessage d => Some (after (onmessage host options d) s)
  | Fires t =>
      match timers s !! t with
      | Some tm =>
          if is_pending tm
          then Some (after (connect host url options) (fire t s))
          else None
      | None => None
      end
  | Calls_connect => Some (after (connect host url options) s)
  | Calls_disconnect => Some (after (disconnect host options) s)
  | Calls_send m => Some (after (send host options m) s)
  end.

Fixpoint turns (host : Host) (url : string) (options : Options)
    (tns : list Turn) (s : State) : option State :=
  match tns with
  | [] => Some s
  | tn :: rest =>
      match turn host url options tn s with
      | Some s' => turns host url options rest s'
      | None => None
      end
  end.

(** Every event of [step] is one or two turns. *)
Definition as_turns (ev : Event) : list Turn :=
  match ev with
  | CallConnect => [Calls_connect]
  | CallDisconnect => [Calls_disconnect]
  | CallSend m => [Calls_send m]
  | SockOpen h => [Sets h WebSocket.OPEN; Runs_onopen]
  | SockClose h => [Sets h WebSocket.CLOSED; Runs_onclose]
  | SockError _ e => [Runs_onerror e]
  | SockMessage _ d => [Runs_onmessage d]
  | TimerFire t => [Fires t]
  end.

Definition calls_connect (tn : Turn) : bool :=
  match tn with Calls_connect => true | _ => false end.

(** After [disconnect()] on the dropped connection: an error event and the
    close event of the old handle arrive late, the host marks the handle
    CLOSED once more, and the consumer sends and disconnects again. *)
Definition late_turns : list Turn :=
  [Runs_onerror "late"%string; Sets 0 WebSocket.CLOSED; Runs_onclose;
   Calls_send JNull; Calls_disconnect].

Definition quiet_after_disconnect : State :=
  Eval vm_compute in
    match turns MockWebSocket localhost reconnecting late_turns
            (after (disconnect MockWebSocket reconnecting) dropped) with
    | Some s => s
    | None => initial
    end.

(** ** What a message delivers *)

(** The value the message handler assigns to [data] for the text [d],
    lines 117-126. *)
Definition delivered (host : Host) (options : Options) (d : string) : JValue :=
  if json options then
    match JSON_parse host d with
    | Normal v => v
    | Throw _ => JStr d
    end
  else JStr d.

(** The text of the last message event of a run. *)
Fixpoint last_message (evs : list Event) : option string :=
  match evs with
  | [] => None
  | ev :: rest =>
      match last_message rest with
      | Some d => Some d
      | None => match ev with SockMessage _ d => Some d | _ => None end
      end
  end.

(** Under [{ json: true }]: the handle opens, a message that is not JSON
    arrives, then the text [123], then an error event. *)
Definition messages_then_error : list Event :=
  [SockOpen 0; SockMessage 0 "plain text"; SockMessage 0 "123";
   SockError 0 "Connection failed"]%string.

Definition after_messages : State :=
  Eval vm_compute in
    match run MockWebSocket localhost with_json messages_then_error
            (useWebSocket MockWebSocket localhost with_json) with
    | Some s => s
    | None => initial
    end.

(** ** The plugin: [install] of Main.js *)

Module Main.

(** A JS value by its identity; the handlers of a [sockets] option are such
    values. *)
Definition Value : Type := nat.

(** *** Plain objects

    An object is the list of its own properties in the order [Object.keys]
    lists them: array indices first, in ascending order, then the other
    names in the order they were created.  The properties are enumerable,
    writable data properties, as assignment and object literals create
    them, and the prototype is [Object.prototype]; the label [__proto__],
    which assignment hands to the setter of [Object.prototype], is outside
    this model. *)

Definition digit (c : ascii) : option N :=
  let n := N_of_ascii c in
  if ((48 <=? n) && (n <=? 57))%N then Some (n - 48)%N else None.

Fixpoint digits (acc : N) (s : string) : option N :=
  match s with
  | EmptyString => Some acc
  | String c rest =>
      match digit c with
      | Some d => digits (10 * acc + d)%N rest
      | None => None
      end
  end.

(** An array index: a canonical numeric string below [2^32 - 1]. *)
Definition array_index (k : string) : option N :=
  match k with
  | EmptyString => None
  | String c rest =>
      if Ascii.eqb c "0"
      then match rest with EmptyString => Some 0%N | _ => None end
      else match digits 0 k with
           | Some n => if (n <? 4294967295)%N then Some n else None
           | None => None
           end
  end.

(** [precedes k1 k2]: a property [k2] created after [k1] is listed after
    it. *)
Definition precedes (k1 k2 : string) : bool :=
  match array_index k1, array_index k2 with
  | Some a, Some b => (a <? b)%N
  | Some _, None => true
  | None, Some _ => false
  | None, None => true
  end.

Record Obj : Type := {
  own : list (string * Value);
  (** after [Object.seal] *)
  sealed : bool
}.

(** [{}] *)
Definition empty_object : Obj := {| own := []; sealed := false |}.

(** [Object.keys(o)] *)
Definition Object_keys (o : Obj) : list string := map fst (own o).

Fixpoint assoc (k : string) (l : list (string * Value)) : option Value :=
  match l with
  | [] => None
  | (k', v) :: rest => if String.eqb k k' then Some v else assoc k rest
  end.

Fixpoint update (k : string) (v : Value) (l : list (string * Value))
  : list (string * Value) :=
  match l with
  | [] => []
  | (k', v') :: rest =>
      if String.eqb k k' then (k', v) :: rest else (k', v') :: update k v rest
  end.

(** A new property takes its place in the order of the keys. *)
Fixpoint place (k : string) (v : Value) (l : list (string * Value))
  : list (string * Value) :=
  match l with
  | [] => [(k, v)]
  | (k', v') :: rest =>
      if precedes k' k then (k', v') :: place k v rest else (k, v) :: l
  end.

Definition remove (k : string) (l : list (string * Value))
  : list (string * Value) :=
  List.filter (fun kv => negb (String.eqb k (fst kv))) l.

(** The names [Object.prototype] defines. *)
Definition Object_prototype : list string :=
  ["constructor"; "hasOwnProperty"; "isPrototypeOf"; "propertyIsEnumerable";
   "toLocaleString"; "toString"; "valueOf"; "__proto__";
   "__defineGetter__"; "__defineSetter__"; "__lookupGetter__";
   "__lookupSetter__"]%string.

(** The value of [o[k]]: an own property, a property of the prototype, or
    [undefined]. *)
Inductive Lookup : Type :=
| Own (v : Value)
| Inherited
| Undefined.

Definition TypeError : Err := "TypeError"%string.
Definition ReferenceError : Err := "ReferenceError"%string.

(** [o[k]] *)
Definition get_property (k : string) (o : Obj) : Lookup :=
  match assoc k (own o) with
  | Some v => Own v
  | None => if existsb (String.eqb k) Object_prototype then Inherited else Undefined
  end.

(** [o[k] = v], in strict code: a sealed object takes no new property. *)
Definition set_property (k : string) (v : Value) (o : Obj) : Completion Obj :=
  match assoc k (own o) with
  | Some _ => Normal {| own := update k v (own o); sealed := sealed o |}
  | None =>
      if sealed o then Throw TypeError
      else Normal {| own := place k v (own o); sealed := sealed o |}
  end.

(** [delete o[k]], in strict code: a sealed object gives up no property. *)
Definition delete_property (k : string) (o : Obj) : Completion Obj :=
  match assoc k (own o) with
  | Some _ =>
      if sealed o then Throw TypeError
      else Normal {| own := remove k (own o); sealed := sealed o |}
  | None => Normal o
  end.

(** [Object.seal(o)] *)
Definition seal (o : Obj) : Obj := {| own := own o; sealed := true |}.

(** *** Components, their options and the emitter *)

(** A component instance, the [this] of the hooks: its identity and the
    identity of its [$options] object, which instances may share. *)
Record VM : Type := {
  this : nat;
  dollar_options : nat
}.

(** The [sockets] property of an [$options] object: absent, the object the
    component declared, or the proxy that [created] puts in its place, with
    the instance its traps close over and its target. *)
Inductive Sockets : Type :=
| undefined
| Plain (o : Obj)
| Proxied (vm : VM) (target : Obj).

(** The calls the hooks make on the emitter of Emitter.js; both methods
    return a boolean, which the hooks ignore. *)
Inductive EmitterCall : Type :=
| addListener (label : string) (callback : Value) (vm : VM)
| removeListener (label : string) (callback : Lookup) (vm : VM).

(** What the host provides as [Proxy]. *)
Inductive ProxyKind : Type :=
| Native
| Foreign
| Absent.

(** Line 39: [typeof Proxy !== 'undefined' && typeof Proxy === 'function'
    && /native code/.test(Proxy.toString())]. *)
Definition hasProxy (p : ProxyKind) : bool :=
  match p with
  | Native => true
  | Foreign | Absent => false
  end.

(** [new Proxy({}, handler)]: naming [Proxy] where there is none throws. *)
Definition new_Proxy (p : ProxyKind) : Completion unit :=
  match p with
  | Native | Foreign => Normal tt
  | Absent => Throw ReferenceError
  end.

(** What the hooks read and write: the [sockets] property of every
    [$options] object, [app.config.globalProperties.sockets] (a proxy, with
    the instance its traps close over and its target), and the calls made on
    the emitter, oldest first. *)
Record Hooks : Type := {
  options : gmap nat Sockets;
  globalProperties_sockets : option (VM * Obj);
  Emitter : list EmitterCall
}.

Definition with_options (v : gmap nat Sockets) (s : Hooks) : Hooks :=
  {| options := v; globalProperties_sockets := globalProperties_sockets s;
     Emitter := Emitter s |}.
Definition with_globalProperties_sockets (v : option (VM * Obj)) (s : Hooks) : Hooks :=
  {| options := options s; globalProperties_sockets := v; Emitter := Emitter s |}.
Definition call (c : EmitterCall) (s : Hooks) : Hooks :=
  {| options := options s; globalProperties_sockets := globalProperties_sockets s;
     Emitter := Emitter s ++ [c] |}.

(** [vm.$options.sockets] *)
Definition read (vm : VM) (s : Hooks) : Sockets :=
  match options s !! dollar_options vm with
  | Some x => x
  | None => undefined
  end.

(** [vm.$options.sockets = x] *)
Definition write (vm : VM) (x : Sockets) (s : Hooks) : Hooks :=
  with_options (<[dollar_options vm := x]> (options s)) s.

(** [array.forEach(f)], left when [f] throws. *)
Fixpoint forEach {A : Type} (f : A -> Hooks -> Completion unit * Hooks)
    (l : list A) (s : Hooks) : Completion unit * Hooks :=
  match l with
  | [] => (Normal tt, s)
  | x :: rest =>
      match f x s with
      | (Normal _, s') => forEach f rest s'
      | (Throw e, s') => (Throw e, s')
      end
  end.

(** The own properties that [Object.keys(sockets)] and [sockets[key]]
    enumerate; a proxy without traps for them answers for its target. *)
Definition entries (x : Sockets) : list (string * Value) :=
  match x with
  | undefined => []
  | Plain o | Proxied _ o => own o
  end.

(** [vm.$options.sockets[key]]; reading a property of [undefined] throws. *)
Definition read_key (vm : VM) (key : string) (s : Hooks) : Completion Lookup :=
  match read vm s with
  | undefined => Throw TypeError
  | Plain o | Proxied _ o => Normal (get_property key o)
  end.

(** The [set] trap, lines 48-52 and 75-79. *)
Definition set_trap (vm : VM) (target : Obj) (key : string) (value : Value)
    (s : Hooks) : Completion Obj * Hooks :=
  let s := call (addListener key value vm) s in
  (set_property key value target, s).

(** The [deleteProperty] trap, lines 53-57 and 80-84: the handler is read
    from [vm.$options.sockets], and what is deleted from the target is the
    property named [key]. *)
Definition deleteProperty_trap (vm : VM) (target : Obj) (key : string)
    (s : Hooks) : Completion Obj * Hooks :=
  match read_key vm key s with
  | Throw e => (Throw e, s)
  | Normal callback =>
      let s := call (removeListener key callback vm) s in
      (delete_property "key" target, s)
  end.

(** [this.$options.sockets[key] = value]: through the [set] trap when the
    property holds a proxy. *)
Definition assign (vm : VM) (key : string) (value : Value) (s : Hooks)
  : Completion unit * Hooks :=
  match read vm s with
  | undefined => (Throw TypeError, s)
  | Plain o =>
      match set_property key value o with
      | Normal o' => (Normal tt, write vm (Plain o') s)
      | Throw e => (Throw e, s)
      end
  | Proxied owner target =>
      match set_trap owner target key value s with
      | (Normal target', s') => (Normal tt, write vm (Proxied owner target') s')
      | (Throw e, s') => (Throw e, s')
      end
  end.

(** [delete proxy[key]]: the [deleteProperty] trap runs; a trap that
    reports a property of a sealed target as deleted makes the proxy
    throw. *)
Definition proxy_delete (owner : VM) (target : Obj) (key : string) (s : Hooks)
  : Completion unit * Obj * Hooks :=
  match deleteProperty_trap owner target key s with
  | (Normal target', s') =>
      match assoc key (own target') with
      | Some _ =>
          if sealed target' then (Throw TypeError, target', s')
          else (Normal tt, target', s')
      | None => (Normal tt, target', s')
      end
  | (Throw e, s') => (Throw e, target, s')
  end.

(** [delete this.$options.sockets[key]]: through the [deleteProperty] trap
    when the property holds a proxy. *)
Definition delete_sockets (vm : VM) (key : string) (s : Hooks)
  : Completion unit * Hooks :=
  match read vm s with
  | undefined => (Throw TypeError, s)
  | Plain o =>
      match delete_property key o with
      | Normal o' => (Normal tt, write vm (Plain o') s)
      | Throw e => (Throw e, s)
      end
  | Proxied owner target =>
      match proxy_delete owner target key s with
      | (r, target', s') => (r, write vm (Proxied owner target') s')
      end
  end.

(** [Object.seal(this.$options.sockets)] *)
Definition seal_sockets (vm : VM) (s : Hooks) : Hooks :=
  match read vm s with
  | undefined => s
  | Plain o => write vm (Plain (seal o)) s
  | Proxied owner target => write vm (Proxied owner (seal target)) s
  end.

Section Mixin.
Variable Proxy : ProxyKind.

(** [created], lines 42-86. *)
Definition created (vm : VM) (s : Hooks) : Completion unit * Hooks :=
  let sockets := read vm s in
  let registered :=
    if hasProxy Proxy then
      let s := write vm (Proxied vm empty_object) s in
      match sockets with
      | undefined => (Normal tt, s)
      | _ => forEach (fun kv => assign vm (fst kv) (snd kv)) (entries sockets) s
      end
    else
      let s := seal_sockets vm s in
      match sockets with
      | undefined => (Normal tt, s)
      | _ => forEach (fun kv s => (Normal tt, call (addListener (fst kv) (snd kv) vm) s))
               (entries sockets) s
      end in
  match registered with
  | (Throw e, s) => (Throw e, s)
  | (Normal _, s) =>
      match new_Proxy Proxy with
      | Throw e => (Throw e, s)
      | Normal _ => (Normal tt, with_globalProperties_sockets (Some (vm, empty_object)) s)
      end
  end.

(** [beforeUnmount], lines 87-97. *)
Definition beforeUnmount (vm : VM) (s : Hooks) : Completion unit * Hooks :=
  if hasProxy Proxy then
    match read vm s with
    | undefined => (Normal tt, s)
    | sockets => forEach (delete_sockets vm) (map fst (entries sockets)) s
    end
  else (Normal tt, s).

End Mixin.

(** [app.config.globalProperties.sockets[key] = value], as a component's
    code writes it. *)
Definition global_set (key : string) (value : Value) (s : Hooks)
  : Completion unit * Hooks :=
  match globalProperties_sockets s with
  | None => (Throw TypeError, s)
  | Some (owner, target) =>
      match set_trap owner target key value s with
      | (Normal target', s') => (Normal tt, with_globalProperties_sockets (Some (owner, target')) s')
      | (Throw e, s') => (Throw e, s')
      end
  end.

(** [delete app.config.globalProperties.sockets[key]] *)
Definition global_delete (key : string) (s : Hooks) : Completion unit * Hooks :=
  match globalProperties_sockets s with
  | None => (Throw TypeError, s)
  | Some (owner, target) =>
      match proxy_delete owner target key s with
      | (r, target', s') =>
          (r, with_globalProperties_sockets (Some (owner, target')) s')
      end
  end.

(** An object as the language builds it: its keys are distinct and in
    their order. *)
Fixpoint in_order (l : list string) : bool :=
  match l with
  | [] => true
  | k :: rest =>
      forallb (fun k' => precedes k k' && negb (String.eqb k k')) rest
      && in_order rest
  end.

Definition is_object (o : Obj) : bool := in_order (Object_keys o).

(** The calls that register and that release the handlers of an object. *)
Definition registrations (vm : VM) (l : list (string * Value)) : list EmitterCall :=
  map (fun kv => addListener (fst kv) (snd kv) vm) l.

Definition releases (vm : VM) (l : list (string * Value)) : list EmitterCall :=
  map (fun kv => removeListener (fst kv) (Own (snd kv)) vm) l.

(** After the first [delete], the target has no property named [key]: the
    handler of that label is read as [undefined]. *)
Definition releases_after_first (vm : VM) (l : list (string * Value))
  : list EmitterCall :=
  map (fun kv =>
         removeListener (fst kv)
           (if String.eqb (fst kv) "key" then Undefined else Own (snd kv)) vm) l.

Definition releases_of (vm : VM) (l : list (string * Value)) : list EmitterCall :=
  match l with
  | [] => []
  | kv :: rest =>
      removeListener (fst kv) (Own (snd kv)) vm :: releases_after_first vm rest
  end.

(** The state after further calls on the emitter. *)
Definition logged (cs : list EmitterCall) (s : Hooks) : Hooks :=
  {| options := options s; globalProperties_sockets := globalProperties_sockets s;
     Emitter := Emitter s ++ cs |}.

(** *** Connections: [install], [$connect] and [$disconnect] *)

(** A WebSocket object, by its identity. *)
Definition Sock : Type := nat.

(** [connection]: [null] or a string; the empty string is falsy too. *)
Definition Connection : Type := option string.

Definition falsy (c : Connection) : bool :=
  match c with
  | None => true
  | Some u => String.eqb u EmptyString
  end.

(** [opts.store]: its [$socket] and its [_customProperties], a [Set] where
    the store has one. *)
Record Store : Type := {
  store_dollar_socket : option Sock;
  _customProperties : option (list string)
}.

(** [set.add(x)] *)
Definition Set_add (x : string) (l : list string) : list string :=
  if existsb (String.eqb x) l then l else l ++ [x].

(** The options object, as far as Main.js reads and writes it; [rest]
    stands for what only the Observer reads. *)
Record Opts : Type := {
  connectManually : bool;
  store : option Store;
  dollar_setInstance : bool;
  rest : nat
}.

Definition with_dollar_setInstance (o : Opts) : Opts :=
  {| connectManually := connectManually o; store := store o;
     dollar_setInstance := true; rest := rest o |}.
Definition with_store (v : option Store) (o : Opts) : Opts :=
  {| connectManually := connectManually o; store := v;
     dollar_setInstance := dollar_setInstance o; rest := rest o |}.

(** The fields of an Observer that Main.js reads and writes. *)
Record Observer : Type := {
  reconnection : bool;
  reconnectTimeoutId : option nat;
  Observer_WebSocket : Sock
}.

Definition stopped (ob : Observer) : Observer :=
  {| reconnection := false; reconnectTimeoutId := reconnectTimeoutId ob;
     Observer_WebSocket := Observer_WebSocket ob |}.

(** The application and the closure of [install]:
    [app.config.globalProperties.$socket]; whether [$connect] and
    [$disconnect] are defined; whether the mixin is registered; the
    [connection] and [opts] of the call; the variable [observer], a
    reference into the Observer objects constructed so far; and the calls
    of [close()] and of [clearTimeout], oldest first. *)
Record Plugin : Type := {
  dollar_socket : option Sock;
  dollar_connect_defined : bool;
  mixin : bool;
  connection : Connection;
  opts : Opts;
  observer : option nat;
  observers : list Observer;
  closed : list Sock;
  cleared : list (option nat)
}.

Definition with_dollar_socket (v : option Sock) (s : Plugin) : Plugin :=
  {| dollar_socket := v; dollar_connect_defined := dollar_connect_defined s;
     mixin := mixin s; connection := connection s; opts := opts s;
     observer := observer s; observers := observers s; closed := closed s;
     cleared := cleared s |}.
Definition with_opts (v : Opts) (s : Plugin) : Plugin :=
  {| dollar_socket := dollar_socket s; dollar_connect_defined := dollar_connect_defined s;
     mixin := mixin s; connection := connection s; opts := v;
     observer := observer s; observers := observers s; closed := closed s;
     cleared := cleared s |}.
Definition with_observer (v : option nat) (s : Plugin) : Plugin :=
  {| dollar_socket := dollar_socket s; dollar_connect_defined := dollar_connect_defined s;
     mixin := mixin s; connection := connection s; opts := opts s;
     observer := v; observers := observers s; closed := closed s;
     cleared := cleared s |}.
Definition with_observers (v : list Observer) (s : Plugin) : Plugin :=
  {| dollar_socket := dollar_socket s; dollar_connect_defined := dollar_connect_defined s;
     mixin := mixin s; connection := connection s; opts := opts s;
     observer := observer s; observers := v; closed := closed s;
     cleared := cleared s |}.
Definition with_closed (v : list Sock) (s : Plugin) : Plugin :=
  {| dollar_socket := dollar_socket s; dollar_connect_defined := dollar_connect_defined s;
     mixin := mixin s; connection := connection s; opts := opts s;
     observer := observer s; observers := observers s; closed := v;
     cleared := cleared s |}.
Definition with_cleared (v : list (option nat)) (s : Plugin) : Plugin :=
  {| dollar_socket := dollar_socket s; dollar_connect_defined := dollar_connect_defined s;
     mixin := mixin s; connection := connection s; opts := opts s;
     observer := observer s; observers := observers s; closed := closed s;
     cleared := v |}.

Definition cannot_locate : Err := "[vue-native-socket] cannot locate connection"%string.

Section Plugin.
(** [new Observer(url, opts)], Observer.js: given the number of Observers
    constructed before, the new object or what the constructor throws. *)
Variable new_Observer : nat -> Connection -> Opts -> Completion Observer.

(** [observer = new Observer(url, o)] and
    [app.config.globalProperties.$socket = observer.WebSocket]. *)
Definition construct (url : Connection) (o : Opts) (s : Plugin)
  : Completion Observer * Plugin :=
  match new_Observer (length (observers s)) url o with
  | Throw e => (Throw e, s)
  | Normal ob =>
      (Normal ob,
       with_dollar_socket (Some (Observer_WebSocket ob))
         (with_observer (Some (length (observers s)))
            (with_observers (observers s ++ [ob]) s)))
  end.

(** [install], lines 7-38 and 41: the application before is one without
    [$socket], [$connect] and [$disconnect]. *)
Definition install (connection : Connection) (opts : Opts)
  : Completion unit * Plugin :=
  let s := {| dollar_socket := None; dollar_connect_defined := false;
              mixin := false; connection := connection; opts := opts;
              observer := None; observers := []; closed := []; cleared := [] |} in
  if falsy connection && negb (connectManually opts)
  then (Throw cannot_locate, s)
  else
    let s := with_opts (with_dollar_setInstance opts) s in
    if connectManually opts then
      (Normal tt,
       {| dollar_socket := dollar_socket s; dollar_connect_defined := true;
          mixin := true; connection := connection; opts := Main.opts s;
          observer := observer s; observers := observers s;
          closed := closed s; cleared := cleared s |})
    else
      match construct connection (Main.opts s) s with
      | (Throw e, s) => (Throw e, s)
      | (Normal _, s) =>
          (Normal tt,
           {| dollar_socket := dollar_socket s; dollar_connect_defined := false;
              mixin := true; connection := connection; opts := Main.opts s;
              observer := observer s; observers := observers s;
              closed := closed s; cleared := cleared s |})
      end.

(** [$connect(connectionUrl = connection, connectionOpts = opts)], lines
    17-23; an argument left out is [None].  Writing a property of an absent
    store, or calling [add] on an absent [_customProperties], throws. *)
Definition dollar_connect (connectionUrl : option Connection)
    (connectionOpts : option Opts) (s : Plugin) : Completion unit * Plugin :=
  let url := match connectionUrl with Some u => u | None => connection s end in
  let o := match connectionOpts with
           | Some o => with_dollar_setInstance o
           | None => opts s
           end in
  match construct url o s with
  | (Throw e, s) => (Throw e, s)
  | (Normal ob, s) =>
      match store (opts s) with
      | None => (Throw TypeError, s)
      | Some st =>
          let st := {| store_dollar_socket := Some (Observer_WebSocket ob);
                       _customProperties := _customProperties st |} in
          let s := with_opts (with_store (Some st) (opts s)) s in
          match _customProperties st with
          | None => (Throw TypeError, s)
          | Some props =>
              let st := {| store_dollar_socket := store_dollar_socket st;
                           _customProperties := Some (Set_add "$socket" props) |} in
              (Normal tt, with_opts (with_store (Some st) (opts s)) s)
          end
      end
  end.

End Plugin.

(** [$disconnect()], lines 25-34. *)
Definition dollar_disconnect (s : Plugin) : Plugin :=
  let s :=
    match observer s with
    | Some i =>
        match observers s !! i with
        | Some ob =>
            if reconnection ob then
              with_cleared (cleared s ++ [reconnectTimeoutId ob])
                (with_observers (<[i := stopped ob]> (observers s)) s)
            else s
        | None => s
        end
    | None => s
    end in
  match dollar_socket s with
  | Some w => with_dollar_socket None (with_closed (closed s ++ [w]) s)
  | None => s
  end.

(** [opts.$setInstance(wsInstance)], lines 12-14, which the Observer calls
    when it has reconnected. *)
Definition setInstance (wsInstance : Sock) (s : Plugin) : Plugin :=
  with_dollar_socket (Some wsInstance) s.

(** *** Scenarios *)

(** Two instances of one component, which share its [$options]. *)
Definition component : VM := {| this := 1; dollar_options := 1 |}.
Definition sibling : VM := {| this := 2; dollar_options := 1 |}.

(** [sockets: { onopen, onmessage }] and [sockets: { onopen, key }] *)
Definition declared : Obj :=
  {| own := [("onopen"%string, 10); ("onmessage"%string, 11)]; sealed := false |}.
Definition declared_with_key : Obj :=
  {| own := [("onopen"%string, 10); ("key"%string, 12)]; sealed := false |}.

(** [{ $options: { sockets: {} } }] *)
Definition nothing_declared : Obj := empty_object.

(** Before any hook has run. *)
Definition declaring (o : Obj) : Hooks :=
  {| options := {[ 1 := Plain o ]};
     globalProperties_sockets := None;
     Emitter := [] |}.

(** A constructor that always succeeds: each Observer reconnects, and its
    socket and its timer are its own. *)
Definition reconnecting_Observer (n : nat) (_ : Connection) (_ : Opts)
  : Completion Observer :=
  Normal {| reconnection := true; reconnectTimeoutId := Some n;
            Observer_WebSocket := n |}.

(** [{ connectManually: true, store }]: with a store that has no
    [_customProperties], and with the store of the tests,
    [{ _customProperties: new Set() }]. *)
Definition manual_opts (st : option Store) : Opts :=
  {| connectManually := true; store := st; dollar_setInstance := false; rest := 0 |}.

Definition bare_store : Store :=
  {| store_dollar_socket := None; _customProperties := None |}.

Definition test_store : Store :=
  {| store_dollar_socket := None; _customProperties := Some [] |}.

(** [{}] *)
Definition no_opts : Opts :=
  {| connectManually := false; store := None; dollar_setInstance := false; rest := 0 |}.

Definition installed (st : option Store) : Plugin :=
  Eval vm_compute in
    snd (install reconnecting_Observer (Some localhost) (manual_opts st)).

End Main.

(** * Properties *)

(** ** The JSON built-ins: what is printed is read back *)

Module JSONFacts.
Import JSON.

Lemma parse_chars_quote_char c l :
  parse_chars (quote_char c ++ l) =
  match parse_chars l with Some (cs, r) => Some (c :: cs, r) | None => None end.
Proof.
  destruct c as [[] [] [] [] [] [] [] []]; reflexivity.
Qed.

Lemma parse_chars_quoted cs rest :
  parse_chars (flat_map quote_char cs ++ quote :: rest) = Some (cs, rest).
Proof.
  induction cs as [|c cs IH]; [reflexivity|].
  cbn [flat_map]. rewrite <- app_assoc, parse_chars_quote_char, IH. reflexivity.
Qed.

Lemma quote_string_app s rest :
  quote_string s ++ rest = quote :: flat_map quote_char (list_ascii_of_string s) ++ quote :: rest.
Proof. unfold quote_string. cbn. rewrite <- app_assoc. reflexivity. Qed.

Lemma span_digits_uint d rest :
  no_digit_head rest ->
  span_digits (list_ascii_of_string (NilEmpty.string_of_uint d) ++ rest) =
  (list_ascii_of_string (NilEmpty.string_of_uint d), rest).
Proof.
  intros H. induction d; cbn [NilEmpty.string_of_uint list_ascii_of_string app span_digits];
    try (change (is_digit _) with true; cbn iota; rewrite IHd; reflexivity).
  destruct rest as [|c r]; [reflexivity|]. cbn in *. rewrite H. reflexivity.
Qed.

Lemma to_uint_no_leading_zero p d : Pos.to_uint p <> Decimal.D0 d.
Proof.
  intros E.
  assert (U : Decimal.unorm (Pos.to_uint p) = Pos.to_uint p).
  { rewrite <- (DecimalPos.Unsigned.to_of (Pos.to_uint p)).
    rewrite DecimalPos.Unsigned.of_to. reflexivity. }
  unfold Decimal.unorm in U.
  destruct (Decimal.nzhead (Pos.to_uint p)) eqn:N;
    try (rewrite <- U in E; discriminate).
  - rewrite <- U in E. apply (DecimalPos.Unsigned.to_uint_nonzero p).
    rewrite <- U. reflexivity.
  - apply DecimalFacts.nzhead_nonzero in N. exact N.
Qed.

Lemma digits_shape d :
  d <> Decimal.Nil ->
  (forall d', d = Decimal.D0 d' -> d' = Decimal.Nil) ->
  exists c t, list_ascii_of_string (NilEmpty.string_of_uint d) = c :: t
              /\ is_digit c = true
              /\ leading_zero (c :: t) = false.
Proof.
  intros Hn Hz.
  destruct d; try congruence;
    cbn [NilEmpty.string_of_uint list_ascii_of_string];
    eexists _, _; (split; [reflexivity|]); (split; [reflexivity|]);
    try (cbn; destruct (list_ascii_of_string _); reflexivity).
  rewrite (Hz d eq_refl). reflexivity.
Qed.

Lemma parse_unsigned d rest :
  d <> Decimal.Nil ->
  (forall d', d = Decimal.D0 d' -> d' = Decimal.Nil) ->
  no_digit_head rest ->
  parse_number (list_ascii_of_string (NilEmpty.string_of_uint d) ++ rest)
  = Some (JNum (Z.of_uint d), rest)
  /\ parse_number ("-"%char :: list_ascii_of_string (NilEmpty.string_of_uint d) ++ rest)
    = Some (JNum (Z.opp (Z.of_uint d)), rest).
Proof.
  intros Hn Hz Hr.
  destruct (digits_shape d Hn Hz) as (c & t & E & Hc & Hl).
  pose proof (span_digits_uint d rest Hr) as Hs.
  unfold parse_number.
  assert (Hm : Nat.eqb (nat_of_ascii c) 45 = false).
  { unfold is_digit in Hc. apply Nat.eqb_neq. apply andb_true_iff in Hc as [H1 H2].
    apply Nat.leb_le in H1. lia. }
  split.
  - rewrite E in *. cbn [app]. rewrite Hm.
    change (c :: t ++ rest) with ((c :: t) ++ rest). rewrite Hs, Hl.
    rewrite <- E, string_of_list_ascii_of_string, NilEmpty.usu. reflexivity.
  - change (Nat.eqb (nat_of_ascii "-"%char) 45) with true. cbn iota.
    rewrite Hs. rewrite E, Hl. rewrite <- E.
    rewrite string_of_list_ascii_of_string, NilEmpty.usu. reflexivity.
Qed.

Lemma parse_number_to_text n rest :
  no_digit_head rest ->
  parse_number (number_to_text n ++ rest) = Some (JNum n, rest).
Proof.
  intros Hr. unfold number_to_text.
  destruct n as [|p|p]; cbn [Z.to_int NilZero.string_of_int].
  - assert (Hn : Decimal.zero <> Decimal.Nil) by discriminate.
    assert (Hz : forall d', Decimal.zero = Decimal.D0 d' -> d' = Decimal.Nil)
      by (intros d' [= <-]; reflexivity).
    destruct (parse_unsigned _ rest Hn Hz Hr) as [H _]. exact H.
  - assert (Hn : Pos.to_uint p <> Decimal.Nil) by apply DecimalPos.Unsigned.to_uint_nonnil.
    assert (Hz : forall d', Pos.to_uint p = Decimal.D0 d' -> d' = Decimal.Nil).
    { intros d' E. destruct (to_uint_no_leading_zero p d' E). }
    destruct (parse_unsigned _ rest Hn Hz Hr) as [H _].
    unfold NilZero.string_of_uint. destruct (Pos.to_uint p) eqn:E; try congruence;
      rewrite H; f_equal; f_equal; f_equal;
      rewrite <- E; pose proof (DecimalZ.of_to (Z.pos p)) as Q; exact Q.
  - assert (Hn : Pos.to_uint p <> Decimal.Nil) by apply DecimalPos.Unsigned.to_uint_nonnil.
    assert (Hz : forall d', Pos.to_uint p = Decimal.D0 d' -> d' = Decimal.Nil).
    { intros d' E. destruct (to_uint_no_leading_zero p d' E). }
    destruct (parse_unsigned _ rest Hn Hz Hr) as [_ H].
    unfold NilZero.string_of_uint. destruct (Pos.to_uint p) eqn:E; try congruence;
      cbn [list_ascii_of_string app]; rewrite H; f_equal; f_equal; f_equal;
      rewrite <- E; pose proof (DecimalZ.of_to (Z.neg p)) as Q; exact Q.
Qed.

Lemma number_head n :
  exists c t, number_to_text n = c :: t
              /\ (is_digit c = true \/ c = "-"%char).
Proof.
  unfold number_to_text.
  assert (H : forall d, d <> Decimal.Nil ->
            exists c t, list_ascii_of_string (NilZero.string_of_uint d) = c :: t
                        /\ is_digit c = true).
  { intros d Hd. destruct d; try congruence; eexists _, _; split; reflexivity. }
  destruct n as [|p|p]; cbn [Z.to_int NilZero.string_of_int].
  - eexists _, _; split; [reflexivity|left; reflexivity].
  - destruct (H (Pos.to_uint p) (DecimalPos.Unsigned.to_uint_nonnil p)) as (c & t & E & Hc).
    eauto.
  - eexists _, _; split; [reflexivity|right; reflexivity].
Qed.

Lemma digit_code c :
  is_digit c = true -> 48 <= nat_of_ascii c <= 57.
Proof.
  unfold is_digit. intros H. apply andb_true_iff in H as [H1 H2].
  apply Nat.leb_le in H1, H2. lia.
Qed.

Lemma digit_opens c : is_digit c = true -> opens_value c.
Proof.
  intros H%digit_code. unfold opens_value, is_ws.
  repeat match goal with
         | |- context [Nat.eqb ?a ?b] => destruct (Nat.eqb_spec a b); [lia|]
         end.
  split; reflexivity.
Qed.

Lemma serialize_head v :
  exists c t, serialize v = c :: t /\ opens_value c.
Proof.
  destruct v as [| [] | n | s | items | props];
    try (eexists _, _; split; [reflexivity | split; reflexivity]).
  cbn [serialize].
  destruct (number_head n) as (c & t & E & [Hc | ->]); rewrite E.
  - eexists _, _; split; [reflexivity | apply digit_opens, Hc].
  - eexists _, _; split; [reflexivity | split; reflexivity].
Qed.

Lemma skip_ws_opens c l : is_ws c = false -> skip_ws (c :: l) = c :: l.
Proof. intros H. cbn. rewrite H. reflexivity. Qed.

Lemma existsb_eqb_false k (keys : list string) :
  existsb (String.eqb k) keys = false -> k ∉ keys.
Proof.
  induction keys as [|k' keys IH]; cbn; intros H.
  - apply not_elem_of_nil.
  - apply orb_false_iff in H as [H1 H2]. apply not_elem_of_cons. split.
    + apply String.eqb_neq, H1.
    + apply IH, H2.
Qed.

Lemma set_prop_fresh k v props :
  k ∉ map fst props -> set_prop k v props = props ++ [(k, v)].
Proof.
  induction props as [|[k' v'] props IH]; cbn; intros H; [reflexivity|].
  apply not_elem_of_cons in H as [H1 H2].
  apply String.eqb_neq in H1. rewrite H1, IH by exact H2. reflexivity.
Qed.

Lemma fold_set_prop members acc :
  no_repeat (map fst members) = true ->
  (forall k, k ∈ map fst members -> k ∉ map fst acc) ->
  fold_left (fun a kv => set_prop (fst kv) (snd kv) a) members acc = acc ++ members.
Proof.
  revert acc. induction members as [|[k v] members IH]; intros acc Hn Hd; cbn.
  - rewrite app_nil_r. reflexivity.
  - cbn in Hn. apply andb_true_iff in Hn as [Hk Hn].
    apply negb_true_iff, existsb_eqb_false in Hk.
    rewrite set_prop_fresh by (apply Hd; cbn; apply elem_of_cons; left; reflexivity).
    rewrite IH; [rewrite <- app_assoc; reflexivity | exact Hn |].
    intros k' Hk'. rewrite map_app. cbn. intros Hin.
    apply elem_of_app in Hin as [Hin | Hin].
    + apply (Hd k'); [cbn; apply elem_of_cons; right; exact Hk' | exact Hin].
    + apply list_elem_of_singleton in Hin. subst. contradiction.
Qed.

Lemma make_object_distinct props :
  no_repeat (map fst props) = true -> make_object props = JObj props.
Proof.
  intros H. unfold make_object. rewrite fold_set_prop; [reflexivity | exact H |].
  intros k _. apply not_elem_of_nil.
Qed.

Lemma parse_value_array f rest :
  parse_value (S f) ("["%char :: rest) =
  match starts_with "]"%char (skip_ws rest) with
  | Some r => Some (JArr [], r)
  | None => match parse_elements f rest with
            | Some (vs, r) => Some (JArr vs, r)
            | None => None
            end
  end.
Proof. reflexivity. Qed.

Lemma parse_value_object f rest :
  parse_value (S f) ("{"%char :: rest) =
  match starts_with "}"%char (skip_ws rest) with
  | Some r => Some (JObj [], r)
  | None => match parse_members f rest with
            | Some (ms, r) => Some (make_object ms, r)
            | None => None
            end
  end.
Proof. reflexivity. Qed.

Lemma parse_value_string f rest :
  parse_value (S f) (quote :: rest) =
  match parse_chars rest with
  | Some (cs, r) => Some (JStr (string_of_list_ascii cs), r)
  | None => None
  end.
Proof. reflexivity. Qed.

Lemma parse_value_number f c rest :
  is_digit c = true \/ c = "-"%char ->
  parse_value (S f) (c :: rest) = parse_number (c :: rest).
Proof.
  intros [H | ->]; [|reflexivity].
  pose proof (digit_opens c H) as [Hw _]. apply digit_code in H.
  cbn [parse_value]. rewrite skip_ws_opens by exact Hw. cbv zeta.
  repeat match goal with
         | |- context [Nat.eqb (nat_of_ascii c) ?b] =>
             destruct (Nat.eqb_spec (nat_of_ascii c) b); [lia|]
         end.
  reflexivity.
Qed.

Lemma parse_elements_S f l :
  parse_elements (S f) l =
  match parse_value f l with
  | Some (v, rest) =>
      match skip_ws rest with
      | c :: rest' =>
          if Nat.eqb (nat_of_ascii c) 44 then
            match parse_elements f rest' with
            | Some (vs, r) => Some (v :: vs, r)
            | None => None
            end
          else if Nat.eqb (nat_of_ascii c) 93 then Some ([v], rest')
          else None
      | [] => None
      end
  | None => None
  end.
Proof. reflexivity. Qed.

Lemma parse_members_S f l :
  parse_members (S f) l =
  match starts_with quote (skip_ws l) with
  | Some l1 =>
      match parse_chars l1 with
      | Some (k, l2) =>
          match starts_with ":"%char (skip_ws l2) with
          | Some l3 =>
              match parse_value f l3 with
              | Some (v, rest) =>
                  match skip_ws rest with
                  | c :: rest' =>
                      if Nat.eqb (nat_of_ascii c) 44 then
                        match parse_members f rest' with
                        | Some (ms, r) => Some ((string_of_list_ascii k, v) :: ms, r)
                        | None => None
                        end
                      else if Nat.eqb (nat_of_ascii c) 125
                      then Some ([(string_of_list_ascii k, v)], rest')
                      else None
                  | [] => None
                  end
              | None => None
              end
          | None => None
          end
      | None => None
      end
  | None => None
  end.
Proof. reflexivity. Qed.

Lemma elements_read_back items :
  Forall reads_back items -> items <> [] ->
  forall fuel rest,
    forallb distinct_keys items = true ->
    length (serialize_list serialize items) < fuel ->
    parse_elements fuel (serialize_list serialize items ++ "]"%char :: rest)
    = Some (items, rest).
Proof.
  induction 1 as [|x l Hx Hl IH]; [congruence|]. intros _ fuel rest Hd Hf.
  cbn in Hd. apply andb_true_iff in Hd as [Hdx Hdl].
  destruct fuel as [|f]; [lia|]. rewrite parse_elements_S.
  cbn [serialize_list] in *. rewrite length_app in Hf.
  rewrite <- app_assoc.
  destruct l as [|y l'].
  - cbn [app]. rewrite Hx; [reflexivity | exact Hdx | cbn in Hf; lia | reflexivity].
  - rewrite Hx; [| exact Hdx | lia | reflexivity].
    cbn [app skip_ws]. cbn [length] in Hf.
    change (is_ws ","%char) with false. cbv iota.
    change (Nat.eqb (nat_of_ascii ","%char) 44) with true. cbv iota.
    rewrite IH; [reflexivity | congruence | exact Hdl | lia].
Qed.

Lemma member_text_app kv l :
  member_text kv ++ l =
  quote :: flat_map quote_char (list_ascii_of_string (fst kv))
        ++ quote :: ":"%char :: serialize (snd kv) ++ l.
Proof.
  unfold member_text. rewrite <- app_assoc, quote_string_app. reflexivity.
Qed.

Lemma members_read_back props :
  Forall (fun kv => reads_back (snd kv)) props -> props <> [] ->
  forall fuel rest,
    forallb (fun kv => distinct_keys (snd kv)) props = true ->
    length (serialize_list member_text props) < fuel ->
    parse_members fuel (serialize_list member_text props ++ "}"%char :: rest)
    = Some (props, rest).
Proof.
  induction 1 as [|[k x] l Hx Hl IH]; [congruence|]. intros _ fuel rest Hd Hf.
  cbn in Hd. apply andb_true_iff in Hd as [Hdx Hdl].
  destruct fuel as [|f]; [lia|]. rewrite parse_members_S.
  cbn [serialize_list] in *. rewrite length_app in Hf.
  assert (Hm : length (serialize x) < length (member_text (k, x))).
  { unfold member_text. rewrite length_app. cbn. lia. }
  rewrite <- app_assoc, member_text_app. cbn [fst snd].
  rewrite skip_ws_opens by reflexivity.
  change (starts_with quote (quote :: ?l)) with (Some l).
  cbv iota. rewrite parse_chars_quoted.
  rewrite skip_ws_opens by reflexivity.
  change (starts_with ":"%char (":"%char :: ?l)) with (Some l). cbv iota.
  rewrite string_of_list_ascii_of_string.
  destruct l as [|y l'].
  - cbn [app]. cbn in Hx. rewrite Hx; [reflexivity | exact Hdx | cbn [length] in Hf; lia | reflexivity].
  - cbn in Hx. rewrite Hx; [| exact Hdx | lia | reflexivity].
    cbn [app skip_ws]. cbn [length] in Hf.
    change (is_ws ","%char) with false. cbv iota.
    change (Nat.eqb (nat_of_ascii ","%char) 44) with true. cbv iota.
    rewrite IH; [reflexivity | congruence | exact Hdl | lia].
Qed.

Lemma serialize_list_opens items rest :
  items <> [] ->
  exists c t, serialize_list serialize items ++ rest = c :: t /\ opens_value c.
Proof.
  destruct items as [|x l]; [congruence|]. intros _.
  destruct (serialize_head x) as (c & t & E & Hc).
  cbn [serialize_list]. rewrite E. cbn. eauto.
Qed.

Lemma serialize_reads_back v : reads_back v.
Proof.
  induction v as [| b | n | s | items IH | props IH] using JValue_ind;
    intros fuel rest Hd Hf Hr.
  - destruct fuel; [cbn in Hf; lia | reflexivity].
  - destruct b; (destruct fuel; [cbn in Hf; lia | reflexivity]).
  - cbn [serialize] in *.
    destruct (number_head n) as (c & t & E & Hc).
    destruct fuel; [rewrite E in Hf; cbn in Hf; lia|].
    pose proof (parse_number_to_text n rest Hr) as Hp.
    rewrite E in *. cbn [app] in *. rewrite parse_value_number by exact Hc.
    exact Hp.
  - cbn [serialize] in *. destruct fuel; [cbn in Hf; lia|].
    rewrite quote_string_app, parse_value_string, parse_chars_quoted.
    rewrite string_of_list_ascii_of_string. reflexivity.
  - cbn [serialize distinct_keys] in *. destruct fuel as [|f]; [cbn in Hf; lia|].
    cbn [app]. rewrite parse_value_array, <- app_assoc. cbn [app].
    destruct items as [|x l].
    + reflexivity.
    + destruct (serialize_list_opens (x :: l) ("]"%char :: rest)) as (c & t & E & Hw & Hc);
        [congruence|].
      rewrite E, skip_ws_opens by exact Hw. cbn [starts_with].
      replace (Ascii.eqb "]"%char c) with false.
      2:{ symmetry. apply Ascii.eqb_neq. intros <-. discriminate Hc. }
      rewrite <- E, elements_read_back; [reflexivity | exact IH | congruence | exact Hd |].
      cbn [length] in Hf. rewrite length_app in Hf. cbn [length] in Hf. lia.
  - cbn [serialize distinct_keys] in *. destruct fuel as [|f]; [cbn in Hf; lia|].
    apply andb_true_iff in Hd as [Hk Hd].
    cbn [app]. rewrite parse_value_object, <- app_assoc. cbn [app].
    destruct props as [|kv l].
    + reflexivity.
    + change (serialize_list _ (kv :: l)) with (serialize_list member_text (kv :: l)) in *.
      pose proof (members_read_back (kv :: l) IH) as Hm.
      rewrite Hm; [| congruence | exact Hd |].
      2:{ cbn [length] in Hf. rewrite length_app in Hf. cbn [length] in Hf. lia. }
      cbn [serialize_list]. rewrite <- app_assoc, member_text_app.
      rewrite skip_ws_opens by reflexivity.
      change (starts_with "}"%char (quote :: ?l)) with (@None text). cbv iota.
      rewrite make_object_distinct by exact Hk. reflexivity.
Qed.

Lemma parse_stringify v :
  distinct_keys v = true -> parse (stringify v) = Normal v.
Proof.
  intros Hd. unfold parse, stringify.
  rewrite list_ascii_of_string_of_list_ascii.
  pose proof (serialize_reads_back v (S (length (serialize v))) [] Hd) as H.
  rewrite app_nil_r in H. rewrite H; [reflexivity | lia | exact I].
Qed.
End JSONFacts.

(** ** The composable: equations of its functions *)

Section Equations.
Variable host : Host.
Variable url : string.
Variable options : Options.

Lemma connect_eq s :
  connect host url options s =
  (Normal tt,
   if held_is_open s then s
   else
     let s1 := with_status CONNECTING (with_explicitClose false s) in
     match WebSocket_rejects host url (requested_protocol options) with
     | Some e => with_status ERROR (with_error (Some e) s1)
     | None => with_sockets (sockets s ++ [fresh_socket url options])
                 (with_ws (Some (length (sockets s))) s1)
     end).
Proof.
  js_unfold. cbn. destruct (held_is_open s); [reflexivity|].
  destruct (WebSocket_rejects _ _ _); cbn; [reflexivity|].
  rewrite lookup_app_r by lia. rewrite Nat.sub_diag. cbn.
  unfold with_sockets; cbn. rewrite insert_app_r_alt by lia.
  rewrite Nat.sub_diag. reflexivity.
Qed.

Lemma onclose_eq s :
  onclose options s =
  (Normal tt,
   let s1 := with_ws None (with_status DISCONNECTED (with_isConnected false s)) in
   if should_reconnect options s
   then with_reconnectTimeoutId (Some (length (timers s)))
          (with_timers (timers s ++ [reconnect_timer options])
             (with_reconnectCount (S (reconnectCount s)) s1))
   else s1).
Proof.
  js_unfold. cbn.
  change (should_reconnect options (with_ws None (with_status DISCONNECTED (with_isConnected false s))))
    with (should_reconnect options s).
  destruct (should_reconnect options s); reflexivity.
Qed.

Lemma set_readyState_eq h r s :
  set_readyState h r s =
  (Normal tt,
   match sockets s !! h with
   | Some w => with_sockets (<[h := WebSocket.with_state r w]> (sockets s)) s
   | None => s
   end).
Proof. js_unfold. cbn. destruct (sockets s !! h); reflexivity. Qed.

Lemma clearTimeout_eq t s :
  clearTimeout t s =
  (Normal tt, clear t s).
Proof. unfold clear. js_unfold. cbn. destruct (timers s !! t) as [tm|]; [destruct (is_pending tm)|]; reflexivity. Qed.

Lemma WebSocket_close_eq h s :
  WebSocket_close host options h s =
  (Normal tt,
   match sockets s !! h with
   | Some w =>
       if close_is_synchronous host then
         if WebSocket.listening w
         then after (onclose options) (set_state h WebSocket.CLOSED s)
         else set_state h WebSocket.CLOSED s
       else
         match WebSocket.state w with
         | WebSocket.CLOSING | WebSocket.CLOSED => s
         | _ => set_state h WebSocket.CLOSING s
         end
   | None => s
   end).
Proof.
  unfold WebSocket_close, bind, get. cbv beta iota.
  destruct (sockets s !! h) as [w|] eqn:E; [|reflexivity].
  destruct (close_is_synchronous host).
  - rewrite set_readyState_eq. fold (set_state h WebSocket.CLOSED s).
    destruct (WebSocket.listening w); [|reflexivity].
    unfold after. rewrite onclose_eq. reflexivity.
  - destruct (WebSocket.state w); try reflexivity;
      rewrite set_readyState_eq; unfold set_state; reflexivity.
Qed.

Lemma disconnect_eq s :
  disconnect host options s =
  (Normal tt,
   let s1 := with_explicitClose true s in
   let s2 := match reconnectTimeoutId s with
             | Some t => with_reconnectTimeoutId None (after (clearTimeout t) s1)
             | None => s1
             end in
   let s3 := match ws s with
             | Some h => with_ws None (after (WebSocket_close host options h) s2)
             | None => s2
             end in
   with_status DISCONNECTED (with_isConnected false s3)).
Proof.
  unfold disconnect, bind, get, modify, after. cbv beta iota.
  cbn [reconnectTimeoutId with_explicitClose].
  destruct (reconnectTimeoutId s) as [t|].
  - rewrite clearTimeout_eq. unfold clear. cbv beta iota. cbn [snd timers with_explicitClose].
    destruct (timers s !! t) as [tm|]; [destruct (is_pending tm)|];
      cbn [ws with_reconnectTimeoutId with_timers with_explicitClose];
      (destruct (ws s) as [h|]; [|reflexivity]);
      rewrite WebSocket_close_eq; reflexivity.
  - cbv beta iota. cbn [snd ret ws with_explicitClose].
    destruct (ws s) as [h|]; [|reflexivity].
    rewrite WebSocket_close_eq. reflexivity.
Qed.

Lemma onmessage_eq d s :
  onmessage host options d s =
  (Normal tt,
   if json options then
     match JSON_parse host d with
     | Normal v => with_data v s
     | Throw _ => with_data (JStr d) s
     end
   else with_data (JStr d) s).
Proof.
  js_unfold. destruct (json options); [|reflexivity].
  destruct (JSON_parse host d); reflexivity.
Qed.

Lemma send_eq m s :
  send host options m s =
  if held_is_open s
  then (Normal true,
        match ws s with
        | Some h => with_sent (sent s ++ [(h, payload_of host options m)]) s
        | None => s
        end)
  else (Normal false, with_console (console s ++ [cannot_send]) s).
Proof.
  unfold send, bind, get. cbn. unfold held_is_open, held_readyState.
  destruct (ws s) as [h|] eqn:E; [|reflexivity]. cbn. 
  destruct (sockets s !! h) as [w|] eqn:Ew; cbn; [|reflexivity].
  destruct (WebSocket.state w) eqn:Es; cbn; try reflexivity.
  js_unfold. cbn. rewrite Ew. unfold WebSocket.is_open. rewrite Es. reflexivity.
Qed.

(** The same equations on the state a call leaves behind. *)
Lemma after_connect s :
  after (connect host url options) s =
  if held_is_open s then s
  else
    let s1 := with_status CONNECTING (with_explicitClose false s) in
    match WebSocket_rejects host url (requested_protocol options) with
    | Some e => with_status ERROR (with_error (Some e) s1)
    | None => with_sockets (sockets s ++ [fresh_socket url options])
                (with_ws (Some (length (sockets s))) s1)
    end.
Proof. unfold after. rewrite connect_eq. reflexivity. Qed.

Lemma after_onclose s :
  after (onclose options) s =
  let s1 := with_ws None (with_status DISCONNECTED (with_isConnected false s)) in
  if should_reconnect options s
  then with_reconnectTimeoutId (Some (length (timers s)))
         (with_timers (timers s ++ [reconnect_timer options])
            (with_reconnectCount (S (reconnectCount s)) s1))
  else s1.
Proof. unfold after. rewrite onclose_eq. reflexivity. Qed.

Lemma after_close h s :
  after (WebSocket_close host options h) s =
  match sockets s !! h with
  | Some w =>
      if close_is_synchronous host then
        if WebSocket.listening w
        then after (onclose options) (set_state h WebSocket.CLOSED s)
        else set_state h WebSocket.CLOSED s
      else
        match WebSocket.state w with
        | WebSocket.CLOSING | WebSocket.CLOSED => s
        | _ => set_state h WebSocket.CLOSING s
        end
  | None => s
  end.
Proof. unfold after. rewrite WebSocket_close_eq. reflexivity. Qed.

Lemma after_disconnect s :
  after (disconnect host options) s =
  let s1 := with_explicitClose true s in
  let s2 := match reconnectTimeoutId s with
            | Some t => with_reconnectTimeoutId None (clear t s1)
            | None => s1
            end in
  let s3 := match ws s with
            | Some h => with_ws None (after (WebSocket_close host options h) s2)
            | None => s2
            end in
  with_status DISCONNECTED (with_isConnected false s3).
Proof.
  unfold after at 1. rewrite disconnect_eq. cbn [snd].
  destruct (reconnectTimeoutId s); [|reflexivity].
  assert (E : forall x, after (clearTimeout n) x = clear n x)
    by (intros x; unfold after; rewrite clearTimeout_eq; reflexivity).
  rewrite !E. reflexivity.
Qed.

Lemma after_send m s :
  after (send host options m) s =
  if held_is_open s
  then match ws s with
       | Some h => with_sent (sent s ++ [(h, payload_of host options m)]) s
       | None => s
       end
  else with_console (console s ++ [cannot_send]) s.
Proof. unfold after. rewrite send_eq. destruct (held_is_open s); reflexivity. Qed.

Lemma after_onmessage d s :
  after (onmessage host options d) s =
  if json options then
    match JSON_parse host d with
    | Normal v => with_data v s
    | Throw _ => with_data (JStr d) s
    end
  else with_data (JStr d) s.
Proof. unfold after. rewrite onmessage_eq. reflexivity. Qed.

(** One turn, as the handler applied after the host's own change. *)
Lemma step_after ev s s' :
  step host url options ev s = Some s' ->
  s' = match ev with
       | CallConnect => after (connect host url options) s
       | CallDisconnect => after (disconnect host options) s
       | CallSend m => after (send host options m) s
       | SockOpen h => after onopen (set_state h WebSocket.OPEN s)
       | SockClose h => after (onclose options) (set_state h WebSocket.CLOSED s)
       | SockError h e => after (onerror e) s
       | SockMessage h d => after (onmessage host options d) s
       | TimerFire t => after (connect host url options) (fire t s)
       end.
Proof.
  destruct ev as [| | m | h | h | h e | h d | t]; cbn; try congruence.
  - destruct (sockets s !! h) as [w|] eqn:E; [|discriminate].
    destruct (WebSocket.state w); try discriminate.
    destruct (WebSocket.listening w); [|discriminate]. intros [= <-].
    unfold after, bind. rewrite set_readyState_eq. reflexivity.
  - destruct (sockets s !! h) as [w|] eqn:E; [|discriminate].
    destruct (_ || _); [discriminate|]. intros [= <-].
    unfold after, bind. rewrite set_readyState_eq. reflexivity.
  - destruct (sockets s !! h) as [w|] eqn:E; [|discriminate].
    destruct (_ || _); [discriminate|]. congruence.
  - destruct (sockets s !! h) as [w|] eqn:E; [|discriminate].
    destruct (WebSocket.state w); try discriminate;
      destruct (WebSocket.listening w); congruence.
  - unfold fire. destruct (timers s !! t) as [tm|] eqn:E; [|discriminate].
    destruct (is_pending tm); [|discriminate]. intros [= <-]. reflexivity.
Qed.
End Equations.

(** ** The scenarios of [test/useWebSocket.test.js], replayed *)

(** 'should auto-connect by default' *)
Example test_auto_connect :
  status (useWebSocket MockWebSocket localhost default_options) = CONNECTING
  /\ status opened = CONNECTED /\ isConnected opened = true.
Proof. vm_compute. repeat split. Qed.

(** 'should not connect when autoConnect is false' *)
Example test_manual :
  status (useWebSocket MockWebSocket localhost manual) = DISCONNECTED
  /\ isConnected (useWebSocket MockWebSocket localhost manual) = false
  /\ sockets (useWebSocket MockWebSocket localhost manual) = [].
Proof. vm_compute. repeat split. Qed.

(** 'should disconnect' *)
Example test_disconnect :
  isConnected (after (disconnect MockWebSocket default_options) opened) = false
  /\ status (after (disconnect MockWebSocket default_options) opened) = DISCONNECTED.
Proof. vm_compute. repeat split. Qed.

(** 'should send data when connected' and 'should return false when not
    connected' *)
Example test_send :
  fst (send MockWebSocket default_options (JStr "test message") opened) = Normal true
  /\ fst (send MockWebSocket manual (JStr "test message")
            (useWebSocket MockWebSocket localhost manual)) = Normal false.
Proof. vm_compute. repeat split. Qed.

(** 'should stringify objects when json option is true': the transport is
    handed the compact text of the object, keys and strings quoted. *)
Example test_stringify :
  sent (after (send MockWebSocket with_json test_message) opened_json)
  = [(0, JStr ("{" ++ quoted "type" ++ ":" ++ quoted "test" ++ ","
               ++ quoted "data" ++ ":123}"))].
Proof. vm_compute. reflexivity. Qed.

(** 'should update data on message' and 'should handle invalid JSON
    gracefully' *)
Example test_message_data :
  data (after (onmessage MockWebSocket default_options "test message") opened)
  = JStr "test message"
  /\ data (after (onmessage MockWebSocket with_json "not json") opened_json)
     = JStr "not json".
Proof. vm_compute. repeat split. Qed.

(** 'should parse JSON when json option is true': the text the test sends
    is what [JSON.stringify] prints for [{ type: 'test', value: 42 }]. *)
Example test_parse_json :
  data (after (onmessage MockWebSocket with_json
                 (JSON.stringify (JObj [("type"%string, JStr "test");
                                        ("value"%string, JNum 42)])))
          opened_json)
  = JObj [("type"%string, JStr "test"); ("value"%string, JNum 42)].
Proof. vm_compute. reflexivity. Qed.

(** 'should set error on WebSocket error' *)
Example test_error :
  error errored = Some "Connection failed"%string /\ status errored = ERROR.
Proof. vm_compute. repeat split. Qed.

(** ** An open connection stays up until a close or a disconnect *)

Section StaysUp.
Variable host : Host.
Variable url : string.
Variable options : Options.




End StaysUp.



(** C6.  When the constructor throws during [connect()], [connect]
    returns normally with [status] ERROR (written after CONNECTING) and the
    exception in [error]; no timer is scheduled, the reconnect counter and
    the tracked timer id are untouched, and no handle is created or held
    anew. *)
Theorem construction_failure_not_retried host url options e s :
  held_is_open s = false ->
  WebSocket_rejects host url (requested_protocol options) = Some e ->
  exists s',
    connect host url options s = (Normal tt, s')
    /\ status s' = ERROR /\ error s' = Some e
    /\ status_trace s' = ERROR :: CONNECTING :: status_trace s
    /\ timers s' = timers s /\ reconnectTimeoutId s' = reconnectTimeoutId s
    /\ reconnectCount s' = reconnectCount s
    /\ sockets s' = sockets s /\ ws s' = ws s
    /\ (forall t, pending s' t -> pending s t).
Proof.
  intros Ho Hr. eexists. rewrite connect_eq, Ho. cbv zeta. rewrite Hr.
  split; [reflexivity|]. repeat split. intros t Ht. exact Ht.
Qed.

Lemma construction_failure_not_retried_witness :
  let s' := after (connect browser malformed reconnecting) initial in
  status s' = ERROR /\ error s' = Some "SyntaxError"%string
  /\ timers s' = [] /\ sockets s' = [].
Proof.
  intros s'.
  assert (Ho : held_is_open initial = false) by (vm_compute; reflexivity).
  assert (Hr : WebSocket_rejects browser malformed (requested_protocol reconnecting)
               = Some "SyntaxError"%string) by (vm_compute; reflexivity).
  destruct (construction_failure_not_retried browser malformed reconnecting
              "SyntaxError"%string initial Ho Hr)
    as (s1 & E & Hs & He & _ & Ht & _ & _ & Hk & _).
  assert (s1 = s') as <-.
  { unfold s', after. rewrite E. reflexivity. }
  repeat split; assumption.
Defined.

(** C8.  Under the [json] option, when [JSON.parse] throws on the text of
    a message, the message handler returns normally and [data] is the raw
    text; nothing else changes. *)
Theorem malformed_json_falls_back host options d e s :
  json options = true ->
  JSON_parse host d = Throw e ->
  onmessage host options d s = (Normal tt, with_data (JStr d) s)
  /\ forall url h s',
       step host url options (SockMessage h d) s = Some s' ->
       s' = with_data (JStr d) s.
Proof.
  intros Hj Hp. split.
  - rewrite onmessage_eq, Hj, Hp. reflexivity.
  - intros url h s' Hs. apply step_after in Hs as ->.
    rewrite after_onmessage, Hj, Hp. reflexivity.
Qed.

Lemma malformed_json_falls_back_witness :
  onmessage MockWebSocket with_json "not json" opened_json
  = (Normal tt, with_data (JStr "not json") opened_json).
Proof.
  assert (Hp : JSON_parse MockWebSocket "not json" = Throw "SyntaxError"%string)
    by (vm_compute; reflexivity).
  apply (malformed_json_falls_back MockWebSocket with_json "not json"
           "SyntaxError"%string opened_json eq_refl Hp).
Defined.

(** Whenever [status] is DISCONNECTED no handle is held. *)
Lemma status_disconnected_no_handle host url options ev s s' :
  (status s = DISCONNECTED -> ws s = None) ->
  step host url options ev s = Some s' ->
  status s' = DISCONNECTED -> ws s' = None.
Proof.
  intros Hi Hs. apply step_after in Hs as ->.
  destruct ev as [| | m | h | h | h e | h d | t].
  - rewrite after_connect. destruct (held_is_open s); [exact Hi|]. cbv zeta.
    destruct (WebSocket_rejects _ _ _); cbn; discriminate.
  - rewrite after_disconnect. cbv zeta. intros _.
    destruct (ws s) as [h|] eqn:Ew; [reflexivity|].
    destruct (reconnectTimeoutId s); split_ops; cbn; exact Ew.
  - assert (E : status (after (send host options m) s) = status s
                /\ ws (after (send host options m) s) = ws s).
    { rewrite after_send.
      destruct (held_is_open s); [destruct (ws s) eqn:Ew|]; cbn; rewrite ?Ew; split; reflexivity. }
    destruct E as [-> ->]. exact Hi.
  - cbn. discriminate.
  - rewrite after_onclose. cbv zeta. destruct (should_reconnect _ _); reflexivity.
  - cbn. discriminate.
  - rewrite after_onmessage.
    destruct (json options); [destruct (JSON_parse host d)|]; exact Hi.
  - rewrite after_connect.
    assert (E : held_is_open (fire t s) = held_is_open s) by (split_ops; reflexivity).
    rewrite E. destruct (held_is_open s).
    + split_ops; exact Hi.
    + cbv zeta. destruct (WebSocket_rejects _ _ _); cbn; discriminate.
Qed.

Lemma reachable_disconnected_no_handle host url options s :
  reachable host url options s -> status s = DISCONNECTED -> ws s = None.
Proof.
  intros [evs Hr]. revert Hr.
  assert (H0 : status (useWebSocket host url options) = DISCONNECTED ->
               ws (useWebSocket host url options) = None).
  { unfold useWebSocket. destruct (autoConnect options); [|reflexivity].
    rewrite after_connect. cbn. destruct (WebSocket_rejects _ _ _); cbn; discriminate. }
  revert H0. generalize (useWebSocket host url options) as s0.
  induction evs as [|ev evs IH]; intros s0 H0 Hr; cbn in Hr.
  - injection Hr as <-. exact H0.
  - destruct (step host url options ev s0) as [s1|] eqn:E; [|discriminate].
    eapply IH; [|exact Hr]. eapply status_disconnected_no_handle; eauto.
Qed.

Lemma held_is_open_same x s :
  ws x = ws s -> sockets x = sockets s -> held_is_open x = held_is_open s.
Proof. unfold held_is_open, held_readyState. intros -> ->. reflexivity. Qed.

Lemma status_connecting_not_open host url options ev s s' :
  (status s = CONNECTING -> held_is_open s = false) ->
  step host url options ev s = Some s' ->
  status s' = CONNECTING -> held_is_open s' = false.
Proof.
  intros Hi Hs. apply step_after in Hs as ->.
  assert (Hc : forall x, status x = status s -> held_is_open x = held_is_open s ->
              let y := after (connect host url options) x in
              status y = CONNECTING -> held_is_open y = false).
  { intros x E1 E2. cbv zeta. rewrite after_connect.
    destruct (held_is_open x) eqn:Ex;
      [rewrite E1; intros Hst; pose proof (Hi Hst); congruence|].
    cbv zeta. destruct (WebSocket_rejects _ _ _); [cbn; discriminate|].
    intros _. unfold held_is_open, held_readyState. cbn.
    rewrite lookup_app_r by lia. rewrite Nat.sub_diag. reflexivity. }
  destruct ev as [| | m | h | h | h e | h d | t].
  - apply Hc; reflexivity.
  - rewrite after_disconnect. cbn. discriminate.
  - assert (E1 : status (after (send host options m) s) = status s).
    { rewrite after_send.
      destruct (held_is_open s); [destruct (ws s)|]; reflexivity. }
    assert (E2 : held_is_open (after (send host options m) s) = held_is_open s).
    { apply held_is_open_same; rewrite after_send;
        (destruct (held_is_open s); [destruct (ws s) eqn:Ew|]);
        cbn; rewrite ?Ew; reflexivity. }
    rewrite E1, E2. exact Hi.
  - cbn. discriminate.
  - rewrite after_onclose. cbv zeta. destruct (should_reconnect _ _); cbn; discriminate.
  - cbn. discriminate.
  - rewrite after_onmessage.
    destruct (json options); [destruct (JSON_parse host d)|]; exact Hi.
  - apply Hc; split_ops; reflexivity.
Qed.

Lemma reachable_connecting_not_open host url options s :
  reachable host url options s -> status s = CONNECTING -> held_is_open s = false.
Proof.
  intros [evs Hr]. revert Hr.
  assert (H0 : status (useWebSocket host url options) = CONNECTING ->
               held_is_open (useWebSocket host url options) = false).
  { unfold useWebSocket. destruct (autoConnect options); [|discriminate].
    rewrite after_connect. cbn. destruct (WebSocket_rejects _ _ _); cbn; [discriminate|].
    intros _. reflexivity. }
  revert H0. generalize (useWebSocket host url options) as s0.
  induction evs as [|ev evs IH]; intros s0 H0 Hr; cbn in Hr.
  - injection Hr as <-. exact H0.
  - destruct (step host url options ev s0) as [s1|] eqn:E; [|discriminate].
    eapply IH; [|exact Hr]. eapply status_connecting_not_open; eauto.
Qed.

(** C4, amended.  [send] is gated by the held handle, not by [status]:
    when no handle is held or the held handle is not OPEN, it returns false
    without throwing, logs a warning, and the transport's send is not
    called; when the held handle is OPEN it hands the payload to the
    transport and returns true.  Whenever [status] is DISCONNECTED no
    handle is held, and whenever [status] is CONNECTING the held handle is
    not yet OPEN, so in both [send] returns false. *)
Theorem send_gated_by_held_handle host url options m s :
  (held_is_open s = false ->
     send host options m s = (Normal false, with_console (console s ++ [cannot_send]) s)
     /\ sent (after (send host options m) s) = sent s)
  /\ (held_is_open s = true ->
        exists h, ws s = Some h
          /\ send host options m s
             = (Normal true, with_sent (sent s ++ [(h, payload_of host options m)]) s))
  /\ (reachable host url options s ->
      status s = DISCONNECTED \/ status s = CONNECTING ->
        held_is_open s = false
        /\ send host options m s
           = (Normal false, with_console (console s ++ [cannot_send]) s)
        /\ sent (after (send host options m) s) = sent s).
Proof.
  assert (Hf : held_is_open s = false ->
     send host options m s = (Normal false, with_console (console s ++ [cannot_send]) s)
     /\ sent (after (send host options m) s) = sent s).
  { intros Ho. rewrite after_send, send_eq, Ho. split; reflexivity. }
  split; [exact Hf|split].
  - intros Ho. rewrite send_eq, Ho.
    unfold held_is_open, held_readyState in Ho.
    destruct (ws s) as [h|]; [|discriminate]. eauto.
  - intros Hr Hst.
    assert (Ho : held_is_open s = false).
    { destruct Hst as [Hd | Hc].
      - unfold held_is_open, held_readyState.
        rewrite (reachable_disconnected_no_handle _ _ _ _ Hr Hd). reflexivity.
      - exact (reachable_connecting_not_open _ _ _ _ Hr Hc). }
    split; [exact Ho | exact (Hf Ho)].
Qed.

Lemma errored_reachable : reachable MockWebSocket localhost default_options errored.
Proof.
  exists [SockOpen 0; SockError 0 "Connection failed"%string].
  vm_compute. reflexivity.
Qed.

Lemma send_gated_by_held_handle_witness :
  status errored = ERROR
  /\ send MockWebSocket default_options (JStr "hi") errored
     = (Normal true, with_sent [(0, JStr "hi")] errored).
Proof.
  split; [reflexivity|].
  destruct (send_gated_by_held_handle MockWebSocket localhost default_options
              (JStr "hi") errored) as (_ & H & _).
  destruct H as (h & Hw & E); [vm_compute; reflexivity|].
  rewrite E. vm_compute in Hw. injection Hw as <-. vm_compute. reflexivity.
Defined.

(** C4 as stated fails: status is ERROR, the held handle is open, and send
    transmits. *)
Lemma send_succeeds_while_status_is_ERROR :
  ~ (forall host url options m s,
       reachable host url options s -> status s <> CONNECTED ->
       fst (send host options m s) = Normal false
       /\ sent (after (send host options m) s) = sent s).
Proof.
  intros H.
  destruct (H MockWebSocket localhost default_options (JStr "hi") errored
              errored_reachable) as [E _]; [discriminate|].
  vm_compute in E. discriminate E.
Qed.

(** The other half fails as well in a browser: status is CONNECTED, no
    handle is held, and send refuses. *)
Lemma send_refuses_while_status_is_CONNECTED :
  exists s,
    run browser localhost default_options
      [CallDisconnect; CallConnect; SockClose 0; SockOpen 1]
      (useWebSocket browser localhost default_options) = Some s
    /\ status s = CONNECTED /\ ws s = None
    /\ fst (send browser default_options (JStr "hi") s) = Normal false.
Proof. eexists. split; [vm_compute; reflexivity|]. vm_compute. repeat split. Qed.

(** ** The status field *)

Section StatusTrace.
Variable host : Host.
Variable url : string.
Variable options : Options.

Lemma held_is_open_fire t s : held_is_open (fire t s) = held_is_open s.
Proof. split_ops; reflexivity. Qed.

Lemma status_trace_step ev s s' :
  step host url options ev s = Some s' ->
  status_trace s' = rev (status_writes host url options ev s) ++ status_trace s
  /\ status s' = hd (status s) (rev (status_writes host url options ev s)).
Proof.
  intros Hs. apply step_after in Hs as ->.
  destruct ev as [| | m | h | h | h e | h d | t]; cbn [status_writes].
  - rewrite after_connect. destruct (held_is_open s); [done|]. cbv zeta.
    destruct (WebSocket_rejects _ _ _); done.
  - rewrite after_disconnect. cbv zeta. unfold held_listening.
    destruct (ws s) as [h|] eqn:Ew.
    + rewrite after_close.
      assert (Hk : forall x : State,
                sockets (match reconnectTimeoutId s with
                         | Some t => with_reconnectTimeoutId None (clear t x)
                         | None => x end) = sockets x).
      { intros x. destruct (reconnectTimeoutId s); split_ops; reflexivity. }
      assert (Ht : forall x : State,
                status_trace (match reconnectTimeoutId s with
                         | Some t => with_reconnectTimeoutId None (clear t x)
                         | None => x end) = status_trace x
                /\ status (match reconnectTimeoutId s with
                         | Some t => with_reconnectTimeoutId None (clear t x)
                         | None => x end) = status x).
      { intros x. destruct (reconnectTimeoutId s); split_ops; split; reflexivity. }
      rewrite Hk. cbn [sockets with_explicitClose].
      destruct (sockets s !! h) as [w|] eqn:El.
      * destruct (close_is_synchronous host); cbn [andb].
        -- destruct (WebSocket.listening w).
           ++ rewrite after_onclose. cbv zeta.
              match goal with |- context [should_reconnect options ?x] =>
                destruct (should_reconnect options x) end;
                cbn; unfold set_state; rewrite Hk; cbn; rewrite El; cbn;
                rewrite (proj1 (Ht _)); done.
           ++ cbn. unfold set_state. rewrite Hk. cbn. rewrite El. cbn.
              rewrite (proj1 (Ht _)). done.
        -- destruct (WebSocket.state w); cbn; unfold set_state; rewrite ?Hk; cbn;
             rewrite ?El; cbn; rewrite (proj1 (Ht _)); done.
      * rewrite andb_false_r. cbn. rewrite (proj1 (Ht _)). done.
    + rewrite andb_false_r. cbn.
      destruct (reconnectTimeoutId s); split_ops; done.
  - rewrite after_send. destruct (held_is_open s); [destruct (ws s)|]; done.
  - split_ops; done.
  - rewrite after_onclose. cbv zeta.
    match goal with |- context [should_reconnect options ?x] =>
      destruct (should_reconnect options x) end; split_ops; done.
  - done.
  - rewrite after_onmessage.
    destruct (json options); [destruct (JSON_parse host d)|]; done.
  - rewrite after_connect, held_is_open_fire.
    destruct (held_is_open s); [split_ops; done|]. cbv zeta.
    destruct (WebSocket_rejects _ _ _); split_ops; done.
Qed.
End StatusTrace.

(** C1, amended.  Every assignment to [status] is determined by the
    operation: [connect()], from the consumer or from the reconnect timer,
    writes CONNECTING unless the held handle is OPEN, and ERROR right after
    it when construction throws; an open event writes CONNECTED; an error
    event writes ERROR, whatever the status was; a close event and
    [disconnect()] write DISCONNECTED, whatever the status was; [send] and a
    message write nothing.  Hence CONNECTED is entered only by an open
    event, CONNECTING only by [connect()], ERROR only by an error event or a
    failed construction, DISCONNECTED only by a close event or
    [disconnect()], and a [connect()] from DISCONNECTED writes CONNECTING
    first and ends in CONNECTING or ERROR. *)
Theorem status_written_by_operation host url options ev s s' :
  step host url options ev s = Some s' ->
  (status_trace s' = rev (status_writes host url options ev s) ++ status_trace s
   /\ status s' = hd (status s) (rev (status_writes host url options ev s)))
  /\ (status s' = CONNECTED -> status s <> CONNECTED -> exists h, ev = SockOpen h)
  /\ (status s' = CONNECTING -> status s <> CONNECTING ->
        ev = CallConnect \/ exists t, ev = TimerFire t)
  /\ (status s' = ERROR -> status s <> ERROR ->
        (exists h e, ev = SockError h e)
        \/ ((ev = CallConnect \/ exists t, ev = TimerFire t)
            /\ exists rest, status_trace s' = ERROR :: CONNECTING :: rest))
  /\ (status s' = DISCONNECTED -> status s <> DISCONNECTED ->
        ev = CallDisconnect \/ exists h, ev = SockClose h)
  /\ (reachable host url options s -> status s = DISCONNECTED -> ev = CallConnect ->
        (status_writes host url options ev s = [CONNECTING] /\ status s' = CONNECTING)
        \/ (status_writes host url options ev s = [CONNECTING; ERROR] /\ status s' = ERROR)).
Proof.
  intros Hs. pose proof (status_trace_step _ _ _ _ _ _ Hs) as [Ht Hh].
  split; [split; assumption|].
  repeat split.
  - intros E N. rewrite Hh in E.
    destruct ev; cbn in E; eauto;
      repeat match type of E with
             | context [if ?b then _ else _] => destruct b; cbn in E
             | context [match ?o with Some _ => _ | None => _ end] => destruct o; cbn in E
             end; congruence.
  - intros E N. rewrite Hh in E.
    destruct ev; cbn in E; eauto;
      repeat match type of E with
             | context [if ?b then _ else _] => destruct b; cbn in E
             | context [match ?o with Some _ => _ | None => _ end] => destruct o; cbn in E
             end; congruence.
  - intros E N. rewrite Hh in E. rewrite Ht.
    destruct ev; cbn in E |- *; eauto;
      repeat match type of E with
             | context [if ?b then _ else _] => destruct b; cbn in E |- *
             | context [match ?o with Some _ => _ | None => _ end] => destruct o; cbn in E |- *
             end; try congruence; right; eauto.
  - intros E N. rewrite Hh in E.
    destruct ev; cbn in E; eauto;
      repeat match type of E with
             | context [if ?b then _ else _] => destruct b; cbn in E
             | context [match ?o with Some _ => _ | None => _ end] => destruct o; cbn in E
             end; congruence.
  - intros Hr Hd ->. rewrite Hh. cbn.
    assert (Ho : held_is_open s = false).
    { unfold held_is_open, held_readyState.
      rewrite (reachable_disconnected_no_handle _ _ _ _ Hr Hd). reflexivity. }
    rewrite Ho. destruct (WebSocket_rejects _ _ _); cbn; auto.
Qed.

Lemma status_written_by_operation_witness :
  status_trace errored = [ERROR; CONNECTED; CONNECTING; DISCONNECTED].
Proof.
  assert (H : step MockWebSocket localhost default_options
                (SockError 0 "Connection failed"%string) opened = Some errored)
    by (vm_compute; reflexivity).
  destruct (status_written_by_operation _ _ _ _ _ _ H) as [[Ht _] _].
  rewrite Ht. vm_compute. reflexivity.
Defined.

(** C1 as stated fails: an error event on an open connection takes status
    from CONNECTED to ERROR, a transition the specification does not list.
    The statement refuted is the claim on the values [status] is assigned
    one after the other. *)
Lemma status_leaves_CONNECTED_for_ERROR :
  ~ (forall host url options s i a b,
       reachable host url options s ->
       status_trace s !! S i = Some a ->
       status_trace s !! i = Some b ->
       a = b \/ specified_transition a b = true).
Proof.
  intros H.
  destruct (H MockWebSocket localhost default_options errored 0 CONNECTED ERROR
              errored_reachable eq_refl eq_refl) as [E | E]; discriminate E.
Qed.

(** ** Bounded reconnection *)

Section Reconnection.
Variable host : Host.
Variable url : string.
Variable options : Options.

Lemma further_close c n m :
  further c (S n) m = if below c m then S (further (S c) n m) else 0.
Proof.
  unfold further, below, min_limit. destruct m as [m|].
  - destruct (Nat.ltb_spec c m); lia.
  - lia.
Qed.

Lemma further_stuck c n m : below c m = false -> further c n m = 0.
Proof.
  unfold further, below, min_limit. destruct m as [m|]; [|discriminate].
  intros H%Nat.ltb_ge. lia.
Qed.

Lemma uninterrupted_step ev s s' :
  autoReconnect options = true ->
  explicitClose s = false ->
  (match ev with SockOpen _ | CallDisconnect => false | _ => true end) = true ->
  step host url options ev s = Some s' ->
  explicitClose s' = false
  /\ if is_close ev && below (reconnectCount s) (reconnectAttempts options)
     then timers s' = timers s ++ [reconnect_timer options]
          /\ reconnectCount s' = S (reconnectCount s)
     else map delay (timers s') = map delay (timers s)
          /\ length (timers s') = length (timers s)
          /\ reconnectCount s' = reconnectCount s.
Proof.
  intros Ha He Hev Hs. apply step_after in Hs as ->.
  destruct ev as [| | m | h | h | h e | h d | t]; try discriminate; cbn [is_close andb].
  - rewrite after_connect. destruct (held_is_open s); [done|]. cbv zeta.
    destruct (WebSocket_rejects _ _ _); done.
  - rewrite after_send. destruct (held_is_open s); [destruct (ws s)|]; done.
  - rewrite after_onclose. cbv zeta.
    assert (E : should_reconnect options (set_state h WebSocket.CLOSED s)
                = below (reconnectCount s) (reconnectAttempts options)).
    { unfold should_reconnect. split_ops; cbn; rewrite He, Ha; reflexivity. }
    rewrite E. destruct (below _ _); split_ops; done.
  - done.
  - rewrite after_onmessage.
    destruct (json options); [destruct (JSON_parse host d)|]; done.
  - rewrite after_connect, held_is_open_fire.
    assert (Ed : map delay (timers (fire t s)) = map delay (timers s)).
    { unfold fire. destruct (timers s !! t) as [tm|] eqn:E; [|reflexivity]. cbn.
      rewrite list_fmap_insert. cbn. apply list_insert_id.
      rewrite list_lookup_fmap, E. reflexivity. }
    assert (El : length (timers (fire t s)) = length (timers s)).
    { unfold fire. destruct (timers s !! t) as [tm|] eqn:E; [|reflexivity]. cbn.
      apply length_insert. }
    destruct (held_is_open s); [split_ops; done|]. cbv zeta.
    destruct (WebSocket_rejects _ _ _); cbn; (split; [split_ops; done|]);
      (split; [exact Ed|]); (split; [exact El|]); split_ops; done.
Qed.

Lemma reconnects_scheduled evs : forall s s',
  autoReconnect options = true ->
  explicitClose s = false ->
  uninterrupted evs = true ->
  run host url options evs s = Some s' ->
  let k := further (reconnectCount s) (closes evs) (reconnectAttempts options) in
  map delay (timers s') = map delay (timers s) ++ replicate k (reconnectDelay options)
  /\ length (timers s') = length (timers s) + k
  /\ reconnectCount s' = reconnectCount s + k
  /\ explicitClose s' = false.
Proof.
  induction evs as [|ev evs IH]; intros s s' Ha He Hu Hr; cbn in Hr.
  - injection Hr as <-. cbn. unfold further, closes. cbn.
    replace (min_limit (reconnectCount s + 0) (reconnectAttempts options)
             - reconnectCount s) with 0
      by (unfold min_limit; destruct (reconnectAttempts options); lia).
    cbn. rewrite app_nil_r. repeat split; [lia | lia | exact He].
  - cbn in Hu. apply andb_true_iff in Hu as [Hev Hu].
    destruct (step host url options ev s) as [s1|] eqn:E; [|discriminate].
    destruct (uninterrupted_step ev s s1 Ha He Hev E) as [He1 H1].
    specialize (IH s1 s' Ha He1 Hu Hr). cbv zeta in IH.
    destruct IH as (I1 & I2 & I3 & I4).
    unfold closes in *. cbn [List.filter].
    destruct (is_close ev) eqn:Ec; cbn [andb length] in *.
    + rewrite further_close.
      destruct (below (reconnectCount s) (reconnectAttempts options)) eqn:Eb.
      * destruct H1 as [Ht Hc]. rewrite Hc in *. rewrite Ht in *.
        rewrite map_app, length_app in *. cbn in *.
        rewrite I1, I2, I3, <- app_assoc. cbn. repeat split; [lia | lia | exact I4].
      * destruct H1 as (Ht & Hl & Hc). rewrite Hc, Ht, Hl in *.
        rewrite further_stuck in * by exact Eb.
        rewrite I1, I2, I3. repeat split. exact I4.
    + destruct H1 as (Ht & Hl & Hc). rewrite Hc, Ht, Hl in *.
      rewrite I1, I2, I3. repeat split. exact I4.
Qed.
End Reconnection.

Module ObserverFacts.
Import Observer.

Lemma further_last c n m :
  further c (S n) m
  = further c n m + (if below (c + further c n m) m then 1 else 0).
Proof.
  unfold further, below, min_limit. destruct m as [m|].
  - destruct (Nat.ltb_spec (c + (Nat.min (c + n) m - c)) m); lia.
  - lia.
Qed.

Lemma round_effect c o :
  reconnection c = true ->
  let o' := onclose c (connect o) in
  if below (reconnectionCount o) (reconnectionAttempts c)
  then scheduled o' = scheduled o ++ [reconnectionDelay c]
       /\ reconnectionCount o' = S (reconnectionCount o)
       /\ reconnect_errors o' = reconnect_errors o
  else scheduled o' = scheduled o
       /\ reconnectionCount o' = reconnectionCount o
       /\ reconnect_errors o' = S (reconnect_errors o).
Proof.
  intros Hr. unfold onclose, connect. cbn. rewrite Hr. cbn.
  destruct (below _ _); cbn; unfold reconnect_errors; cbn;
    rewrite !List.filter_app, !length_app; cbn; repeat split; lia.
Qed.

Lemma closes_effect c n o :
  reconnection c = true ->
  let k := further (reconnectionCount o) n (reconnectionAttempts c) in
  scheduled (closes c n o) = scheduled o ++ replicate k (reconnectionDelay c)
  /\ reconnectionCount (closes c n o) = reconnectionCount o + k
  /\ reconnect_errors (closes c n o) = reconnect_errors o + (n - k).
Proof.
  intros Hr. induction n as [|n IH]; cbv zeta in *.
  - unfold further. cbn.
    replace (min_limit (reconnectionCount o + 0) (reconnectionAttempts c)
             - reconnectionCount o) with 0
      by (unfold min_limit; destruct (reconnectionAttempts c); lia).
    cbn. rewrite app_nil_r. repeat split; lia.
  - destruct IH as (I1 & I2 & I3).
    unfold closes in *. rewrite Nat.iter_succ.
    set (o1 := Nat.iter n (fun x => onclose c (connect x)) o) in *.
    pose proof (round_effect c o1 Hr) as R. cbv zeta in R.
    rewrite further_last. rewrite I2 in R.
    assert (Hk : further (reconnectionCount o) n (reconnectionAttempts c) <= n).
    { unfold further, min_limit. destruct (reconnectionAttempts c); lia. }
    destruct (below _ _).
    + destruct R as (R1 & R2 & R3). rewrite R1, R2, R3, I1, I3.
      rewrite replicate_add, app_assoc. cbn. repeat split; lia.
    + destruct R as (R1 & R2 & R3). rewrite R1, R2, R3, I1, I3.
      rewrite Nat.add_0_r. repeat split; lia.
Qed.
End ObserverFacts.

(** C2.  With reconnection enabled, starting with the attempt counter at
    zero and the close not explicit, after any events that contain [N]
    transport closes, no successful open and no [disconnect()], exactly
    [min(N, M)] reconnects have been scheduled, each a [connect()] after
    the configured fixed delay, and the counter stands at [min(N, M)]; once
    the counter has reached [M] a further close schedules nothing.  On the
    plugin path, as the specification describes it, [N] such closes schedule
    [min(N, M)] reconnects and route [SOCKET_RECONNECT_ERROR] for each of the
    others. *)
Theorem reconnect_attempts_bounded host url options evs s s' :
  autoReconnect options = true ->
  explicitClose s = false ->
  reconnectCount s = 0 ->
  uninterrupted evs = true ->
  run host url options evs s = Some s' ->
  let k := min_limit (closes evs) (reconnectAttempts options) in
  (map delay (timers s') = map delay (timers s) ++ replicate k (reconnectDelay options)
   /\ length (timers s') = length (timers s) + k
   /\ reconnectCount s' = k)
  /\ (forall h s'',
        below (reconnectCount s') (reconnectAttempts options) = false ->
        step host url options (SockClose h) s' = Some s'' ->
        timers s'' = timers s' /\ reconnectCount s'' = reconnectCount s'
        /\ reconnectTimeoutId s'' = reconnectTimeoutId s')
  /\ (forall c n o,
        Observer.reconnection c = true ->
        Observer.reconnectionCount o = 0 ->
        let o' := Observer.closes c n o in
        let j := min_limit n (Observer.reconnectionAttempts c) in
        Observer.scheduled o'
        = Observer.scheduled o ++ replicate j (Observer.reconnectionDelay c)
        /\ Observer.reconnectionCount o' = j
        /\ Observer.reconnect_errors o' = Observer.reconnect_errors o + (n - j)).
Proof.
  intros Ha He Hc Hu Hr. cbv zeta.
  pose proof (reconnects_scheduled host url options evs s s' Ha He Hu Hr) as H.
  cbv zeta in H. rewrite Hc in H. unfold further in H. cbn in H.
  rewrite Nat.sub_0_r in H. destruct H as (H1 & H2 & H3 & H4).
  split; [repeat split; assumption|]. split.
  - intros h s'' Hb Hs. apply step_after in Hs as ->.
    rewrite after_onclose. cbv zeta.
    assert (E : should_reconnect options (set_state h WebSocket.CLOSED s') = false).
    { unfold should_reconnect. split_ops; cbn; rewrite Hb; apply andb_false_r. }
    rewrite E. split_ops; done.
  - intros c n o Hrc Hc0. cbv zeta.
    pose proof (ObserverFacts.closes_effect c n o Hrc) as H. cbv zeta in H.
    rewrite Hc0 in H. unfold further in H. cbn in H. rewrite Nat.sub_0_r in H.
    exact H.
Qed.

Lemma reconnect_attempts_bounded_witness :
  map delay (timers after_three_closes) = [1000; 1000]
  /\ reconnectCount after_three_closes = 2.
Proof.
  assert (Hr : run MockWebSocket localhost reconnecting_twice three_closes
                 (useWebSocket MockWebSocket localhost reconnecting_twice)
               = Some after_three_closes) by (vm_compute; reflexivity).
  assert (Ha : autoReconnect reconnecting_twice = true) by reflexivity.
  assert (He : explicitClose (useWebSocket MockWebSocket localhost reconnecting_twice) = false)
    by (vm_compute; reflexivity).
  assert (Hc : reconnectCount (useWebSocket MockWebSocket localhost reconnecting_twice) = 0)
    by (vm_compute; reflexivity).
  assert (Hu : uninterrupted three_closes = true) by (vm_compute; reflexivity).
  destruct (reconnect_attempts_bounded _ _ _ _ _ _ Ha He Hc Hu Hr) as [(H1 & _ & H3) _].
  split; [rewrite H1 | rewrite H3]; vm_compute; reflexivity.
Defined.

(** C9.  An event whose label does not begin with [SOCKET_] reaches no
    sink method, whatever the sink, the options and the custom handler:
    no commit, no dispatch, no named action, and nothing is logged. *)
Theorem other_labels_are_not_routed k format_json mutations handler label payload :
  String.prefix "SOCKET_" label = false ->
  Observer.passToStore k format_json mutations handler label payload = ([], []).
Proof. intros H. unfold Observer.passToStore. rewrite H. reflexivity. Qed.

Lemma other_labels_are_not_routed_witness :
  Observer.passToStore Observer.vuex true [] (Some Observer.eager_handler)
    "OTHER_EVENT" (JStr "other") = ([], []).
Proof.
  apply (other_labels_are_not_routed Observer.vuex true []
           (Some Observer.eager_handler) "OTHER_EVENT" (JStr "other")).
  vm_compute. reflexivity.
Defined.

(** ** Round trip through send and the message handler *)



(** ** Live handles and scheduled reconnects *)

Section Handles.
Variable host : Host.
Variable url : string.
Variable options : Options.

Lemma live_same s s' h : sockets s' = sockets s -> live s' h -> live s h.
Proof. unfold live. intros ->. auto. Qed.

Lemma pending_same s s' t : timers s' = timers s -> pending s' t -> pending s t.
Proof. unfold pending. intros ->. auto. Qed.

Lemma live_set_state h r s h' :
  live (set_state h r s) h' ->
  (h' <> h /\ live s h')
  \/ (h' = h /\ r <> WebSocket.CLOSED /\ exists w, sockets s !! h = Some w).
Proof.
  unfold live, set_state. destruct (sockets s !! h) as [w|] eqn:E.
  - cbn. intros (w' & Hl & Hc).
    apply list_lookup_insert_Some in Hl as [(-> & <- & _) | (Hn & Hl)].
    + right. split; [reflexivity|]. split; [|eauto].
      intros ->. discriminate Hc.
    + left. split; [congruence|eauto].
  - intros (w' & Hl & Hc). left. split; [congruence|eauto].
Qed.

Lemma live_set_state_closed h s h' :
  live (set_state h WebSocket.CLOSED s) h' -> h' <> h /\ live s h'.
Proof.
  intros [H | (_ & H & _)]%live_set_state; [exact H|congruence].
Qed.

Lemma live_set_state_live h r s h' :
  live s h -> live (set_state h r s) h' -> live s h'.
Proof.
  intros Hh [[_ H] | (-> & _ & _)]%live_set_state; assumption.
Qed.

Lemma pending_fire t s t' : pending (fire t s) t' -> t' <> t /\ pending s t'.
Proof.
  unfold pending, fire. destruct (timers s !! t) as [tm|] eqn:E.
  - cbn. intros (tm' & Hl & Hp).
    apply list_lookup_insert_Some in Hl as [(-> & <- & _) | (Hn & Hl)];
      [discriminate Hp|]. split; [congruence|eauto].
  - intros (tm' & Hl & Hp). split; [congruence|eauto].
Qed.

Lemma pending_clear t s t' : pending (clear t s) t' -> t' <> t /\ pending s t'.
Proof.
  unfold pending, clear. destruct (timers s !! t) as [tm|] eqn:E.
  - destruct (is_pending tm) eqn:Ep.
    + cbn. intros (tm' & Hl & Hp).
      apply list_lookup_insert_Some in Hl as [(-> & <- & _) | (Hn & Hl)];
        [discriminate Hp|]. split; [congruence|eauto].
    + intros (tm' & Hl & Hp). split; [congruence|eauto].
  - intros (tm' & Hl & Hp). split; [congruence|eauto].
Qed.

Lemma held_open_live s : held_is_open s = true -> exists h, live s h.
Proof.
  unfold held_is_open, held_readyState, live.
  destruct (ws s) as [h|]; [|discriminate].
  destruct (sockets s !! h) as [w|] eqn:E; [|discriminate]. cbn.
  destruct (WebSocket.state w) eqn:Es; try discriminate. intros _.
  exists h, w. split; [exact E|]. unfold WebSocket.is_closed. rewrite Es. reflexivity.
Qed.

Lemma no_live_spec s : no_live s = true -> forall h, ~ live s h.
Proof.
  unfold no_live, live. intros H h (w & Hl & Hc).
  rewrite forallb_forall in H. rewrite H in Hc; [discriminate|].
  apply list_elem_of_In. eapply list_elem_of_lookup_2. exact Hl.
Qed.

Lemma no_pending_spec s : no_pending s = true -> forall t, ~ pending s t.
Proof.
  unfold no_pending, pending. intros H t (tm & Hl & Hp).
  rewrite forallb_forall in H. specialize (H tm). rewrite Hp in H.
  discriminate H. apply list_elem_of_In. eapply list_elem_of_lookup_2. exact Hl.
Qed.

(** [connect], called where nothing is live and nothing is scheduled. *)
Lemma tidy_connect s :
  (forall h, ~ live s h) -> (forall t, ~ pending s t) ->
  tidy (after (connect host url options) s).
Proof.
  intros Hl Hp. rewrite after_connect.
  destruct (held_is_open s) eqn:Eo.
  { destruct (held_open_live s Eo) as [h Hh]. destruct (Hl h Hh). }
  cbv zeta. destruct (WebSocket_rejects _ _ _).
  - split.
    + intros h1 h2 H1. destruct (Hl h1). exact H1.
    + intros t Ht. destruct (Hp t). exact Ht.
  - split.
    + assert (Hn : forall h, live (with_sockets (sockets s ++ [fresh_socket url options])
                    (with_ws (Some (length (sockets s)))
                       (with_status CONNECTING (with_explicitClose false s)))) h ->
                  h = length (sockets s)).
      { intros h (w & Hw & Hc). cbn in Hw.
        apply lookup_snoc_Some in Hw as [[Hlt Hw] | [-> _]]; [|reflexivity].
        destruct (Hl h). exists w. eauto. }
      intros h1 h2 H1 H2. rewrite (Hn _ H1), (Hn _ H2). reflexivity.
    + intros t Ht. destruct (Hp t). exact Ht.
Qed.

Lemma tidy_same s s' :
  sockets s' = sockets s -> timers s' = timers s ->
  reconnectTimeoutId s' = reconnectTimeoutId s ->
  tidy s -> tidy s'.
Proof.
  intros Hs Ht Hr [Ha Hb]. split.
  - intros h1 h2 H1 H2. apply Ha; eapply live_same; eauto.
  - intros t Hp. apply (pending_same s) in Hp; [|exact Ht].
    destruct (Hb t Hp) as [Hl Hk]. split; [|congruence].
    intros h Hh. apply (Hl h). eapply live_same; eauto.
Qed.

(** Nothing live, nothing scheduled. *)
Lemma tidy_quiet s :
  (forall h, ~ live s h) -> (forall t, ~ pending s t) -> tidy s.
Proof.
  intros Hl Hp. split.
  - intros h1 h2 H1. destruct (Hl h1 H1).
  - intros t Ht. destruct (Hp t Ht).
Qed.

Lemma step_close_live h s s' :
  step host url options (SockClose h) s = Some s' -> live s h.
Proof.
  cbn. destruct (sockets s !! h) as [w|] eqn:E; [|discriminate].
  destruct (WebSocket.is_closed w) eqn:Ec; [discriminate|]. intros _.
  exists w. eauto.
Qed.

Lemma step_open_live h s s' :
  step host url options (SockOpen h) s = Some s' -> live s h.
Proof.
  cbn. destruct (sockets s !! h) as [w|] eqn:E; [|discriminate].
  destruct (WebSocket.state w) eqn:Es; try discriminate. intros _.
  exists w. split; [exact E|]. unfold WebSocket.is_closed. rewrite Es. reflexivity.
Qed.

Lemma step_fire_pending t s s' :
  step host url options (TimerFire t) s = Some s' -> pending s t.
Proof.
  cbn. destruct (timers s !! t) as [tm|] eqn:E; [|discriminate].
  destruct (is_pending tm) eqn:Ep; [|discriminate]. intros _.
  exists tm. eauto.
Qed.

Lemma cancelled_facts s :
  sockets (cancelled s) = sockets s
  /\ explicitClose (cancelled s) = true
  /\ reconnectTimeoutId (cancelled s) = None
  /\ (forall t, pending (cancelled s) t ->
        pending s t /\ reconnectTimeoutId s <> Some t).
Proof.
  unfold cancelled. destruct (reconnectTimeoutId s) as [t0|] eqn:E.
  - split; [split_ops; reflexivity|]. split; [split_ops; reflexivity|].
    split; [reflexivity|]. intros t Hp.
    assert (Hp' : pending (clear t0 (with_explicitClose true s)) t) by exact Hp.
    apply pending_clear in Hp' as [Hn Hp']. split; [exact Hp'|congruence].
  - split; [reflexivity|]. split; [reflexivity|]. split; [exact E|].
    intros t Hp. split; [exact Hp|discriminate].
Qed.

Lemma close_facts h s :
  explicitClose s = true ->
  let s' := after (WebSocket_close host options h) s in
  timers s' = timers s
  /\ reconnectTimeoutId s' = reconnectTimeoutId s
  /\ (forall h', live s' h' -> live s h').
Proof.
  intros He. cbv zeta. rewrite after_close.
  destruct (sockets s !! h) as [w|] eqn:E;
    [|split; [reflexivity|]; split; [reflexivity|]; auto].
  destruct (close_is_synchronous host).
  - assert (Hx : should_reconnect options (set_state h WebSocket.CLOSED s) = false).
    { unfold should_reconnect. split_ops; cbn; rewrite He; reflexivity. }
    assert (Hc : forall h', live (set_state h WebSocket.CLOSED s) h' -> h' <> h /\ live s h')
      by (intros h'; apply live_set_state_closed).
    destruct (WebSocket.listening w).
    + rewrite after_onclose, Hx. cbv zeta.
      split; [split_ops; reflexivity|]. split; [split_ops; reflexivity|].
      intros h' Hl. apply (Hc h'). eapply live_same; [|exact Hl]. reflexivity.
    + split; [split_ops; reflexivity|]. split; [split_ops; reflexivity|].
      intros h' Hl; apply (Hc h' Hl).
  - assert (Hl : live s h -> forall h', live (set_state h WebSocket.CLOSING s) h' -> live s h')
      by (intros Hh h'; apply live_set_state_live; exact Hh).
    destruct (WebSocket.state w) eqn:Es;
      (split; [split_ops; reflexivity|]); (split; [split_ops; reflexivity|]);
      auto;
      apply Hl; exists w; (split; [exact E|]);
      unfold WebSocket.is_closed; rewrite Es; reflexivity.
Qed.

Lemma tidy_step ev s s' :
  tidy s ->
  disciplined ev s = true ->
  step host url options ev s = Some s' ->
  tidy s'.
Proof.
  intros [Ha Hb] Hd Hs. pose proof (step_after _ _ _ _ _ _ Hs) as ->.
  destruct ev as [| | m | h | h | h e | h d | t].
  - cbn in Hd. apply orb_true_iff in Hd as [Ho | Hq].
    + rewrite after_connect, Ho. split; assumption.
    + apply andb_true_iff in Hq as [Hl Hp].
      apply tidy_connect; [apply no_live_spec, Hl | apply no_pending_spec, Hp].
  - rewrite after_disconnect. cbv zeta. fold (cancelled s).
    destruct (cancelled_facts s) as (Cs & Ce & Ck & Cp).
    assert (Np : forall t, ~ pending (cancelled s) t).
    { intros t Hp. destruct (Cp t Hp) as [Hp' Hn]. destruct (Hb t Hp') as [_ Hk].
      congruence. }
    destruct (ws s) as [h|].
    + destruct (close_facts h (cancelled s) Ce) as (Ft & Fk & Fl).
      split.
      * assert (T : forall x,
                  live (with_status DISCONNECTED (with_isConnected false (with_ws None
                          (after (WebSocket_close host options h) (cancelled s))))) x ->
                  live s x).
        { intros x Hx. eapply live_same; [exact Cs|]. apply Fl.
          eapply live_same; [|exact Hx]. reflexivity. }
        intros h1 h2 H1 H2. apply Ha; apply T; assumption.
      * intros t Hp. destruct (Np t). eapply pending_same; [|exact Hp]. exact Ft.
    + split.
      * intros h1 h2 H1 H2. apply Ha; eapply live_same; [|exact H1| |exact H2]; exact Cs.
      * intros t Hp. destruct (Np t). eapply pending_same; [|exact Hp]. reflexivity.
  - eapply tidy_same; [| | |split; eassumption];
      rewrite after_send; destruct (held_is_open s); [destruct (ws s)| | destruct (ws s)| | destruct (ws s)|]; reflexivity.
  - pose proof (step_open_live _ _ _ Hs) as Hh. split.
    + intros h1 h2 H1 H2.
      apply Ha; eapply live_set_state_live; try exact Hh;
        eapply live_same; [|exact H1| |exact H2]; reflexivity.
    + intros t Hp.
      assert (Hp' : pending s t).
      { eapply pending_same; [|exact Hp]. split_ops; reflexivity. }
      destruct (Hb t Hp') as [Hl _]. destruct (Hl h Hh).
  - pose proof (step_close_live _ _ _ Hs) as Hh.
    assert (Np : forall t, ~ pending s t).
    { intros t Hp. destruct (Hb t Hp) as [Hl _]. destruct (Hl h Hh). }
    assert (Nl : forall h', ~ live (set_state h WebSocket.CLOSED s) h').
    { intros h' [Hn Hl]%live_set_state_closed. apply Hn. apply Ha; assumption. }
    rewrite after_onclose. cbv zeta.
    destruct (should_reconnect options _).
    + split.
      * intros h1 h2 H1. destruct (Nl h1). eapply live_same; [|exact H1]. reflexivity.
      * intros t (tm & Hl & Hp). cbn in Hl.
        assert (Et : timers (set_state h WebSocket.CLOSED s) = timers s)
          by (split_ops; reflexivity).
        rewrite Et in Hl.
        apply lookup_snoc_Some in Hl as [[Hlt Hl] | [-> _]].
        -- destruct (Np t). exists tm. eauto.
        -- split.
           ++ intros h' Hl'. destruct (Nl h'). eapply live_same; [|exact Hl']. reflexivity.
           ++ cbn. rewrite Et. reflexivity.
    + apply tidy_quiet.
      * intros h' Hl'. destruct (Nl h'). eapply live_same; [|exact Hl']. reflexivity.
      * intros t Hp. destruct (Np t). eapply pending_same; [|exact Hp].
        split_ops; reflexivity.
  - eapply tidy_same; [| | |split; eassumption]; reflexivity.
  - eapply tidy_same; [| | |split; eassumption];
      rewrite after_onmessage;
      (destruct (json options); [destruct (JSON_parse host d)|]); reflexivity.
  - pose proof (step_fire_pending _ _ _ Hs) as Hp.
    destruct (Hb t Hp) as [Hl Hk]. apply tidy_connect.
    + intros h Hh. apply (Hl h). eapply live_same; [|exact Hh]. split_ops; reflexivity.
    + intros t' [Hn Hp']%pending_fire. destruct (Hb t' Hp') as [_ Hk']. congruence.
Qed.

Lemma tidy_useWebSocket : tidy (useWebSocket host url options).
Proof.
  assert (Hl : forall h, ~ live initial h).
  { intros h (w & Hw & _). cbn in Hw. rewrite lookup_nil in Hw. discriminate. }
  assert (Hp : forall t, ~ pending initial t).
  { intros t (tm & Ht & _). cbn in Ht. rewrite lookup_nil in Ht. discriminate. }
  unfold useWebSocket. destruct (autoConnect options).
  - apply tidy_connect; assumption.
  - apply tidy_quiet; assumption.
Qed.

Lemma tidy_run evs : forall s s',
  tidy s ->
  run_disciplined host url options evs s = true ->
  run host url options evs s = Some s' ->
  tidy s'.
Proof.
  induction evs as [|ev evs IH]; intros s s' Ht Hd Hr; cbn in Hd, Hr.
  - injection Hr as <-. exact Ht.
  - apply andb_true_iff in Hd as [Hd1 Hd2].
    destruct (step host url options ev s) as [s1|] eqn:E; [|discriminate].
    eapply IH; [eapply tidy_step; eauto | exact Hd2 | exact Hr].
Qed.

Lemma length_sockets_set_state h r s :
  length (sockets (set_state h r s)) = length (sockets s).
Proof. unfold set_state. destruct (sockets s !! h); cbn; [apply length_insert|reflexivity]. Qed.

(** Only [connect] makes a handle. *)
Lemma step_sockets_other ev s s' :
  (match ev with CallConnect | TimerFire _ => false | _ => true end) = true ->
  step host url options ev s = Some s' ->
  length (sockets s') = length (sockets s).
Proof.
  intros He Hs. apply step_after in Hs as ->.
  destruct ev as [| | m | h | h | h e | h d | t]; try discriminate.
  - rewrite after_disconnect. cbv zeta. fold (cancelled s).
    destruct (cancelled_facts s) as (Cs & _).
    destruct (ws s) as [h|]; cbn; [|congruence].
    rewrite after_close.
    destruct (sockets (cancelled s) !! h) as [w|]; [|congruence].
    destruct (close_is_synchronous host).
    + destruct (WebSocket.listening w).
      * rewrite after_onclose. cbv zeta.
        destruct (should_reconnect options _); cbn;
          rewrite length_sockets_set_state; congruence.
      * rewrite length_sockets_set_state; congruence.
    + destruct (WebSocket.state w); rewrite ?length_sockets_set_state; congruence.
  - rewrite after_send. destruct (held_is_open s); [destruct (ws s)|]; reflexivity.
  - cbn. apply length_sockets_set_state.
  - rewrite after_onclose. cbv zeta.
    destruct (should_reconnect options _); cbn; apply length_sockets_set_state.
  - reflexivity.
  - rewrite after_onmessage.
    destruct (json options); [destruct (JSON_parse host d)|]; reflexivity.
Qed.

(** A turn leaves the handles in place, or adds the one [connect] made. *)
Lemma step_sockets ev s s' :
  step host url options ev s = Some s' ->
  length (sockets s') = length (sockets s)
  \/ sockets s' = sockets s ++ [fresh_socket url options].
Proof.
  intros Hs.
  assert (Hc : forall x, sockets x = sockets s ->
              length (sockets (after (connect host url options) x)) = length (sockets s)
              \/ sockets (after (connect host url options) x)
                 = sockets s ++ [fresh_socket url options]).
  { intros x Hx. rewrite after_connect. destruct (held_is_open x); [left; congruence|].
    cbv zeta. destruct (WebSocket_rejects _ _ _); cbn; [left; congruence|right; congruence]. }
  destruct ev as [| | m | h | h | h e | h d | t];
    try (left; eapply step_sockets_other; [|exact Hs]; reflexivity);
    apply step_after in Hs as ->; apply Hc; split_ops; reflexivity.
Qed.

Lemma explicitClose_after_close h s :
  explicitClose (after (WebSocket_close host options h) s) = explicitClose s.
Proof.
  rewrite after_close. destruct (sockets s !! h) as [w|]; [|reflexivity].
  destruct (close_is_synchronous host).
  - destruct (WebSocket.listening w); [|split_ops; reflexivity].
    rewrite after_onclose. cbv zeta.
    destruct (should_reconnect options _); split_ops; reflexivity.
  - destruct (WebSocket.state w); split_ops; reflexivity.
Qed.

Lemma shut_after_disconnect s :
  (forall t, pending s t -> reconnectTimeoutId s = Some t) ->
  shut (after (disconnect host options) s).
Proof.
  intros Hk. rewrite after_disconnect. cbv zeta. fold (cancelled s).
  destruct (cancelled_facts s) as (Cs & Ce & Ck & Cp).
  assert (Np : forall t, ~ pending (cancelled s) t).
  { intros t Hp. destruct (Cp t Hp) as [Hp' Hn]. apply Hn, Hk, Hp'. }
  destruct (ws s) as [h|]; split; cbn.
  - rewrite explicitClose_after_close. exact Ce.
  - intros t Hp. destruct (close_facts h (cancelled s) Ce) as (Ft & _).
    destruct (Np t). eapply pending_same; [|exact Hp]. exact Ft.
  - exact Ce.
  - intros t Hp. destruct (Np t). eapply pending_same; [|exact Hp]. reflexivity.
Qed.

Lemma shut_step ev s s' :
  shut s ->
  (match ev with CallConnect => false | _ => true end) = true ->
  step host url options ev s = Some s' ->
  shut s' /\ length (sockets s') = length (sockets s).
Proof.
  intros [He Hp] Hev Hs.
  destruct ev as [| | m | h | h | h e | h d | t]; try discriminate.
  - split; [|eapply step_sockets_other; [|exact Hs]; reflexivity].
    apply step_after in Hs as ->. apply shut_after_disconnect.
    intros t Ht. destruct (Hp t Ht).
  - split; [|eapply step_sockets_other; [|exact Hs]; reflexivity].
    apply step_after in Hs as ->. rewrite after_send.
    destruct (held_is_open s); [destruct (ws s)|]; split; assumption.
  - split; [|eapply step_sockets_other; [|exact Hs]; reflexivity].
    apply step_after in Hs as ->. split.
    + cbn. split_ops; exact He.
    + intros t Ht. destruct (Hp t). eapply pending_same; [|exact Ht].
      split_ops; reflexivity.
  - split; [|eapply step_sockets_other; [|exact Hs]; reflexivity].
    apply step_after in Hs as ->. rewrite after_onclose. cbv zeta.
    assert (Hx : should_reconnect options (set_state h WebSocket.CLOSED s) = false).
    { unfold should_reconnect. split_ops; cbn; rewrite He; reflexivity. }
    rewrite Hx. split.
    + cbn. split_ops; exact He.
    + intros t Ht. destruct (Hp t). eapply pending_same; [|exact Ht].
      split_ops; reflexivity.
  - split; [|eapply step_sockets_other; [|exact Hs]; reflexivity].
    apply step_after in Hs as ->. split; assumption.
  - split; [|eapply step_sockets_other; [|exact Hs]; reflexivity].
    apply step_after in Hs as ->. rewrite after_onmessage.
    destruct (json options); [destruct (JSON_parse host d)|]; split; assumption.
  - destruct (Hp t). eapply step_fire_pending. exact Hs.
Qed.

Lemma shut_run evs : forall s s',
  shut s -> no_connect_call evs = true ->
  run host url options evs s = Some s' ->
  shut s' /\ length (sockets s') = length (sockets s).
Proof.
  induction evs as [|ev evs IH]; intros s s' Hs Hn Hr; cbn in Hn, Hr.
  - injection Hr as <-. split; [exact Hs|reflexivity].
  - apply andb_true_iff in Hn as [Hev Hn].
    destruct (step host url options ev s) as [s1|] eqn:E; [|discriminate].
    destruct (shut_step ev s s1 Hs Hev E) as [Hs1 Hl1].
    destruct (IH s1 s' Hs1 Hn Hr) as [Hs' Hl']. split; [exact Hs'|congruence].
Qed.

(** [disconnect] on an instance whose waiting timers are all tracked: no
    handle is made afterwards unless [connect] is called. *)
Lemma no_reconnect_after_disconnect s evs s' :
  (forall t, pending s t -> reconnectTimeoutId s = Some t) ->
  no_connect_call evs = true ->
  run host url options evs (after (disconnect host options) s) = Some s' ->
  length (sockets s') = length (sockets s)
  /\ forall t, ~ pending s' t.
Proof.
  intros Hk Hn Hr.
  destruct (shut_run evs _ _ (shut_after_disconnect s Hk) Hn Hr) as [[_ Hp] Hl].
  split; [|exact Hp]. rewrite Hl.
  assert (E : step host url options CallDisconnect s
              = Some (after (disconnect host options) s)) by reflexivity.
  eapply step_sockets_other; [|exact E]. reflexivity.
Qed.

Lemma disconnect_effects s :
  let s' := after (disconnect host options) s in
  fst (disconnect host options s) = Normal tt
  /\ explicitClose s' = true /\ ws s' = None
  /\ status s' = DISCONNECTED /\ isConnected s' = false
  /\ reconnectTimeoutId s' = None
  /\ (forall t, reconnectTimeoutId s = Some t -> ~ pending s' t).
Proof.
  cbv zeta. split; [rewrite disconnect_eq; reflexivity|].
  rewrite after_disconnect. cbv zeta. fold (cancelled s).
  destruct (cancelled_facts s) as (Cs & Ce & Ck & Cp).
  assert (Cw : ws (cancelled s) = ws s).
  { unfold cancelled. destruct (reconnectTimeoutId s); split_ops; reflexivity. }
  destruct (ws s) as [h|] eqn:Ew; cbn.
  - destruct (close_facts h (cancelled s) Ce) as (Ft & Fk & _).
    split; [rewrite explicitClose_after_close; exact Ce|].
    split; [reflexivity|]. split; [reflexivity|]. split; [reflexivity|].
    split; [congruence|].
    intros t Hk Hp. apply (pending_same (cancelled s)) in Hp; [|exact Ft].
    destruct (Cp t Hp) as [_ Hn]. congruence.
  - split; [exact Ce|]. split; [exact Cw|].
    split; [reflexivity|]. split; [reflexivity|]. split; [exact Ck|].
    intros t Hk Hp. apply (pending_same (cancelled s)) in Hp; [|reflexivity].
    destruct (Cp t Hp) as [_ Hn]. congruence.
Qed.

(** The handle [disconnect] found held is closing or closed afterwards. *)
Lemma disconnect_closes_held s h w :
  ws s = Some h ->
  sockets (after (disconnect host options) s) !! h = Some w ->
  WebSocket.state w = WebSocket.CLOSING \/ WebSocket.state w = WebSocket.CLOSED.
Proof.
  intros Hw. rewrite after_disconnect. cbv zeta. fold (cancelled s). rewrite Hw.
  cbn [sockets with_status with_isConnected with_ws].
  rewrite after_close.
  destruct (sockets (cancelled s) !! h) as [w0|] eqn:E; [|congruence].
  assert (Hc : forall r w', sockets (set_state h r (cancelled s)) !! h = Some w' ->
              WebSocket.state w' = r).
  { intros r w'. unfold set_state. rewrite E. cbn.
    rewrite list_lookup_insert_eq by (eapply lookup_lt_Some; exact E).
    intros [= <-]. reflexivity. }
  destruct (close_is_synchronous host).
  - destruct (WebSocket.listening w0).
    + rewrite after_onclose. cbv zeta.
      destruct (should_reconnect options _); cbn; intros H%Hc; auto.
    + intros H%Hc; auto.
  - destruct (WebSocket.state w0) eqn:Es.
    + intros H%Hc; auto.
    + intros H%Hc; auto.
    + rewrite E. intros [= <-]. auto.
    + rewrite E. intros [= <-]. auto.
Qed.
End Handles.

(** What does hold, in the order of events of [step] (a handle becomes
    CLOSED in the turn that runs its close handler): [connect()] on an open
    held handle creates nothing and changes nothing, and when every other
    explicit [connect()] is made while no handle is live and no reconnect
    is scheduled, at most one handle is live at every point, none is live
    while a reconnect is scheduled, and a turn that creates a handle leaves
    it the only live one. *)
Theorem one_live_handle_when_disciplined host url options evs s :
  run_disciplined host url options evs (useWebSocket host url options) = true ->
  run host url options evs (useWebSocket host url options) = Some s ->
  at_most_one_live s
  /\ (forall t, pending s t -> forall h, ~ live s h)
  /\ (held_is_open s = true -> connect host url options s = (Normal tt, s))
  /\ (forall ev s',
        disciplined ev s = true ->
        step host url options ev s = Some s' ->
        length (sockets s) < length (sockets s') ->
        forall h, live s' h -> h = length (sockets s)).
Proof.
  intros Hd Hr.
  pose proof (tidy_run host url options evs _ _ (tidy_useWebSocket host url options) Hd Hr)
    as Ht.
  split; [apply Ht|]. split; [intros t Hp; apply (proj2 Ht t Hp)|]. split.
  - intros Ho. rewrite connect_eq, Ho. reflexivity.
  - intros ev s' Hde Hs Hlen h Hl.
    pose proof (tidy_step host url options ev s s' Ht Hde Hs) as [Ha' _].
    destruct (step_sockets host url options ev s s' Hs) as [E | E]; [lia|].
    apply (Ha' h (length (sockets s))); [exact Hl|].
    exists (fresh_socket url options). split; [|reflexivity].
    rewrite E. apply lookup_snoc_Some. right. split; reflexivity.
Qed.

Lemma one_live_handle_when_disciplined_witness :
  at_most_one_live after_one_session /\ length (sockets after_one_session) = 3.
Proof.
  assert (Hd : run_disciplined MockWebSocket localhost reconnecting one_session
                 (useWebSocket MockWebSocket localhost reconnecting) = true)
    by (vm_compute; reflexivity).
  assert (Hr : run MockWebSocket localhost reconnecting one_session
                 (useWebSocket MockWebSocket localhost reconnecting)
               = Some after_one_session) by (vm_compute; reflexivity).
  destruct (one_live_handle_when_disciplined _ _ _ _ _ Hd Hr) as [Ha _].
  split; [exact Ha | reflexivity].
Defined.

(** Hence not every run keeps at most one handle live. *)
Lemma second_connect_makes_second_live_handle :
  ~ (forall host url options evs s,
       run host url options evs (useWebSocket host url options) = Some s ->
       at_most_one_live s).
Proof.
  intros H.
  assert (Hr : run MockWebSocket localhost default_options [CallConnect]
                 (useWebSocket MockWebSocket localhost default_options)
               = Some (after (connect MockWebSocket localhost default_options)
                         (useWebSocket MockWebSocket localhost default_options)))
    by reflexivity.
  specialize (H _ _ _ _ _ Hr 0 1).
  assert (E : 0 = 1); [|discriminate E].
  apply H; eexists; (split; [vm_compute; reflexivity | reflexivity]).
Qed.

(** C5.  The failing input: [useWebSocket(url)] connects, and the consumer
    calls [connect()] again before the first handle has opened.  The guard
    of [connect] looks for an OPEN held handle only, so a second handle is
    created while the first is still CONNECTING: two handles are live, the
    first one keeps its handlers and is never closed, not even by
    [disconnect()], which closes the held handle only. *)
Lemma connect_while_connecting_makes_second_handle :
  map WebSocket.state (sockets (useWebSocket browser localhost default_options))
  = [WebSocket.CONNECTING]
  /\ run browser localhost default_options [CallConnect]
       (useWebSocket browser localhost default_options) = Some twice_connected
  /\ map WebSocket.state (sockets twice_connected)
     = [WebSocket.CONNECTING; WebSocket.CONNECTING]
  /\ map WebSocket.listening (sockets twice_connected) = [true; true]
  /\ ws twice_connected = Some 1
  /\ live twice_connected 0 /\ live twice_connected 1
  /\ ~ at_most_one_live twice_connected
  /\ run browser localhost default_options both_open_then_disconnect twice_connected
     = Some first_handle_abandoned
  /\ map WebSocket.state (sockets first_handle_abandoned)
     = [WebSocket.OPEN; WebSocket.CLOSING]
  /\ ws first_handle_abandoned = None.
Proof.
  assert (L0 : live twice_connected 0)
    by (eexists; split; [vm_compute; reflexivity | reflexivity]).
  assert (L1 : live twice_connected 1)
    by (eexists; split; [vm_compute; reflexivity | reflexivity]).
  split; [vm_compute; reflexivity|].
  split; [vm_compute; reflexivity|].
  split; [vm_compute; reflexivity|].
  split; [vm_compute; reflexivity|].
  split; [vm_compute; reflexivity|].
  split; [exact L0|]. split; [exact L1|].
  split; [intros H; discriminate (H 0 1 L0 L1)|].
  split; [vm_compute; reflexivity|].
  split; vm_compute; reflexivity.
Qed.

(** C3.  The failing input: the connection drops (timer 0 is scheduled),
    the consumer calls [connect()] before it fires, the new connection drops
    as well (timer 1 replaces timer 0 in [reconnectTimeoutId]), and the
    consumer calls [disconnect()].  Timer 1 is cancelled, timer 0 is still
    waiting; when it fires, with no [connect()] call in between, a third
    handle is created and the instance is CONNECTING again. *)
Lemma earlier_timer_fires_after_disconnect :
  run browser localhost reconnecting two_timers
    (useWebSocket browser localhost reconnecting) = Some disconnected_with_timer
  /\ status disconnected_with_timer = DISCONNECTED
  /\ explicitClose disconnected_with_timer = true
  /\ reconnectTimeoutId disconnected_with_timer = None
  /\ map tstate (timers disconnected_with_timer) = [Pending; Cleared]
  /\ no_connect_call [TimerFire 0] = true
  /\ run browser localhost reconnecting [TimerFire 0] disconnected_with_timer
     = Some reconnected_after_disconnect
  /\ length (sockets reconnected_after_disconnect)
     = S (length (sockets disconnected_with_timer))
  /\ ws reconnected_after_disconnect = Some 2
  /\ WebSocket.state <$> sockets reconnected_after_disconnect !! 2
     = Some WebSocket.CONNECTING
  /\ status reconnected_after_disconnect = CONNECTING
  /\ explicitClose reconnected_after_disconnect = false.
Proof. vm_compute. repeat split. Qed.

(** * Further properties of the composable *)

(** X1.  No call of the composable throws: [connect], [disconnect], [send]
    and the four handlers return normally in every state, although the
    constructor, [JSON.parse] and the transport's [send] can throw. *)
Theorem no_call_throws host url options s :
  fst (connect host url options s) = Normal tt
  /\ fst (disconnect host options s) = Normal tt
  /\ (forall m, exists r, fst (send host options m s) = Normal r)
  /\ fst (onopen s) = Normal tt
  /\ fst (onclose options s) = Normal tt
  /\ (forall e, fst (onerror e s) = Normal tt)
  /\ (forall d, fst (onmessage host options d s) = Normal tt).
Proof.
  split; [rewrite connect_eq; reflexivity|].
  split; [rewrite disconnect_eq; reflexivity|].
  split.
  { intros m. rewrite send_eq. destruct (held_is_open s); eexists; reflexivity. }
  split; [reflexivity|].
  split; [rewrite onclose_eq; reflexivity|].
  split; [intros e; reflexivity|].
  intros d. rewrite onmessage_eq. reflexivity.
Qed.

(** A property of the fresh instance that every turn keeps holds in every
    state the instance can reach. *)
Lemma reachable_invariant host url options (P : State -> Prop) :
  P (useWebSocket host url options) ->
  (forall ev s s', P s -> step host url options ev s = Some s' -> P s') ->
  forall s, reachable host url options s -> P s.
Proof.
  intros H0 Hstep s [evs Hr]. revert Hr H0.
  generalize (useWebSocket host url options) as s0.
  induction evs as [|ev evs IH]; intros s0 Hr H0; cbn in Hr.
  - injection Hr as <-. exact H0.
  - destruct (step host url options ev s0) as [s1|] eqn:E; [|discriminate].
    eapply IH; [exact Hr|]. eapply Hstep; eauto.
Qed.

Section Invariants.
Variable host : Host.
Variable url : string.
Variable options : Options.

Lemma useWebSocket_cases (P : State -> Prop) :
  P initial ->
  (forall e, WebSocket_rejects host url (requested_protocol options) = Some e ->
             P (with_status ERROR (with_error (Some e)
                  (with_status CONNECTING (with_explicitClose false initial))))) ->
  (WebSocket_rejects host url (requested_protocol options) = None ->
   P (with_sockets [fresh_socket url options]
        (with_ws (Some 0) (with_status CONNECTING (with_explicitClose false initial))))) ->
  P (useWebSocket host url options).
Proof.
  intros Hi He Ha. unfold useWebSocket. destruct (autoConnect options); [|exact Hi].
  rewrite after_connect. cbn.
  destruct (WebSocket_rejects host url (requested_protocol options)) eqn:E; auto.
Qed.

Lemma flags_step ev s s' :
  ((status s = DISCONNECTED -> isConnected s = false /\ ws s = None)
   /\ (status s = CONNECTED -> isConnected s = true)) ->
  step host url options ev s = Some s' ->
  (status s' = DISCONNECTED -> isConnected s' = false /\ ws s' = None)
  /\ (status s' = CONNECTED -> isConnected s' = true).
Proof.
  intros Hi Hs. apply step_after in Hs as ->.
  assert (Hc : forall x, status x = status s -> isConnected x = isConnected s ->
              ws x = ws s -> held_is_open x = held_is_open s ->
              let y := after (connect host url options) x in
              (status y = DISCONNECTED -> isConnected y = false /\ ws y = None)
              /\ (status y = CONNECTED -> isConnected y = true)).
  { intros x E1 E2 E3 E4. cbv zeta. rewrite after_connect, E4.
    destruct (held_is_open s); [rewrite E1, E2, E3; exact Hi|]. cbv zeta.
    destruct (WebSocket_rejects _ _ _); cbn; split; discriminate. }
  destruct ev as [| | m | h | h | h e | h d | t].
  - apply Hc; reflexivity.
  - destruct (disconnect_effects host options s) as (_ & _ & Hw & Hst & Hc' & _).
    rewrite Hst. split; [auto | discriminate].
  - assert (E : status (after (send host options m) s) = status s
                /\ isConnected (after (send host options m) s) = isConnected s
                /\ ws (after (send host options m) s) = ws s).
    { rewrite after_send.
      destruct (held_is_open s); [destruct (ws s) eqn:Ew|]; cbn; rewrite ?Ew; repeat split. }
    destruct E as (-> & -> & ->). exact Hi.
  - cbn. split; [discriminate | reflexivity].
  - rewrite after_onclose. cbv zeta.
    destruct (should_reconnect options _); cbn; (split; [split; reflexivity | discriminate]).
  - cbn. split; discriminate.
  - rewrite after_onmessage.
    destruct (json options); [destruct (JSON_parse host d)|]; exact Hi.
  - apply Hc; split_ops; reflexivity.
Qed.

Lemma counter_step ev s s' m :
  reconnectAttempts options = Finite m ->
  reconnectCount s <= m ->
  step host url options ev s = Some s' ->
  reconnectCount s' <= m.
Proof.
  intros Hm Hi Hs. apply step_after in Hs as ->.
  assert (Hc : forall x, reconnectCount x = reconnectCount s ->
              reconnectCount (after (connect host url options) x) <= m).
  { intros x E. rewrite after_connect. destruct (held_is_open x); [lia|]. cbv zeta.
    destruct (WebSocket_rejects _ _ _); cbn; lia. }
  assert (Ho : forall x, reconnectCount x = reconnectCount s ->
              reconnectCount (after (onclose options) x) <= m).
  { intros x E. rewrite after_onclose. cbv zeta. unfold should_reconnect.
    rewrite Hm, E. unfold below.
    destruct (negb (explicitClose x) && autoReconnect options); cbn [andb].
    - destruct (Nat.ltb_spec (reconnectCount s) m); cbn; rewrite ?E; lia.
    - cbn. lia. }
  destruct ev as [| | m0 | h | h | h e | h d | t].
  - apply Hc. reflexivity.
  - rewrite after_disconnect. cbv zeta. fold (cancelled s). cbn.
    assert (Ec : reconnectCount (cancelled s) = reconnectCount s).
    { unfold cancelled. destruct (reconnectTimeoutId s); split_ops; reflexivity. }
    destruct (ws s) as [h|]; cbn; [|lia].
    rewrite after_close.
    destruct (sockets (cancelled s) !! h) as [w|]; [|lia].
    destruct (close_is_synchronous host).
    + destruct (WebSocket.listening w).
      * apply Ho. split_ops; exact Ec.
      * split_ops; cbn; lia.
    + destruct (WebSocket.state w); split_ops; cbn; lia.
  - rewrite after_send. destruct (held_is_open s); [destruct (ws s)|]; cbn; lia.
  - cbn. lia.
  - apply Ho. split_ops; reflexivity.
  - cbn. lia.
  - rewrite after_onmessage.
    destruct (json options); [destruct (JSON_parse host d)|]; cbn; lia.
  - apply Hc. split_ops; reflexivity.
Qed.

Lemma no_timer_step ev s s' :
  autoReconnect options = false ->
  timers s = [] /\ reconnectTimeoutId s = None /\ reconnectCount s = 0 ->
  step host url options ev s = Some s' ->
  timers s' = [] /\ reconnectTimeoutId s' = None /\ reconnectCount s' = 0.
Proof.
  intros Ha (Ht & Hk & Hn) Hs.
  assert (Hc : forall x, timers x = [] -> reconnectTimeoutId x = None -> reconnectCount x = 0 ->
              let y := after (connect host url options) x in
              timers y = [] /\ reconnectTimeoutId y = None /\ reconnectCount y = 0).
  { intros x E1 E2 E3. cbv zeta. rewrite after_connect.
    destruct (held_is_open x); [auto|]. cbv zeta.
    destruct (WebSocket_rejects _ _ _); cbn; auto. }
  assert (Ho : forall x, timers x = [] -> reconnectTimeoutId x = None -> reconnectCount x = 0 ->
              let y := after (onclose options) x in
              timers y = [] /\ reconnectTimeoutId y = None /\ reconnectCount y = 0).
  { intros x E1 E2 E3. cbv zeta. rewrite after_onclose. cbv zeta.
    unfold should_reconnect. rewrite Ha, andb_false_r. cbn. auto. }
  destruct ev as [| | m0 | h | h | h e | h d | t].
  - apply step_after in Hs as ->. apply Hc; assumption.
  - apply step_after in Hs as ->.
    rewrite after_disconnect. cbv zeta. rewrite Hk.
    destruct (ws s) as [h|]; cbn; [|auto].
    rewrite after_close.
    destruct (sockets (with_explicitClose true s) !! h) as [w|]; [|cbn; auto].
    destruct (close_is_synchronous host).
    + destruct (WebSocket.listening w).
      * apply Ho; split_ops; assumption.
      * split_ops; cbn; auto.
    + destruct (WebSocket.state w); split_ops; cbn; auto.
  - apply step_after in Hs as ->.
    rewrite after_send. destruct (held_is_open s); [destruct (ws s)|]; cbn; auto.
  - apply step_after in Hs as ->. split_ops; cbn; auto.
  - apply step_after in Hs as ->. apply Ho; split_ops; assumption.
  - apply step_after in Hs as ->. cbn. auto.
  - apply step_after in Hs as ->. rewrite after_onmessage.
    destruct (json options); [destruct (JSON_parse host d)|]; cbn; auto.
  - cbn in Hs. rewrite Ht in Hs. discriminate.
Qed.


Lemma well_formed_set_state h r s :
  well_formed url options s -> well_formed url options (set_state h r s).
Proof.
  intros (Hs & Ht & Hw & Hk). unfold set_state.
  destruct (sockets s !! h) as [w|] eqn:E; [|repeat split; assumption].
  repeat split; cbn; try assumption.
  - apply Forall_insert; [exact Hs|].
    rewrite Forall_lookup in Hs. apply Hs in E. exact E.
  - intros h' H'. rewrite length_insert. auto.
Qed.

Lemma well_formed_fire t s :
  well_formed url options s -> well_formed url options (fire t s).
Proof.
  intros (Hs & Ht & Hw & Hk). unfold fire.
  destruct (timers s !! t) as [tm|] eqn:E; [|repeat split; assumption].
  repeat split; cbn; try assumption.
  - apply Forall_insert; [exact Ht|].
    rewrite Forall_lookup in Ht. apply Ht in E. exact E.
  - intros t' H'. rewrite length_insert. auto.
Qed.

Lemma well_formed_cancelled s :
  well_formed url options s -> well_formed url options (cancelled s).
Proof.
  intros Hi. unfold cancelled.
  destruct (reconnectTimeoutId s) as [t|]; destruct Hi as (Hs & Ht & Hw & Hk);
    [|repeat split; cbn; assumption].
  unfold clear. cbn.
  destruct (timers s !! t) as [tm|] eqn:E;
    [destruct (is_pending tm)|]; repeat split; cbn; try assumption; try discriminate.
  apply Forall_insert; [exact Ht|].
  rewrite Forall_lookup in Ht. apply Ht in E. exact E.
Qed.

Lemma well_formed_connect s :
  well_formed url options s -> well_formed url options (after (connect host url options) s).
Proof.
  intros (Hs & Ht & Hw & Hk). rewrite after_connect.
  destruct (held_is_open s); [repeat split; assumption|]. cbv zeta.
  destruct (WebSocket_rejects _ _ _); repeat split; cbn; try assumption.
  - apply Forall_app. split; [exact Hs|]. apply Forall_singleton. repeat split.
  - intros h [= <-]. rewrite length_app. cbn. lia.
Qed.

Lemma well_formed_onclose s :
  well_formed url options s -> well_formed url options (after (onclose options) s).
Proof.
  intros (Hs & Ht & Hw & Hk). rewrite after_onclose. cbv zeta.
  destruct (should_reconnect options s); repeat split; cbn; try assumption;
    try discriminate.
  - apply Forall_app. split; [exact Ht|]. apply Forall_singleton. reflexivity.
  - intros t [= <-]. rewrite length_app. cbn. lia.
Qed.

Lemma well_formed_step ev s s' :
  well_formed url options s ->
  step host url options ev s = Some s' ->
  well_formed url options s'.
Proof.
  intros Hi Hs. apply step_after in Hs as ->.
  destruct ev as [| | m0 | h | h | h e | h d | t].
  - apply well_formed_connect, Hi.
  - rewrite after_disconnect. cbv zeta. fold (cancelled s).
    pose proof (well_formed_cancelled s Hi) as Hc.
    assert (Hd : forall x, well_formed url options x ->
                 well_formed url options (with_status DISCONNECTED (with_isConnected false (with_ws None x)))).
    { intros x (Xs & Xt & Xw & Xk). repeat split; cbn; try assumption; discriminate. }
    destruct (ws s) as [h|].
    + apply Hd. rewrite after_close.
      destruct (sockets (cancelled s) !! h) as [w|]; [|exact Hc].
      destruct (close_is_synchronous host).
      * destruct (WebSocket.listening w).
        -- apply well_formed_onclose, well_formed_set_state, Hc.
        -- apply well_formed_set_state, Hc.
      * destruct (WebSocket.state w); try exact Hc; apply well_formed_set_state, Hc.
    + destruct Hc as (Xs & Xt & Xw & Xk). repeat split; cbn; assumption.
  - rewrite after_send. destruct Hi as (Xs & Xt & Xw & Xk).
    destruct (held_is_open s); [destruct (ws s) eqn:Ew|]; repeat split; cbn;
      rewrite ?Ew; assumption.
  - pose proof (well_formed_set_state h WebSocket.OPEN s Hi) as (Xs & Xt & Xw & Xk).
    repeat split; cbn; assumption.
  - apply well_formed_onclose, well_formed_set_state, Hi.
  - destruct Hi as (Xs & Xt & Xw & Xk). repeat split; cbn; assumption.
  - rewrite after_onmessage. destruct Hi as (Xs & Xt & Xw & Xk).
    destruct (json options); [destruct (JSON_parse host d)|]; repeat split; cbn; assumption.
  - apply well_formed_connect, well_formed_fire, Hi.
Qed.

Lemma rejected_step e ev s s' :
  WebSocket_rejects host url (requested_protocol options) = Some e ->
  sockets s = [] /\ timers s = [] /\ ws s = None /\ reconnectTimeoutId s = None
  /\ isConnected s = false /\ sent s = []
  /\ (status s = DISCONNECTED \/ status s = ERROR) ->
  step host url options ev s = Some s' ->
  sockets s' = [] /\ timers s' = [] /\ ws s' = None /\ reconnectTimeoutId s' = None
  /\ isConnected s' = false /\ sent s' = []
  /\ (status s' = DISCONNECTED \/ status s' = ERROR).
Proof.
  intros Hr (Hs & Ht & Hw & Hk & Hc & Hn & Hst) Hstep.
  assert (Ho : held_is_open s = false) by (unfold held_is_open, held_readyState; rewrite Hw; reflexivity).
  destruct ev as [| | m0 | h | h | h e0 | h d | t]; cbn in Hstep;
    rewrite ?Hs, ?Ht in Hstep; try discriminate;
    injection Hstep as <-.
  - rewrite after_connect, Ho. cbv zeta. rewrite Hr. cbn. repeat split; auto.
  - rewrite after_disconnect. cbv zeta. rewrite Hk, Hw. cbn. repeat split; auto.
  - rewrite after_send, Ho. cbn. repeat split; auto.
Qed.

(** When the host can deliver an event. *)
Lemma step_open_enabled h w s :
  sockets s !! h = Some w ->
  WebSocket.state w = WebSocket.CONNECTING ->
  WebSocket.listening w = true ->
  step host url options (SockOpen h) s
  = Some (after onopen (set_state h WebSocket.OPEN s)).
Proof.
  intros E Es El.
  destruct (step host url options (SockOpen h) s) as [s'|] eqn:Hs.
  - apply step_after in Hs. congruence.
  - cbn in Hs. rewrite E, Es, El in Hs. discriminate.
Qed.

Lemma step_fire_enabled t s :
  pending s t ->
  step host url options (TimerFire t) s
  = Some (after (connect host url options) (fire t s)).
Proof.
  intros (tm & E & Ep).
  destruct (step host url options (TimerFire t) s) as [s'|] eqn:Hs.
  - apply step_after in Hs. congruence.
  - cbn in Hs. rewrite E, Ep in Hs. discriminate.
Qed.

Lemma held_is_open_None s : ws s = None -> held_is_open s = false.
Proof. unfold held_is_open, held_readyState. intros ->. reflexivity. Qed.

Lemma outputs_step ev s s' :
  step host url options ev s = Some s' ->
  length (sent s') + length (console s')
  = length (sent s) + length (console s) + (if is_send ev then 1 else 0)
  /\ (exists more, sent s' = sent s ++ more)
  /\ (exists more, console s' = console s ++ more).
Proof.
  intros Hs. apply step_after in Hs as ->.
  assert (Hc : forall x, sent x = sent s -> console x = console s ->
              let y := after (connect host url options) x in
              sent y = sent s /\ console y = console s).
  { intros x E1 E2. cbv zeta. rewrite after_connect.
    destruct (held_is_open x); [auto|]. cbv zeta.
    destruct (WebSocket_rejects _ _ _); cbn; auto. }
  assert (Ho : forall x, sent x = sent s -> console x = console s ->
              let y := after (onclose options) x in
              sent y = sent s /\ console y = console s).
  { intros x E1 E2. cbv zeta. rewrite after_onclose. cbv zeta.
    destruct (should_reconnect options x); cbn; auto. }
  assert (Same : forall y, sent y = sent s /\ console y = console s ->
              length (sent y) + length (console y) = length (sent s) + length (console s) + 0
              /\ (exists more, sent y = sent s ++ more)
              /\ (exists more, console y = console s ++ more)).
  { intros y [-> ->]. split; [lia|]. split; exists []; rewrite app_nil_r; reflexivity. }
  destruct ev as [| | m0 | h | h | h e | h d | t]; cbn [is_send].
  - apply Same, Hc; reflexivity.
  - apply Same. rewrite after_disconnect. cbv zeta. fold (cancelled s). cbn.
    assert (Ec : sent (cancelled s) = sent s /\ console (cancelled s) = console s).
    { unfold cancelled. destruct (reconnectTimeoutId s); split_ops; cbn; auto. }
    destruct Ec as [Ec1 Ec2].
    destruct (ws s) as [h|]; cbn; [|auto].
    rewrite after_close.
    destruct (sockets (cancelled s) !! h) as [w|]; [|auto].
    destruct (close_is_synchronous host).
    + destruct (WebSocket.listening w).
      * apply Ho; split_ops; assumption.
      * split_ops; cbn; auto.
    + destruct (WebSocket.state w); split_ops; cbn; auto.
  - rewrite after_send. destruct (held_is_open s) eqn:Eh.
    + destruct (ws s) as [h|] eqn:Ew;
        [|rewrite (held_is_open_None s Ew) in Eh; discriminate].
      cbn. rewrite length_app. cbn. split; [lia|].
      split; [eexists; reflexivity | exists []; rewrite app_nil_r; reflexivity].
    + cbn. rewrite length_app. cbn. split; [lia|].
      split; [exists []; rewrite app_nil_r; reflexivity | eexists; reflexivity].
  - apply Same. split_ops; cbn; auto.
  - apply Same, Ho; split_ops; reflexivity.
  - apply Same. cbn. auto.
  - apply Same. rewrite after_onmessage.
    destruct (json options); [destruct (JSON_parse host d)|]; cbn; auto.
  - apply Same, Hc; split_ops; reflexivity.
Qed.

Lemma data_step ev s s' :
  step host url options ev s = Some s' ->
  match ev with
  | SockMessage _ d => data s' = delivered host options d
  | _ => data s' = data s
  end.
Proof.
  intros Hs. apply step_after in Hs as ->.
  assert (Hc : forall x, data x = data s ->
              data (after (connect host url options) x) = data s).
  { intros x E. rewrite after_connect.
    destruct (held_is_open x); [auto|]. cbv zeta.
    destruct (WebSocket_rejects _ _ _); cbn; auto. }
  assert (Ho : forall x, data x = data s ->
              data (after (onclose options) x) = data s).
  { intros x E. rewrite after_onclose. cbv zeta.
    destruct (should_reconnect options x); cbn; auto. }
  destruct ev as [| | m0 | h | h | h e | h d | t].
  - apply Hc; reflexivity.
  - rewrite after_disconnect. cbv zeta. fold (cancelled s). cbn.
    assert (Ec : data (cancelled s) = data s).
    { unfold cancelled. destruct (reconnectTimeoutId s); split_ops; cbn; auto. }
    destruct (ws s) as [h|]; cbn; [|auto].
    rewrite after_close.
    destruct (sockets (cancelled s) !! h) as [w|]; [|auto].
    destruct (close_is_synchronous host).
    + destruct (WebSocket.listening w).
      * apply Ho; split_ops; assumption.
      * split_ops; cbn; auto.
    + destruct (WebSocket.state w); split_ops; cbn; auto.
  - rewrite after_send.
    destruct (held_is_open s); [destruct (ws s)|]; reflexivity.
  - split_ops; cbn; auto.
  - apply Ho; split_ops; reflexivity.
  - reflexivity.
  - rewrite after_onmessage. unfold delivered.
    destruct (json options); [destruct (JSON_parse host d)|]; reflexivity.
  - apply Hc; split_ops; reflexivity.
Qed.

Lemma exhausted_step ev s s' :
  below (reconnectCount s) (reconnectAttempts options) = false ->
  is_open_event ev = false ->
  step host url options ev s = Some s' ->
  reconnectCount s' = reconnectCount s /\ length (timers s') = length (timers s).
Proof.
  intros Hb Hev Hs. apply step_after in Hs as ->.
  assert (Hc : forall x, reconnectCount x = reconnectCount s ->
              length (timers x) = length (timers s) ->
              let y := after (connect host url options) x in
              reconnectCount y = reconnectCount s
              /\ length (timers y) = length (timers s)).
  { intros x E1 E2. cbv zeta. rewrite after_connect.
    destruct (held_is_open x); [auto|]. cbv zeta.
    destruct (WebSocket_rejects _ _ _); cbn; auto. }
  assert (Ho : forall x, reconnectCount x = reconnectCount s ->
              length (timers x) = length (timers s) ->
              let y := after (onclose options) x in
              reconnectCount y = reconnectCount s
              /\ length (timers y) = length (timers s)).
  { intros x E1 E2. cbv zeta. rewrite after_onclose. cbv zeta.
    unfold should_reconnect. rewrite E1, Hb, andb_false_r. cbn. auto. }
  assert (Hf : forall t, reconnectCount (fire t s) = reconnectCount s
                         /\ length (timers (fire t s)) = length (timers s)).
  { intros t. unfold fire. destruct (timers s !! t); cbn; [|auto].
    rewrite length_insert. auto. }
  assert (Hx : reconnectCount (cancelled s) = reconnectCount s
               /\ length (timers (cancelled s)) = length (timers s)).
  { unfold cancelled, clear. destruct (reconnectTimeoutId s) as [t|]; cbn; [|auto].
    destruct (timers s !! t) as [tm|]; [destruct (is_pending tm)|]; cbn;
      rewrite ?length_insert; auto. }
  assert (Hset : forall h r x, reconnectCount (set_state h r x) = reconnectCount x
                               /\ timers (set_state h r x) = timers x).
  { intros h r x. unfold set_state. destruct (sockets x !! h); cbn; auto. }
  destruct ev as [| | m0 | h | h | h e | h d | t]; try discriminate Hev.
  - apply Hc; reflexivity.
  - rewrite after_disconnect. cbv zeta. fold (cancelled s). cbn.
    destruct Hx as [X1 X2].
    destruct (ws s) as [h|]; cbn; [|auto].
    rewrite after_close.
    destruct (sockets (cancelled s) !! h) as [w|]; [|auto].
    destruct (Hset h WebSocket.CLOSED (cancelled s)) as [A1 A2].
    destruct (Hset h WebSocket.CLOSING (cancelled s)) as [B1 B2].
    destruct (close_is_synchronous host).
    + destruct (WebSocket.listening w).
      * apply Ho; congruence.
      * rewrite A1, A2. auto.
    + destruct (WebSocket.state w); rewrite ?B1, ?B2; auto.
  - rewrite after_send. destruct (held_is_open s); [destruct (ws s)|]; cbn; auto.
  - destruct (Hset h WebSocket.CLOSED s) as [A1 A2]. apply Ho; congruence.
  - cbn. auto.
  - rewrite after_onmessage.
    destruct (json options); [destruct (JSON_parse host d)|]; cbn; auto.
  - destruct (Hf t) as [F1 F2]. apply Hc; assumption.
Qed.

Lemma error_step ev s s' :
  (status s = ERROR -> error s <> None) ->
  step host url options ev s = Some s' ->
  status s' = ERROR -> error s' <> None.
Proof.
  intros Hi Hs. apply step_after in Hs as ->.
  assert (Hc : forall x, status x = status s -> error x = error s ->
              held_is_open x = held_is_open s ->
              let y := after (connect host url options) x in
              status y = ERROR -> error y <> None).
  { intros x E1 E2 E3. cbv zeta. rewrite after_connect, E3.
    destruct (held_is_open s); [rewrite E1, E2; exact Hi|]. cbv zeta.
    destruct (WebSocket_rejects _ _ _); cbn; discriminate. }
  destruct ev as [| | m0 | h | h | h e | h d | t].
  - apply Hc; reflexivity.
  - destruct (disconnect_effects host options s) as (_ & _ & _ & Hst & _).
    rewrite Hst. discriminate.
  - assert (E : status (after (send host options m0) s) = status s
                /\ error (after (send host options m0) s) = error s).
    { rewrite after_send.
      destruct (held_is_open s); [destruct (ws s)|]; cbn; auto. }
    destruct E as [-> ->]. exact Hi.
  - cbn. discriminate.
  - rewrite after_onclose. cbv zeta.
    destruct (should_reconnect options _); cbn; discriminate.
  - cbn. discriminate.
  - rewrite after_onmessage.
    destruct (json options); [destruct (JSON_parse host d)|]; exact Hi.
  - apply Hc; split_ops; reflexivity.
Qed.
End Invariants.

(** X2.  In every state an instance can reach, [status] and the connected
    flag agree at both ends: while [status] is DISCONNECTED, [isConnected]
    is false and no handle is held; while [status] is CONNECTED,
    [isConnected] is true. *)
Theorem status_agrees_with_isConnected host url options s :
  reachable host url options s ->
  (status s = DISCONNECTED -> isConnected s = false /\ ws s = None)
  /\ (status s = CONNECTED -> isConnected s = true).
Proof.
  apply (reachable_invariant host url options
           (fun s => (status s = DISCONNECTED -> isConnected s = false /\ ws s = None)
                     /\ (status s = CONNECTED -> isConnected s = true))).
  - apply useWebSocket_cases; cbn; intros; split; try discriminate; auto.
  - intros ev s0 s' Hi Hs. eapply flags_step; eauto.
Qed.

Lemma status_agrees_with_isConnected_witness :
  status opened = CONNECTED /\ isConnected opened = true.
Proof.
  assert (R : reachable MockWebSocket localhost default_options opened)
    by (exists [SockOpen 0]; vm_compute; reflexivity).
  destruct (status_agrees_with_isConnected _ _ _ _ R) as [_ H].
  split; [reflexivity | apply H; reflexivity].
Defined.

(** X3.  The attempt counter never exceeds a finite [reconnectAttempts]:
    in every reachable state [reconnectCount <= reconnectAttempts]. *)
Theorem attempt_counter_bounded host url options m s :
  reconnectAttempts options = Finite m ->
  reachable host url options s ->
  reconnectCount s <= m.
Proof.
  intros Hm.
  apply (reachable_invariant host url options (fun s => reconnectCount s <= m)).
  - apply useWebSocket_cases; cbn; intros; lia.
  - intros ev s0 s' Hi Hs. eapply counter_step; eauto.
Qed.

Lemma attempt_counter_bounded_witness : reconnectCount after_three_closes <= 2.
Proof.
  apply (attempt_counter_bounded MockWebSocket localhost reconnecting_twice 2
           after_three_closes eq_refl).
  exists three_closes. vm_compute. reflexivity.
Defined.

(** X4.  With [autoReconnect] off the instance never schedules a timer:
    in every reachable state there is no timer at all, no timer id is
    tracked and the attempt counter is 0. *)
Theorem no_timer_without_autoReconnect host url options s :
  autoReconnect options = false ->
  reachable host url options s ->
  timers s = [] /\ reconnectTimeoutId s = None /\ reconnectCount s = 0.
Proof.
  intros Ha.
  apply (reachable_invariant host url options
           (fun s => timers s = [] /\ reconnectTimeoutId s = None /\ reconnectCount s = 0)).
  - apply useWebSocket_cases; cbn; intros; auto.
  - intros ev s0 s' Hi Hs. eapply no_timer_step; eauto.
Qed.

(** X5.  Every connection an instance ever opens is to the address it was
    given, with the protocols of its options and with its four handlers
    installed; every timer it schedules waits [reconnectDelay]; and the
    handle and the timer id it holds are ones it created itself. *)
Theorem handles_and_timers_as_configured host url options s :
  reachable host url options s ->
  Forall (as_configured url options) (sockets s)
  /\ Forall (fun tm => delay tm = reconnectDelay options) (timers s)
  /\ (forall h, ws s = Some h -> h < length (sockets s))
  /\ (forall t, reconnectTimeoutId s = Some t -> t < length (timers s)).
Proof.
  apply (reachable_invariant host url options (well_formed url options)).
  - apply useWebSocket_cases; intros; repeat split; cbn;
      try (apply Forall_nil; exact I); try discriminate.
    + apply Forall_singleton. repeat split.
    + intros h [= <-]. lia.
  - intros ev s0 s' Hi Hs. eapply well_formed_step; eauto.
Qed.

Lemma handles_and_timers_as_configured_witness :
  Forall (as_configured localhost reconnecting_twice) (sockets after_three_closes)
  /\ Forall (fun tm => delay tm = reconnectDelay reconnecting_twice)
            (timers after_three_closes).
Proof.
  assert (R : reachable MockWebSocket localhost reconnecting_twice after_three_closes)
    by (exists three_closes; vm_compute; reflexivity).
  destruct (handles_and_timers_as_configured _ _ _ _ R) as (Hs & Ht & _).
  split; assumption.
Defined.

(** X6.  An instance whose address the constructor rejects never gets a
    connection, whatever is called on it: in every reachable state no handle
    and no timer exists, none is held, [isConnected] is false, nothing was
    sent, and [status] is DISCONNECTED or ERROR. *)
Theorem rejected_address_never_connects host url options e s :
  WebSocket_rejects host url (requested_protocol options) = Some e ->
  reachable host url options s ->
  sockets s = [] /\ timers s = [] /\ ws s = None /\ reconnectTimeoutId s = None
  /\ isConnected s = false /\ sent s = []
  /\ (status s = DISCONNECTED \/ status s = ERROR).
Proof.
  intros Hr.
  apply (reachable_invariant host url options
    (fun s => sockets s = [] /\ timers s = [] /\ ws s = None /\ reconnectTimeoutId s = None
              /\ isConnected s = false /\ sent s = []
              /\ (status s = DISCONNECTED \/ status s = ERROR))).
  - apply useWebSocket_cases; cbn; intros; try congruence; repeat split; auto.
  - intros ev s0 s' Hi Hs. eapply rejected_step; eauto.
Qed.

Lemma no_timer_without_autoReconnect_witness :
  timers errored = [] /\ reconnectCount errored = 0.
Proof.
  assert (R : reachable MockWebSocket localhost default_options errored)
    by (exists [SockOpen 0; SockError 0 "Connection failed"%string];
        vm_compute; reflexivity).
  destruct (no_timer_without_autoReconnect MockWebSocket localhost default_options
              errored eq_refl R) as (Ht & _ & Hc).
  split; assumption.
Defined.

Lemma rejected_address_never_connects_witness :
  sockets rejected_session = [] /\ sent rejected_session = []
  /\ isConnected rejected_session = false.
Proof.
  assert (Hx : WebSocket_rejects browser malformed (requested_protocol default_options)
               = Some "SyntaxError"%string) by (vm_compute; reflexivity).
  assert (R : reachable browser malformed default_options rejected_session)
    by (exists rejected_calls; vm_compute; reflexivity).
  destruct (rejected_address_never_connects browser malformed default_options _
              rejected_session Hx R) as (H1 & _ & _ & _ & H5 & H6 & _).
  repeat split; assumption.
Defined.

(** A turn that is not a [connect()] call keeps an instance shut: the
    close stays explicit, no timer becomes pending, no handle is
    created. *)
Lemma shut_turn host url options tn s s' :
  shut s ->
  calls_connect tn = false ->
  turn host url options tn s = Some s' ->
  shut s' /\ length (sockets s') = length (sockets s).
Proof.
  intros [He Hp] Hc Ht.
  assert (Same : forall x, explicitClose x = explicitClose s -> timers x = timers s ->
                   sockets x = sockets s ->
                   shut x /\ length (sockets x) = length (sockets s)).
  { intros x E1 E2 E3. split; [split|].
    - rewrite E1. exact He.
    - intros t Hx. apply (Hp t). eapply pending_same; [|exact Hx]. exact E2.
    - rewrite E3. reflexivity. }
  destruct tn as [h r| | | e | d | t | | | m]; cbn in Ht; try discriminate Hc.
  - injection Ht as <-. split; [split|].
    + unfold set_state. destruct (sockets s !! h); exact He.
    + intros t Hx. apply (Hp t). eapply pending_same; [|exact Hx].
      unfold set_state. destruct (sockets s !! h); reflexivity.
    + apply length_sockets_set_state.
  - injection Ht as <-. apply Same; reflexivity.
  - injection Ht as <-. rewrite after_onclose. cbv zeta.
    assert (Hsr : should_reconnect options s = false)
      by (unfold should_reconnect; rewrite He; reflexivity).
    rewrite Hsr. apply Same; reflexivity.
  - injection Ht as <-. apply Same; reflexivity.
  - injection Ht as <-. rewrite after_onmessage.
    destruct (json options); [destruct (JSON_parse host d)|]; apply Same; reflexivity.
  - destruct (timers s !! t) as [tm|] eqn:E; [|discriminate].
    destruct (is_pending tm) eqn:Ep; [|discriminate].
    destruct (Hp t). exists tm. split; assumption.
  - injection Ht as <-.
    assert (Hk : forall t, pending s t -> reconnectTimeoutId s = Some t)
      by (intros t Hx; destruct (Hp t Hx)).
    split; [exact (shut_after_disconnect host options s Hk)|].
    apply (step_sockets_other host url options CallDisconnect s); reflexivity.
  - injection Ht as <-. rewrite after_send.
    destruct (held_is_open s); [destruct (ws s)|]; apply Same; reflexivity.
Qed.

Lemma shut_turns host url options tns : forall s s',
  shut s ->
  forallb (fun tn => negb (calls_connect tn)) tns = true ->
  turns host url options tns s = Some s' ->
  shut s' /\ length (sockets s') = length (sockets s).
Proof.
  induction tns as [|tn tns IH]; intros s s' Hs Hn Hr; cbn in Hr.
  - injection Hr as <-. auto.
  - cbn in Hn. apply andb_true_iff in Hn as [H1 H2]. apply negb_true_iff in H1.
    destruct (turn host url options tn s) as [s1|] eqn:E; [|discriminate].
    destruct (shut_turn host url options tn s s1 Hs H1 E) as [Hs1 L1].
    destruct (IH s1 s' Hs1 H2 Hr) as [Hs' L']. split; [exact Hs' | congruence].
Qed.

(** The turns cover the events: a run of [step] is a run of turns. *)
Lemma step_as_turns host url options ev s s' :
  step host url options ev s = Some s' ->
  turns host url options (as_turns ev) s = Some s'.
Proof.
  intros Hs. pose proof (step_after host url options ev s s' Hs) as ->.
  destruct ev as [| | m | h | h | h e | h d | t]; try reflexivity.
  cbn. destruct (step_fire_pending host url options t s _ Hs) as (tm & E & Ep).
  rewrite E, Ep. reflexivity.
Qed.

(** X7.  [disconnect()] is final whatever the order of what follows: if
    every timer still pending when [disconnect()] is called is the tracked
    one, then after it no turns of the host or of the consumer other than a
    [connect()] call (handlers run in any order, [readyState] changes,
    [send], further [disconnect()] calls) create a handle or leave a timer
    pending, no timer can fire, and the close stays marked explicit. *)
Theorem disconnect_final_in_any_order host url options s tns s' :
  (forall t, pending s t -> reconnectTimeoutId s = Some t) ->
  forallb (fun tn => negb (calls_connect tn)) tns = true ->
  turns host url options tns (after (disconnect host options) s) = Some s' ->
  length (sockets s') = length (sockets s)
  /\ (forall t, ~ pending s' t)
  /\ explicitClose s' = true
  /\ (forall t, turn host url options (Fires t) s' = None).
Proof.
  intros Hk Hn Hr.
  destruct (shut_turns host url options tns _ s'
              (shut_after_disconnect host options s Hk) Hn Hr) as [[He Hp] Hl].
  split; [|split; [exact Hp|split; [exact He|]]].
  - rewrite Hl.
    apply (step_sockets_other host url options CallDisconnect s); reflexivity.
  - intros t. cbn. destruct (timers s' !! t) as [tm|] eqn:E; [|reflexivity].
    destruct (is_pending tm) eqn:Ep; [|reflexivity].
    destruct (Hp t). exists tm. split; assumption.
Qed.

Lemma disconnect_final_in_any_order_witness :
  length (sockets quiet_after_disconnect) = length (sockets dropped)
  /\ (forall t, ~ pending quiet_after_disconnect t)
  /\ explicitClose quiet_after_disconnect = true.
Proof.
  assert (Hk : forall t, pending dropped t -> reconnectTimeoutId dropped = Some t).
  { intros t (tm & E & Ep). destruct t as [|t]; [reflexivity|].
    vm_compute in E. discriminate E. }
  assert (Hr : turns MockWebSocket localhost reconnecting late_turns
                 (after (disconnect MockWebSocket reconnecting) dropped)
               = Some quiet_after_disconnect) by (vm_compute; reflexivity).
  destruct (disconnect_final_in_any_order MockWebSocket localhost reconnecting
              dropped late_turns quiet_after_disconnect Hk eq_refl Hr)
    as (H1 & H2 & H3 & _).
  split; [exact H1|]. split; [exact H2 | exact H3].
Defined.

(** X8.  A second [disconnect()] right after a first one does nothing but
    assign [status] DISCONNECTED again: no handle is closed, no timer is
    touched, and it returns normally. *)
Theorem disconnect_twice host options s :
  let s1 := after (disconnect host options) s in
  disconnect host options s1 = (Normal tt, with_status DISCONNECTED s1).
Proof.
  cbv zeta.
  destruct (disconnect_effects host options s) as (_ & He & Hw & _ & Hc & Hk & _).
  generalize dependent (after (disconnect host options) s). intros s1 He Hw Hc Hk.
  rewrite disconnect_eq. cbv zeta. rewrite Hk, Hw.
  destruct s1; cbn in *; subst; reflexivity.
Qed.

(** X9.  A dropped connection is reopened: when a handle closes while
    reconnection is on, the close was not explicit and attempts remain, a
    timer is scheduled and tracked and the counter goes up by one; the host
    can fire that timer, which creates a new connecting handle to the same
    address and holds it; and when that handle opens the instance is
    connected again with the counter back at 0 and [error] cleared. *)
Theorem dropped_connection_is_reopened host url options h s s1 :
  autoReconnect options = true ->
  explicitClose s = false ->
  below (reconnectCount s) (reconnectAttempts options) = true ->
  WebSocket_rejects host url (requested_protocol options) = None ->
  step host url options (SockClose h) s = Some s1 ->
  let t := length (timers s) in
  let h' := length (sockets s) in
  reconnectTimeoutId s1 = Some t /\ pending s1 t
  /\ reconnectCount s1 = S (reconnectCount s)
  /\ exists s2,
       step host url options (TimerFire t) s1 = Some s2
       /\ ws s2 = Some h' /\ status s2 = CONNECTING
       /\ sockets s2 = sockets s1 ++ [fresh_socket url options]
       /\ exists s3,
            step host url options (SockOpen h') s2 = Some s3
            /\ up h' s3 /\ status s3 = CONNECTED
            /\ reconnectCount s3 = 0 /\ error s3 = None.
Proof.
  intros Ha He Hb Hx Hs. cbv zeta.
  apply step_after in Hs.
  assert (Hl : length (sockets (set_state h WebSocket.CLOSED s)) = length (sockets s))
    by apply length_sockets_set_state.
  assert (Hsr : should_reconnect options (set_state h WebSocket.CLOSED s) = true).
  { unfold should_reconnect. split_ops; cbn; rewrite He, Ha, Hb; reflexivity. }
  rewrite after_onclose, Hsr in Hs. cbv zeta in Hs.
  assert (Ht : timers (set_state h WebSocket.CLOSED s) = timers s)
    by (split_ops; reflexivity).
  assert (Hn : reconnectCount (set_state h WebSocket.CLOSED s) = reconnectCount s)
    by (split_ops; reflexivity).
  rewrite Ht, Hn in Hs.
  assert (T1 : timers s1 = timers s ++ [reconnect_timer options]) by (subst s1; reflexivity).
  assert (S1 : length (sockets s1) = length (sockets s)) by (subst s1; exact Hl).
  assert (W1 : ws s1 = None) by (subst s1; reflexivity).
  assert (P1 : pending s1 (length (timers s))).
  { exists (reconnect_timer options). rewrite T1. split; [|reflexivity].
    rewrite lookup_app_r by lia. rewrite Nat.sub_diag. reflexivity. }
  split; [subst s1; reflexivity|]. split; [exact P1|].
  split; [subst s1; reflexivity|].
  eexists. split; [apply step_fire_enabled; exact P1|].
  assert (Hf : ws (fire (length (timers s)) s1) = None
               /\ sockets (fire (length (timers s)) s1) = sockets s1).
  { unfold fire. destruct (timers s1 !! _); cbn; auto. }
  destruct Hf as [Fw Fs].
  rewrite after_connect, (held_is_open_None _ Fw). cbv zeta. rewrite Hx, Fs, S1.
  split; [reflexivity|]. split; [reflexivity|]. split; [reflexivity|].
  set (s2 := with_sockets _ _).
  assert (L2 : sockets s2 !! length (sockets s) = Some (fresh_socket url options)).
  { unfold s2. cbn. rewrite lookup_app_r by lia. rewrite S1, Nat.sub_diag. reflexivity. }
  eexists. split; [eapply step_open_enabled; [exact L2 | reflexivity | reflexivity]|].
  unfold set_state. rewrite L2.
  split; [|repeat split].
  unfold up. cbn. split; [reflexivity|]. split; [reflexivity|].
  unfold held_is_open, held_readyState. cbn.
  rewrite list_lookup_insert_eq; [reflexivity|].
  rewrite length_app. cbn. lia.
Qed.

Lemma dropped_connection_is_reopened_witness :
  exists s1 s2 s3,
    step MockWebSocket localhost reconnecting (SockClose 0) opened_then_reconnecting = Some s1
    /\ step MockWebSocket localhost reconnecting (TimerFire 0) s1 = Some s2
    /\ step MockWebSocket localhost reconnecting (SockOpen 1) s2 = Some s3
    /\ up 1 s3 /\ reconnectCount s3 = 0.
Proof.
  assert (Hs : step MockWebSocket localhost reconnecting (SockClose 0)
                 opened_then_reconnecting
               = Some (after (onclose reconnecting)
                         (set_state 0 WebSocket.CLOSED opened_then_reconnecting)))
    by (vm_compute; reflexivity).
  destruct (dropped_connection_is_reopened MockWebSocket localhost reconnecting 0
              opened_then_reconnecting _ eq_refl eq_refl eq_refl eq_refl Hs)
    as (_ & _ & _ & s2 & H2 & _ & _ & _ & s3 & H3 & Hu & _ & Hc & _).
  eexists; exists s2, s3. split; [exact Hs|]. split; [exact H2|].
  split; [exact H3|]. split; [exact Hu | exact Hc].
Defined.

(** X10.  Under the [json] option a string is sent as it is, without
    quoting, and the message handler parses every text it receives: a
    string whose text [JSON.parse] accepts comes back as the parsed value,
    not as the string that was sent. *)
Theorem json_text_sent_as_string_is_received_parsed host options text v h s :
  json options = true ->
  ws s = Some h ->
  held_is_open s = true ->
  JSON_parse host text = Normal v ->
  send host options (JStr text) s
  = (Normal true, with_sent (sent s ++ [(h, JStr text)]) s)
  /\ (forall r, onmessage host options text r = (Normal tt, with_data v r)).
Proof.
  intros Hj Hw Hh Hp. split.
  - rewrite send_eq, Hh, Hw. unfold payload_of. rewrite Hj. reflexivity.
  - intros r. rewrite onmessage_eq, Hj, Hp. reflexivity.
Qed.

Lemma json_text_sent_as_string_is_received_parsed_witness :
  send MockWebSocket with_json (JStr "123") opened_json
  = (Normal true, with_sent [(0, JStr "123")] opened_json)
  /\ data (after (onmessage MockWebSocket with_json "123") opened_json) = JNum 123.
Proof.
  assert (Hw : ws opened_json = Some 0) by reflexivity.
  assert (Hh : held_is_open opened_json = true) by (vm_compute; reflexivity).
  assert (Hp : JSON_parse MockWebSocket "123" = Normal (JNum 123))
    by (vm_compute; reflexivity).
  destruct (json_text_sent_as_string_is_received_parsed MockWebSocket with_json
              "123" (JNum 123) 0 opened_json eq_refl Hw Hh Hp) as (E1 & E2).
  split; [exact E1|]. unfold after. rewrite E2. reflexivity.
Defined.

(** X11.  Every [send] call either transmits one frame or writes one
    console warning, and nothing else does either: over any run the number
    of transmitted frames plus the number of warnings grows by exactly the
    number of [send] calls, and neither list ever loses an entry. *)
Theorem every_send_is_accounted_for host url options evs : forall s s',
  run host url options evs s = Some s' ->
  length (sent s') + length (console s')
  = length (sent s) + length (console s) + length (List.filter is_send evs)
  /\ (exists more, sent s' = sent s ++ more)
  /\ (exists more, console s' = console s ++ more).
Proof.
  induction evs as [|ev evs IH]; intros s s' Hr; cbn in Hr.
  - injection Hr as <-. cbn. split; [lia|].
    split; exists []; rewrite app_nil_r; reflexivity.
  - destruct (step host url options ev s) as [s1|] eqn:E; [|discriminate].
    destruct (outputs_step host url options ev s s1 E) as (H1 & [m1 H2] & [m2 H3]).
    destruct (IH s1 s' Hr) as (I1 & [n1 I2] & [n2 I3]).
    split; [|split].
    + cbn [List.filter]. destruct (is_send ev); cbn [length]; lia.
    + exists (m1 ++ n1). rewrite I2, H2, app_assoc. reflexivity.
    + exists (m2 ++ n2). rewrite I3, H3, app_assoc. reflexivity.
Qed.

Lemma every_send_is_accounted_for_witness :
  length (sent two_sends) + length (console two_sends) = 2.
Proof.
  assert (Hr : run MockWebSocket localhost default_options
                 [CallSend JNull; SockOpen 0; CallSend JNull]
                 (useWebSocket MockWebSocket localhost default_options)
               = Some two_sends) by (vm_compute; reflexivity).
  destruct (every_send_is_accounted_for MockWebSocket localhost default_options
              _ _ two_sends Hr) as (H & _).
  exact H.
Defined.

(** X12.  [data] changes only when a message arrives, and then it holds
    what that message delivered: after any run, [data] is what the handler
    assigned for the last message event of the run (its text, or under the
    [json] option what [JSON.parse] returned for it, the text itself when
    parsing threw), and it is unchanged when the run has no message event;
    a fresh instance has [data] null. *)
Theorem data_is_what_the_last_message_delivered host url options evs : forall s s',
  run host url options evs s = Some s' ->
  data s' = match last_message evs with
            | Some d => delivered host options d
            | None => data s
            end
  /\ data (useWebSocket host url options) = JNull.
Proof.
  assert (H0 : data (useWebSocket host url options) = JNull)
    by (apply useWebSocket_cases; intros; reflexivity).
  induction evs as [|ev evs IH]; intros s s' Hr; cbn in Hr.
  - injection Hr as <-. split; [reflexivity | exact H0].
  - destruct (step host url options ev s) as [s1|] eqn:E; [|discriminate].
    destruct (IH s1 s' Hr) as [I _]. split; [|exact H0].
    pose proof (data_step host url options ev s s1 E) as D.
    cbn [last_message]. rewrite I.
    destruct (last_message evs) as [d|]; [reflexivity|].
    destruct ev; exact D.
Qed.

Lemma data_is_what_the_last_message_delivered_witness :
  data after_messages = JNum 123.
Proof.
  assert (Hr : run MockWebSocket localhost with_json messages_then_error
                 (useWebSocket MockWebSocket localhost with_json)
               = Some after_messages) by (vm_compute; reflexivity).
  destruct (data_is_what_the_last_message_delivered MockWebSocket localhost
              with_json messages_then_error _ after_messages Hr) as [E _].
  rewrite E. vm_compute. reflexivity.
Defined.

(** X21.  Used-up attempts stay used up until a connection opens: once the
    counter has reached [reconnectAttempts], no events other than a
    successful open change the counter or schedule a timer, not even
    [disconnect()] followed by [connect()]. *)
Theorem exhausted_attempts_stay_exhausted host url options evs : forall s s',
  below (reconnectCount s) (reconnectAttempts options) = false ->
  forallb (fun ev => negb (is_open_event ev)) evs = true ->
  run host url options evs s = Some s' ->
  reconnectCount s' = reconnectCount s /\ length (timers s') = length (timers s).
Proof.
  induction evs as [|ev evs IH]; intros s s' Hb Hev Hr; cbn in Hr.
  - injection Hr as <-. auto.
  - cbn in Hev. apply andb_true_iff in Hev as [H1 H2].
    apply negb_true_iff in H1.
    destruct (step host url options ev s) as [s1|] eqn:E; [|discriminate].
    destruct (exhausted_step host url options ev s s1 Hb H1 E) as [E1 E2].
    destruct (IH s1 s' ltac:(rewrite E1; exact Hb) H2 Hr) as [I1 I2].
    split; congruence.
Qed.

Lemma exhausted_attempts_stay_exhausted_witness :
  reconnectCount after_retry_by_hand = 2
  /\ length (timers after_retry_by_hand) = 2.
Proof.
  assert (Hb : below (reconnectCount after_three_closes)
                 (reconnectAttempts reconnecting_twice) = false)
    by (vm_compute; reflexivity).
  assert (Hr : run MockWebSocket localhost reconnecting_twice retry_by_hand
                 after_three_closes = Some after_retry_by_hand)
    by (vm_compute; reflexivity).
  destruct (exhausted_attempts_stay_exhausted MockWebSocket localhost
              reconnecting_twice retry_by_hand after_three_closes
              after_retry_by_hand Hb eq_refl Hr) as [H1 H2].
  split; [rewrite H1 | rewrite H2]; vm_compute; reflexivity.
Defined.

(** X22.  Whenever [status] is ERROR, [error] holds what went wrong: in
    every reachable state with [status] ERROR the [error] ref is set. *)
Theorem status_ERROR_has_error host url options s :
  reachable host url options s ->
  status s = ERROR -> error s <> None.
Proof.
  apply (reachable_invariant host url options
           (fun s => status s = ERROR -> error s <> None)).
  - apply useWebSocket_cases; cbn; intros; discriminate.
  - intros ev s0 s' Hi Hs. eapply error_step; eauto.
Qed.

Lemma status_ERROR_has_error_witness : error errored <> None.
Proof.
  apply (status_ERROR_has_error MockWebSocket localhost default_options errored).
  - exists [SockOpen 0; SockError 0 "Connection failed"%string].
    vm_compute. reflexivity.
  - reflexivity.
Defined.

(** * Properties of the plugin hooks *)

Module MainFacts.
Import Main.

Lemma eqb_sym_false (a b : string) : String.eqb a b = false -> String.eqb b a = false.
Proof. rewrite !String.eqb_neq. auto. Qed.

(** ** The expectations of the test suite *)

Example test_install_throws :
  fst (install reconnecting_Observer None no_opts) = Throw cannot_locate.
Proof. vm_compute. reflexivity. Qed.

Example test_install_sets_socket :
  exists s,
    install reconnecting_Observer (Some localhost) no_opts = (Normal tt, s)
    /\ dollar_socket s = Some 0 /\ mixin s = true
    /\ dollar_setInstance (opts s) = true.
Proof. eexists. split; [vm_compute; reflexivity|]. repeat split. Qed.

Example test_install_manual :
  exists s,
    install reconnecting_Observer None (manual_opts None) = (Normal tt, s)
    /\ dollar_connect_defined s = true /\ dollar_socket s = None.
Proof. eexists. split; [vm_compute; reflexivity|]. repeat split. Qed.

Example test_dollar_connect_sets_store :
  exists s st,
    dollar_connect reconnecting_Observer None None (installed (Some test_store))
    = (Normal tt, s)
    /\ dollar_socket s = Some 0
    /\ store (opts s) = Some st
    /\ store_dollar_socket st = Some 0
    /\ _customProperties st = Some ["$socket"%string].
Proof. eexists. eexists. split; [vm_compute; reflexivity|]. repeat split. Qed.

Example test_dollar_disconnect_cleans_up :
  let s := snd (dollar_connect reconnecting_Observer None None
                  (installed (Some test_store))) in
  closed (dollar_disconnect s) = [0]
  /\ dollar_socket (dollar_disconnect s) = None.
Proof. vm_compute. split; reflexivity. Qed.

Example test_created_registers :
  Emitter (snd (created Native component (declaring declared)))
  = [addListener "onopen" 10 component; addListener "onmessage" 11 component].
Proof. vm_compute. reflexivity. Qed.

Example test_created_sets_up_proxy :
  globalProperties_sockets
    (snd (created Native component (declaring nothing_declared)))
  = Some (component, empty_object).
Proof. vm_compute. reflexivity. Qed.

Example test_beforeUnmount_returns :
  fst (beforeUnmount Native component
         (snd (created Native component (declaring declared)))) = Normal tt.
Proof. vm_compute. reflexivity. Qed.

Example test_global_set_adds_listener :
  Emitter (snd (global_set "ontest" 13
                  (snd (created Native component (declaring nothing_declared)))))
  = [addListener "ontest" 13 component].
Proof. vm_compute. reflexivity. Qed.

Example test_global_delete_returns :
  fst (global_delete "onopen"
         (snd (created Native component (declaring declared)))) = Normal tt.
Proof. vm_compute. reflexivity. Qed.

(** ** Objects *)

Lemma in_order_app_last l k :
  in_order (l ++ [k]) = true ->
  in_order l = true
  /\ forallb (fun k' => precedes k' k && negb (String.eqb k' k)) l = true.
Proof.
  induction l as [|a l IH]; cbn; [auto|].
  rewrite forallb_app. cbn. intros H.
  apply andb_true_iff in H as [H H3].
  apply andb_true_iff in H as [H1 H2].
  rewrite andb_true_r in H2.
  destruct (IH H3) as [I1 I2].
  rewrite H1, I1, I2, H2. auto.
Qed.

Lemma assoc_fresh l k :
  forallb (fun k' => precedes k' k && negb (String.eqb k' k)) (map fst l) = true ->
  assoc k l = None.
Proof.
  induction l as [|[k' v'] l IH]; cbn; [reflexivity|].
  intros H. apply andb_true_iff in H as [H Hr].
  apply andb_true_iff in H as [_ Hn]. apply negb_true_iff in Hn.
  rewrite (eqb_sym_false _ _ Hn). auto.
Qed.

Lemma place_last l k v :
  forallb (fun k' => precedes k' k && negb (String.eqb k' k)) (map fst l) = true ->
  place k v l = l ++ [(k, v)].
Proof.
  induction l as [|[k' v'] l IH]; cbn; [reflexivity|].
  intros H. apply andb_true_iff in H as [H Hr].
  apply andb_true_iff in H as [-> _]. rewrite IH by exact Hr. reflexivity.
Qed.

(** Creating the properties of an object one by one, in the order of its
    keys, builds the object. *)
Lemma set_property_next p k v :
  in_order (map fst (p ++ [(k, v)])) = true ->
  set_property k v {| own := p; sealed := false |}
  = Normal {| own := p ++ [(k, v)]; sealed := false |}.
Proof.
  rewrite map_app. cbn [map fst]. intros H.
  apply in_order_app_last in H as [_ H].
  unfold set_property. cbn. rewrite (assoc_fresh _ _ H), (place_last _ _ _ H).
  reflexivity.
Qed.

Lemma assoc_in_order l k v :
  in_order (map fst l) = true -> In (k, v) l -> assoc k l = Some v.
Proof.
  induction l as [|[k' v'] l IH]; cbn; [intros _ []|].
  intros H. apply andb_true_iff in H as [Hf Ho]. intros [E|Hin].
  - injection E as -> ->. rewrite String.eqb_refl. reflexivity.
  - destruct (String.eqb k k') eqn:Ek; [|auto].
    apply String.eqb_eq in Ek as ->. exfalso.
    rewrite forallb_forall in Hf.
    specialize (Hf k' (in_map fst _ _ Hin)). cbn in Hf.
    rewrite String.eqb_refl, andb_false_r in Hf. discriminate.
Qed.

Lemma assoc_remove_other k k' l :
  String.eqb k' k = false -> assoc k (remove k' l) = assoc k l.
Proof.
  intros Hn. unfold remove. induction l as [|[a v] l IH]; cbn; [reflexivity|].
  destruct (String.eqb k' a) eqn:Ea; cbn.
  - apply String.eqb_eq in Ea as <-. rewrite (eqb_sym_false _ _ Hn). exact IH.
  - rewrite IH. reflexivity.
Qed.

Lemma assoc_remove_same k l : assoc k (remove k l) = None.
Proof.
  unfold remove. induction l as [|[a v] l IH]; cbn; [reflexivity|].
  destruct (String.eqb k a) eqn:Ea; cbn; [exact IH|]. rewrite Ea. exact IH.
Qed.

Lemma remove_absent k l : assoc k l = None -> remove k l = l.
Proof.
  unfold remove. induction l as [|[a v] l IH]; cbn; [reflexivity|].
  destruct (String.eqb k a) eqn:Ea; [discriminate|]. cbn. intros H.
  rewrite IH by exact H. reflexivity.
Qed.

Lemma remove_idem k l : remove k (remove k l) = remove k l.
Proof. apply remove_absent, assoc_remove_same. Qed.

(** ** The store of the hooks *)

Lemma read_write vm vm' x s :
  dollar_options vm = dollar_options vm' -> read vm (write vm' x s) = x.
Proof.
  intros E. unfold read, write. cbn. rewrite E, lookup_insert_eq. reflexivity.
Qed.

Lemma read_write_other vm vm' x s :
  dollar_options vm <> dollar_options vm' -> read vm (write vm' x s) = read vm s.
Proof.
  intros E. unfold read, write. cbn. rewrite lookup_insert_ne by auto. reflexivity.
Qed.

Lemma write_write vm vm' x y s :
  dollar_options vm = dollar_options vm' ->
  write vm x (write vm' y s) = write vm x s.
Proof.
  intros E. unfold write, with_options. cbn. rewrite E, insert_insert_eq. reflexivity.
Qed.

Lemma logged_nil s : logged [] s = s.
Proof. destruct s. unfold logged. cbn. rewrite app_nil_r. reflexivity. Qed.

Lemma logged_logged a b s : logged b (logged a s) = logged (a ++ b) s.
Proof. unfold logged. cbn. rewrite app_assoc. reflexivity. Qed.

Lemma logged_write cs vm x s : logged cs (write vm x s) = write vm x (logged cs s).
Proof. reflexivity. Qed.

Lemma write_same vm x s : read vm s = x -> x <> undefined -> write vm x s = s.
Proof.
  unfold read, write, with_options. intros E Hx.
  destruct (options s !! dollar_options vm) as [y|] eqn:El; [|congruence].
  subst y. rewrite insert_id by exact El. destruct s. reflexivity.
Qed.

(** ** The loops of the hooks *)

(** [created] copies the declared handlers into the target of the new
    proxy, registering each one for the instance the proxy closes over. *)
Lemma copy_registers vm w kvs : forall p s,
  in_order (map fst (p ++ kvs)) = true ->
  read vm s = Proxied w {| own := p; sealed := false |} ->
  forEach (fun kv => assign vm (fst kv) (snd kv)) kvs s
  = (Normal tt,
     write vm (Proxied w {| own := p ++ kvs; sealed := false |})
       (logged (registrations w kvs) s)).
Proof.
  induction kvs as [|[k v] kvs IH]; intros p s Ho Hr.
  - cbn. rewrite app_nil_r, logged_nil.
    rewrite write_same; [reflexivity | exact Hr | discriminate].
  - cbn [forEach fst snd]. unfold assign. rewrite Hr. unfold set_trap.
    assert (Hp : in_order (map fst (p ++ [(k, v)])) = true).
    { clear -Ho. revert Ho. rewrite !map_app. cbn [map fst].
      generalize (map fst p) as a. generalize (map fst kvs) as b.
      intros b a. induction a as [|x a IHa]; cbn.
      - intros _. reflexivity.
      - rewrite !forallb_app. cbn. intros H.
        apply andb_true_iff in H as [H H3].
        apply andb_true_iff in H as [H1 H2].
        apply andb_true_iff in H2 as [H2 _].
        rewrite H1, H2. cbn. apply IHa, H3. }
    rewrite (set_property_next p k v Hp).
    rewrite (IH (p ++ [(k, v)])).
    + rewrite <- app_assoc. cbn [app].
      rewrite logged_write, write_write by reflexivity.
      f_equal. f_equal. unfold logged, call. cbn.
      rewrite <- app_assoc. reflexivity.
    + rewrite <- app_assoc. exact Ho.
    + apply read_write. reflexivity.
Qed.

(** Without a property named [key] in the target, [beforeUnmount] releases
    each handler and leaves the target as it is. *)
Lemma unmount_releases vm w t l : forall s,
  dollar_options w = dollar_options vm ->
  read vm s = Proxied w t ->
  sealed t = false ->
  assoc "key" (own t) = None ->
  (forall k v, In (k, v) l -> assoc k (own t) = Some v) ->
  forEach (delete_sockets vm) (map fst l) s
  = (Normal tt, logged (releases w l) s).
Proof.
  induction l as [|[k v] l IH]; intros s Eo Hr Hs Hk Hl.
  - cbn. rewrite logged_nil. reflexivity.
  - cbn [map fst forEach]. unfold delete_sockets. rewrite Hr.
    unfold proxy_delete, deleteProperty_trap, read_key.
    assert (Hrw : read w s = Proxied w t).
    { unfold read in *. rewrite Eo. exact Hr. }
    rewrite Hrw. unfold get_property. rewrite (Hl k v (or_introl eq_refl)).
    unfold delete_property. rewrite Hk, (Hl k v (or_introl eq_refl)), Hs.
    assert (Hw : write vm (Proxied w t) (call (removeListener k (Own v) w) s)
                 = call (removeListener k (Own v) w) s).
    { apply write_same; [exact Hr | discriminate]. }
    rewrite Hw, IH; auto.
    + unfold logged, call. cbn. rewrite <- app_assoc. reflexivity.
    + intros k' v' Hin. apply Hl. right. exact Hin.
Qed.

(** In general the first [delete] removes the property named [key] from
    the target, and nothing else is ever removed. *)
Lemma unmount_releases_after_first vm w t l : forall s,
  dollar_options w = dollar_options vm ->
  read vm s = Proxied w t ->
  sealed t = false ->
  assoc "key" (own t) = None ->
  (forall k v, In (k, v) l -> String.eqb k "key" = false -> assoc k (own t) = Some v) ->
  forEach (delete_sockets vm) (map fst l) s
  = (Normal tt, logged (releases_after_first w l) s).
Proof.
  induction l as [|[k v] l IH]; intros s Eo Hr Hs Hk Hl.
  - cbn. rewrite logged_nil. reflexivity.
  - cbn [map fst forEach]. unfold delete_sockets. rewrite Hr.
    unfold proxy_delete, deleteProperty_trap, read_key.
    assert (Hrw : read w s = Proxied w t).
    { unfold read in *. rewrite Eo. exact Hr. }
    rewrite Hrw. unfold delete_property. rewrite Hk.
    assert (Hw : forall c, write vm (Proxied w t) (call c s) = call c s).
    { intros c. apply write_same; [exact Hr | discriminate]. }
    assert (Hg : get_property k t
                 = if String.eqb k "key" then Undefined else Own v).
    { unfold get_property. destruct (String.eqb k "key") eqn:Ek.
      - apply String.eqb_eq in Ek as ->. rewrite Hk. reflexivity.
      - rewrite (Hl k v (or_introl eq_refl) Ek). reflexivity. }
    rewrite Hg.
    assert (Hn : match assoc k (own t) with
                 | Some _ => if sealed t then (Throw TypeError, t, call (removeListener k (if String.eqb k "key" then Undefined else Own v) w) s)
                             else (Normal tt, t, call (removeListener k (if String.eqb k "key" then Undefined else Own v) w) s)
                 | None => (Normal tt, t, call (removeListener k (if String.eqb k "key" then Undefined else Own v) w) s)
                 end
                 = (Normal tt, t, call (removeListener k (if String.eqb k "key" then Undefined else Own v) w) s)).
    { rewrite Hs. destruct (assoc k (own t)); reflexivity. }
    rewrite Hn, Hw, IH; auto.
    + unfold logged, call. cbn. rewrite <- app_assoc. reflexivity.
    + intros k' v' Hin. apply Hl. right. exact Hin.
Qed.

(** ** The hooks *)

(** What [created] does where [Proxy] is native. *)
Lemma created_native vm s :
  in_order (map fst (entries (read vm s))) = true ->
  created Native vm s
  = (Normal tt,
     with_globalProperties_sockets (Some (vm, empty_object))
       (write vm (Proxied vm {| own := entries (read vm s); sealed := false |})
          (logged (registrations vm (entries (read vm s))) s))).
Proof.
  intros Ho. unfold created. cbn [hasProxy new_Proxy].
  set (s0 := write vm (Proxied vm empty_object) s).
  assert (H0 : read vm s0 = Proxied vm {| own := []; sealed := false |})
    by (apply read_write; reflexivity).
  pose proof (copy_registers vm vm (entries (read vm s)) [] s0 Ho H0) as C.
  cbn [app] in C.
  assert (E : write vm (Proxied vm {| own := entries (read vm s); sealed := false |})
                (logged (registrations vm (entries (read vm s))) s0)
              = write vm (Proxied vm {| own := entries (read vm s); sealed := false |})
                  (logged (registrations vm (entries (read vm s))) s)).
  { unfold s0. rewrite logged_write, write_write by reflexivity. reflexivity. }
  rewrite E in C.
  destruct (read vm s) as [|o|w tg] eqn:Er.
  - cbn [entries registrations map]. rewrite logged_nil. reflexivity.
  - rewrite C. reflexivity.
  - rewrite C. reflexivity.
Qed.

Lemma Emitter_created_state vm x cs s :
  Emitter (with_globalProperties_sockets (Some (vm, empty_object))
             (write vm x (logged cs s))) = Emitter s ++ cs.
Proof. reflexivity. Qed.

Lemma key_not_inherited : existsb (String.eqb "key") Object_prototype = false.
Proof. vm_compute. reflexivity. Qed.

(** X13.  Where [Proxy] is native, [beforeUnmount] releases exactly what
    [created] registered: for a component whose [sockets] option has no
    handler labelled [key], [created] calls [addListener] once for each
    declared handler, in the order of the keys, and [beforeUnmount] then
    calls [removeListener] once for each with the same label, handler and
    instance; neither throws, and the component's [sockets] still lists
    every handler afterwards. *)
Theorem unmount_releases_what_created_registered vm o s :
  read vm s = Plain o ->
  is_object o = true ->
  assoc "key" (own o) = None ->
  exists s1 s2,
    created Native vm s = (Normal tt, s1)
    /\ beforeUnmount Native vm s1 = (Normal tt, s2)
    /\ Emitter s1 = Emitter s ++ registrations vm (own o)
    /\ Emitter s2 = Emitter s1 ++ releases vm (own o)
    /\ read vm s2 = Proxied vm {| own := own o; sealed := false |}.
Proof.
  intros Hr Ho Hk.
  assert (Ho' : in_order (map fst (entries (read vm s))) = true)
    by (rewrite Hr; exact Ho).
  pose proof (created_native vm s Ho') as C. rewrite Hr in C. cbn [entries] in C.
  eexists. eexists. split; [exact C|].
  set (t := {| own := own o; sealed := false |}) in *.
  set (s1 := with_globalProperties_sockets _ _) in *.
  assert (R1 : read vm s1 = Proxied vm t) by (apply read_write; reflexivity).
  assert (U : beforeUnmount Native vm s1 = (Normal tt, logged (releases vm (own o)) s1)).
  { unfold beforeUnmount. cbn [hasProxy]. rewrite R1. cbn [entries].
    apply (unmount_releases vm vm t (own o) s1); auto.
    intros k v Hin. apply assoc_in_order; assumption. }
  split; [exact U|]. split; [reflexivity|]. split; [reflexivity|].
  exact R1.
Qed.

(** X14.  The [deleteProperty] trap deletes the property named [key], not
    the property being deleted: [beforeUnmount] never empties the target,
    and a handler labelled [key] that is not the first property is read as
    [undefined] when its turn comes, so that [removeListener] is called
    without it. *)
Theorem handler_labelled_key_is_not_released vm o kv rest s :
  read vm s = Plain o ->
  is_object o = true ->
  own o = kv :: rest ->
  exists s1 s2,
    created Native vm s = (Normal tt, s1)
    /\ beforeUnmount Native vm s1 = (Normal tt, s2)
    /\ Emitter s2 = Emitter s ++ registrations vm (own o) ++ releases_of vm (own o)
    /\ read vm s2 = Proxied vm {| own := remove "key" (own o); sealed := false |}
    /\ forall v, In ("key"%string, v) rest ->
         In (removeListener "key" Undefined vm) (releases_of vm (own o))
         /\ ~ In (removeListener "key" (Own v) vm) (releases_of vm (own o)).
Proof.
  intros Hr Ho Hown.
  assert (Ho' : in_order (map fst (entries (read vm s))) = true)
    by (rewrite Hr; exact Ho).
  pose proof (created_native vm s Ho') as C. rewrite Hr in C. cbn [entries] in C.
  set (t := {| own := own o; sealed := false |}) in *.
  set (s1 := with_globalProperties_sockets _ _) in *.
  assert (R1 : read vm s1 = Proxied vm t) by (apply read_write; reflexivity).
  destruct kv as [k0 v0].
  assert (A0 : assoc k0 (own o) = Some v0).
  { apply assoc_in_order; [exact Ho|]. rewrite Hown. left. reflexivity. }
  set (t' := {| own := remove "key" (own o); sealed := false |}).
  assert (D : delete_property "key" t = Normal t').
  { unfold delete_property, t, t'. cbn [own sealed].
    destruct (assoc "key" (own o)) eqn:Ek; [reflexivity|].
    rewrite (remove_absent _ _ Ek). reflexivity. }
  set (c0 := removeListener k0 (Own v0) vm).
  assert (F : delete_sockets vm k0 s1 = (Normal tt, write vm (Proxied vm t') (call c0 s1))).
  { unfold delete_sockets. rewrite R1.
    unfold proxy_delete, deleteProperty_trap, read_key. rewrite R1.
    unfold get_property. cbn [own t]. rewrite A0, D.
    destruct (assoc k0 (own t')); reflexivity. }
  set (s1' := write vm (Proxied vm t') (call c0 s1)) in *.
  assert (R1' : read vm s1' = Proxied vm t') by (apply read_write; reflexivity).
  assert (L : forEach (delete_sockets vm) (map fst rest) s1'
              = (Normal tt, logged (releases_after_first vm rest) s1')).
  { apply (unmount_releases_after_first vm vm t' rest s1'); auto.
    - apply assoc_remove_same.
    - intros k v Hin Hne. cbn [own t'].
      rewrite assoc_remove_other by (apply eqb_sym_false; exact Hne).
      apply assoc_in_order; [exact Ho|]. rewrite Hown. right. exact Hin. }
  assert (U : beforeUnmount Native vm s1
              = (Normal tt, logged (releases_after_first vm rest) s1')).
  { unfold beforeUnmount. cbn [hasProxy]. rewrite R1. cbn [entries t own].
    rewrite Hown. cbn [map fst forEach]. rewrite F. exact L. }
  exists s1, (logged (releases_after_first vm rest) s1').
  split; [exact C|]. split; [exact U|]. split; [|split].
  - change (Emitter (logged (releases_after_first vm rest) s1'))
      with (((Emitter s ++ registrations vm (own o)) ++ [c0])
            ++ releases_after_first vm rest).
    replace (releases_of vm (own o)) with (c0 :: releases_after_first vm rest)
      by (rewrite Hown; reflexivity).
    rewrite <- !app_assoc. reflexivity.
  - exact R1'.
  - intros v Hin. rewrite Hown. cbn [releases_of fst snd]. split.
    + right. unfold releases_after_first. apply in_map_iff.
      exists ("key"%string, v). split; [reflexivity | exact Hin].
    + intros [E|E].
      * injection E as E1 E2. subst k0.
        unfold is_object, Object_keys in Ho. rewrite Hown in Ho. cbn in Ho.
        apply andb_true_iff in Ho as [Hf _].
        rewrite forallb_forall in Hf.
        specialize (Hf "key"%string (in_map fst _ _ Hin)). cbn in Hf.
        rewrite andb_false_r in Hf. discriminate.
      * unfold releases_after_first in E. apply in_map_iff in E as ([k v'] & E & _).
        cbn in E. destruct (String.eqb k "key") eqn:Ek; [discriminate|].
        injection E as E1 E2. subst k. discriminate.
Qed.

Lemma unmount_releases_what_created_registered_witness :
  exists s1 s2,
    created Native component (declaring declared) = (Normal tt, s1)
    /\ beforeUnmount Native component s1 = (Normal tt, s2)
    /\ Emitter s2
       = [addListener "onopen" 10 component; addListener "onmessage" 11 component;
          removeListener "onopen" (Own 10) component;
          removeListener "onmessage" (Own 11) component].
Proof.
  assert (Hr : read component (declaring declared) = Plain declared)
    by (vm_compute; reflexivity).
  destruct (unmount_releases_what_created_registered component declared
              (declaring declared) Hr eq_refl eq_refl)
    as (s1 & s2 & C & U & E1 & E2 & _).
  exists s1, s2. split; [exact C|]. split; [exact U|].
  rewrite E2, E1. reflexivity.
Defined.

Lemma handler_labelled_key_is_not_released_witness :
  exists s1 s2,
    created Native component (declaring declared_with_key) = (Normal tt, s1)
    /\ beforeUnmount Native component s1 = (Normal tt, s2)
    /\ Emitter s2
       = [addListener "onopen" 10 component; addListener "key" 12 component;
          removeListener "onopen" (Own 10) component;
          removeListener "key" Undefined component]
    /\ read component s2
       = Proxied component {| own := [("onopen"%string, 10)]; sealed := false |}.
Proof.
  assert (Hr : read component (declaring declared_with_key) = Plain declared_with_key)
    by (vm_compute; reflexivity).
  destruct (handler_labelled_key_is_not_released component declared_with_key
              ("onopen"%string, 10) [("key"%string, 12)]
              (declaring declared_with_key) Hr eq_refl eq_refl)
    as (s1 & s2 & C & U & E & R & _).
  exists s1, s2. split; [exact C|]. split; [exact U|].
  split; [rewrite E; reflexivity | rewrite R; reflexivity].
Defined.

(** X15.  A handler set through [app.config.globalProperties.sockets] is
    registered for the instance created last, but deleting it there does
    not release it: the trap reads the handler from that instance's own
    [sockets], so for a label the component did not declare
    [removeListener] is called with [undefined], and (unless the label is
    [key]) the handler stays in the target of the global proxy. *)
Theorem handler_set_globally_is_not_released vm o s k v :
  read vm s = Plain o ->
  is_object o = true ->
  assoc k (own o) = None ->
  existsb (String.eqb k) Object_prototype = false ->
  exists s1 s2 s3,
    created Native vm s = (Normal tt, s1)
    /\ global_set k v s1 = (Normal tt, s2)
    /\ global_delete k s2 = (Normal tt, s3)
    /\ Emitter s3 = Emitter s1 ++ [addListener k v vm; removeListener k Undefined vm]
    /\ (String.eqb k "key" = false ->
        globalProperties_sockets s3
        = Some (vm, {| own := [(k, v)]; sealed := false |})).
Proof.
  intros Hr Ho Hk Hp.
  assert (Ho' : in_order (map fst (entries (read vm s))) = true)
    by (rewrite Hr; exact Ho).
  pose proof (created_native vm s Ho') as C. rewrite Hr in C. cbn [entries] in C.
  set (t := {| own := own o; sealed := false |}) in *.
  set (s1 := with_globalProperties_sockets _ _) in *.
  assert (R1 : read vm s1 = Proxied vm t) by (apply read_write; reflexivity).
  set (g := {| own := [(k, v)]; sealed := false |}).
  set (s2 := with_globalProperties_sockets (Some (vm, g)) (call (addListener k v vm) s1)).
  assert (G : global_set k v s1 = (Normal tt, s2)) by reflexivity.
  assert (R2 : read vm s2 = Proxied vm t) by exact R1.
  set (g' := if String.eqb k "key" then empty_object else g).
  set (s3 := with_globalProperties_sockets (Some (vm, g'))
               (call (removeListener k Undefined vm) s2)).
  assert (D : global_delete k s2 = (Normal tt, s3)).
  { unfold global_delete. cbn [globalProperties_sockets s2 with_globalProperties_sockets].
    unfold proxy_delete, deleteProperty_trap, read_key. rewrite R2.
    unfold get_property. cbn [own t]. rewrite Hk, Hp.
    unfold s3, g'. unfold delete_property, g. cbn [own sealed assoc].
    destruct (String.eqb k "key") eqn:Ek.
    - apply String.eqb_eq in Ek. subst k. cbn. reflexivity.
    - rewrite (eqb_sym_false _ _ Ek). cbn. rewrite String.eqb_refl. reflexivity. }
  exists s1, s2, s3. split; [exact C|]. split; [exact G|]. split; [exact D|].
  split.
  - unfold s3, s2. cbn. rewrite <- app_assoc. reflexivity.
  - intros Ek. unfold s3, g'. cbn. rewrite Ek. reflexivity.
Qed.

Lemma handler_set_globally_is_not_released_witness :
  exists s1 s2 s3,
    created Native component (declaring declared) = (Normal tt, s1)
    /\ global_set "ontest" 13 s1 = (Normal tt, s2)
    /\ global_delete "ontest" s2 = (Normal tt, s3)
    /\ Emitter s3
       = Emitter s1 ++ [addListener "ontest" 13 component;
                        removeListener "ontest" Undefined component].
Proof.
  assert (Hr : read component (declaring declared) = Plain declared)
    by (vm_compute; reflexivity).
  destruct (handler_set_globally_is_not_released component declared
              (declaring declared) "ontest" 13 Hr eq_refl eq_refl eq_refl)
    as (s1 & s2 & s3 & C & G & D & E & _).
  exists s1, s2, s3. repeat split; assumption.
Defined.

(** X16.  When two instances share one [$options] object, the hooks of the
    first release the handlers of the second: after [created] for both,
    [beforeUnmount] of the first calls [removeListener] for the second
    instance, and [beforeUnmount] of the second does so again; no call
    ever releases what was registered for the first. *)
Theorem unmount_releases_the_other_instance vm1 vm2 o s :
  dollar_options vm1 = dollar_options vm2 ->
  read vm1 s = Plain o ->
  is_object o = true ->
  assoc "key" (own o) = None ->
  exists s1 s2 s3 s4,
    created Native vm1 s = (Normal tt, s1)
    /\ created Native vm2 s1 = (Normal tt, s2)
    /\ beforeUnmount Native vm1 s2 = (Normal tt, s3)
    /\ beforeUnmount Native vm2 s3 = (Normal tt, s4)
    /\ Emitter s2 = Emitter s ++ registrations vm1 (own o) ++ registrations vm2 (own o)
    /\ Emitter s3 = Emitter s2 ++ releases vm2 (own o)
    /\ Emitter s4 = Emitter s3 ++ releases vm2 (own o).
Proof.
  intros Eo Hr Ho Hk.
  assert (Ho' : in_order (map fst (entries (read vm1 s))) = true)
    by (rewrite Hr; exact Ho).
  pose proof (created_native vm1 s Ho') as C1. rewrite Hr in C1. cbn [entries] in C1.
  set (t := {| own := own o; sealed := false |}) in *.
  set (s1 := with_globalProperties_sockets _ _) in *.
  assert (R1 : read vm2 s1 = Proxied vm1 t).
  { unfold s1. apply (read_write vm2 vm1). symmetry. exact Eo. }
  assert (Ho1 : in_order (map fst (entries (read vm2 s1))) = true)
    by (rewrite R1; exact Ho).
  pose proof (created_native vm2 s1 Ho1) as C2. rewrite R1 in C2. cbn [entries t own] in C2.
  fold t in C2.
  set (s2 := with_globalProperties_sockets _ _) in C2.
  assert (R2 : read vm1 s2 = Proxied vm2 t).
  { unfold s2. apply (read_write vm1 vm2). exact Eo. }
  assert (R2' : read vm2 s2 = Proxied vm2 t).
  { unfold s2. apply (read_write vm2 vm2). reflexivity. }
  assert (Hl : forall k v, In (k, v) (own o) -> assoc k (own t) = Some v)
    by (intros k v Hin; apply assoc_in_order; assumption).
  assert (U1 : beforeUnmount Native vm1 s2 = (Normal tt, logged (releases vm2 (own o)) s2)).
  { unfold beforeUnmount. cbn [hasProxy]. rewrite R2. cbn [entries t own].
    apply (unmount_releases vm1 vm2 t (own o) s2); auto. }
  set (s3 := logged (releases vm2 (own o)) s2) in *.
  assert (R3 : read vm2 s3 = Proxied vm2 t) by exact R2'.
  assert (U2 : beforeUnmount Native vm2 s3 = (Normal tt, logged (releases vm2 (own o)) s3)).
  { unfold beforeUnmount. cbn [hasProxy]. rewrite R3. cbn [entries t own].
    apply (unmount_releases vm2 vm2 t (own o) s3); auto. }
  exists s1, s2, s3, (logged (releases vm2 (own o)) s3).
  split; [exact C1|]. split; [exact C2|]. split; [exact U1|]. split; [exact U2|].
  split; [|split; reflexivity].
  unfold s2, s1. cbn. rewrite <- app_assoc. reflexivity.
Qed.

Lemma unmount_releases_the_other_instance_witness :
  exists s1 s2 s3,
    created Native component (declaring declared) = (Normal tt, s1)
    /\ created Native sibling s1 = (Normal tt, s2)
    /\ beforeUnmount Native component s2 = (Normal tt, s3)
    /\ Emitter s3
       = Emitter s2 ++ [removeListener "onopen" (Own 10) sibling;
                        removeListener "onmessage" (Own 11) sibling].
Proof.
  assert (Hr : read component (declaring declared) = Plain declared)
    by (vm_compute; reflexivity).
  destruct (unmount_releases_the_other_instance component sibling declared
              (declaring declared) eq_refl Hr eq_refl eq_refl)
    as (s1 & s2 & s3 & s4 & C1 & C2 & U1 & _ & _ & E3 & _).
  exists s1, s2, s3. repeat split; assumption.
Defined.







(** ** [$connect] and [$disconnect] *)

Lemma dollar_disconnect_socket s : dollar_socket (dollar_disconnect s) = None.
Proof.
  unfold dollar_disconnect.
  destruct (observer s) as [i|]; [destruct (observers s !! i) as [ob|];
    [destruct (reconnection ob)|]|];
    cbn; destruct (dollar_socket s) eqn:E; cbn; auto.
Qed.

Lemma dollar_disconnect_observer s : observer (dollar_disconnect s) = observer s.
Proof.
  unfold dollar_disconnect.
  destruct (observer s) as [i|] eqn:Eo; [destruct (observers s !! i) as [ob|];
    [destruct (reconnection ob)|]|];
    cbn; destruct (dollar_socket s); cbn; auto.
Qed.

Lemma dollar_disconnect_stops s i ob :
  observer s = Some i ->
  observers (dollar_disconnect s) !! i = Some ob ->
  reconnection ob = false.
Proof.
  unfold dollar_disconnect. intros ->.
  destruct (observers s !! i) as [ob0|] eqn:E.
  - destruct (reconnection ob0) eqn:Er.
    + assert (L : <[i:=stopped ob0]> (observers s) !! i = Some (stopped ob0))
        by (apply list_lookup_insert_eq; eapply lookup_lt_Some; exact E).
      cbn. destruct (dollar_socket s); cbn; rewrite L; intros [= <-]; reflexivity.
    + destruct (dollar_socket s); cbn; rewrite E; intros [= <-]; exact Er.
  - destruct (dollar_socket s); cbn; rewrite E; discriminate.
Qed.

Lemma dollar_disconnect_closed s :
  closed (dollar_disconnect s)
  = closed s ++ match dollar_socket s with Some w => [w] | None => [] end.
Proof.
  unfold dollar_disconnect.
  destruct (observer s) as [i|]; [destruct (observers s !! i) as [ob|];
    [destruct (reconnection ob)|]|];
    cbn; destruct (dollar_socket s); cbn; rewrite ?app_nil_r; reflexivity.
Qed.

Lemma dollar_disconnect_cleared s i ob :
  observer s = Some i ->
  observers s !! i = Some ob ->
  cleared (dollar_disconnect s)
  = cleared s ++ (if reconnection ob then [reconnectTimeoutId ob] else []).
Proof.
  unfold dollar_disconnect. intros -> ->.
  destruct (reconnection ob); cbn; destruct (dollar_socket s); cbn;
    rewrite ?app_nil_r; reflexivity.
Qed.

(** X17.  [$disconnect()] closes the published socket once, removes
    [$socket], and turns off reconnection of the current Observer, clearing
    its timer if it was reconnecting; calling it again, or before any
    [$connect()], does nothing. *)
Theorem dollar_disconnect_twice s :
  let s' := dollar_disconnect s in
  dollar_disconnect s' = s'
  /\ dollar_socket s' = None
  /\ closed s' = closed s ++ match dollar_socket s with Some w => [w] | None => [] end
  /\ (forall i ob, observer s = Some i -> observers s' !! i = Some ob ->
        reconnection ob = false)
  /\ (observer s = None -> dollar_socket s = None -> s' = s)
  /\ (forall i ob, observer s = Some i -> observers s !! i = Some ob ->
        cleared s'
        = cleared s ++ (if reconnection ob then [reconnectTimeoutId ob] else [])).
Proof.
  cbv zeta. split; [|split; [|split; [|split; [|split;
    [|apply dollar_disconnect_cleared]]]]].
  - pose proof (dollar_disconnect_socket s) as Hs.
    pose proof (dollar_disconnect_observer s) as Ho.
    pose proof (dollar_disconnect_stops s) as Hr.
    generalize dependent (dollar_disconnect s). intros r Hs Ho Hr.
    unfold dollar_disconnect. rewrite Ho.
    destruct (observer s) as [i|]; [|rewrite Hs; reflexivity].
    destruct (observers r !! i) as [ob|] eqn:E; [|rewrite Hs; reflexivity].
    rewrite (Hr i ob eq_refl E), Hs. reflexivity.
  - apply dollar_disconnect_socket.
  - apply dollar_disconnect_closed.
  - apply dollar_disconnect_stops.
  - intros Ho Hs. unfold dollar_disconnect. rewrite Ho, Hs. reflexivity.
Qed.

(** X18.  [$connect()] needs a store with [_customProperties]: when
    [opts.store] is absent, or is a store without that set, [$connect()]
    throws a [TypeError], but only after the Observer has been constructed
    and its socket published as [$socket]; a following [$disconnect()]
    closes that socket. *)
Theorem dollar_connect_throws_after_connecting new_Observer url o s ob :
  let u := match url with Some u => u | None => connection s end in
  let c := match o with Some c => with_dollar_setInstance c | None => opts s end in
  new_Observer (length (observers s)) u c = Normal ob ->
  (forall st, store (opts s) = Some st -> _customProperties st = None) ->
  exists s',
    dollar_connect new_Observer url o s = (Throw TypeError, s')
    /\ dollar_socket s' = Some (Observer_WebSocket ob)
    /\ observer s' = Some (length (observers s))
    /\ observers s' = observers s ++ [ob]
    /\ closed (dollar_disconnect s') = closed s ++ [Observer_WebSocket ob].
Proof.
  cbv zeta. intros Hn Hst.
  assert (Hd : forall x, dollar_socket x = Some (Observer_WebSocket ob) ->
                closed (dollar_disconnect x) = closed x ++ [Observer_WebSocket ob]).
  { intros x Hx. rewrite dollar_disconnect_closed, Hx. reflexivity. }
  unfold dollar_connect, construct. rewrite Hn. cbn [opts with_dollar_socket
    with_observer with_observers].
  destruct (store (opts s)) as [st|] eqn:Es.
  - rewrite (Hst st eq_refl). eexists. split; [reflexivity|].
    split; [reflexivity|]. split; [reflexivity|]. split; [reflexivity|].
    rewrite Hd by reflexivity. reflexivity.
  - eexists. split; [reflexivity|].
    split; [reflexivity|]. split; [reflexivity|]. split; [reflexivity|].
    rewrite Hd by reflexivity. reflexivity.
Qed.

Lemma dollar_connect_throws_after_connecting_witness :
  exists s',
    dollar_connect reconnecting_Observer None None (installed (Some bare_store))
    = (Throw TypeError, s')
    /\ dollar_socket s' = Some 0
    /\ closed (dollar_disconnect s') = [0].
Proof.
  assert (Hst : forall st, store (opts (installed (Some bare_store))) = Some st ->
                  _customProperties st = None)
    by (intros st [= <-]; reflexivity).
  destruct (dollar_connect_throws_after_connecting reconnecting_Observer None None
              (installed (Some bare_store)) _ eq_refl Hst)
    as (s' & H1 & H2 & _ & _ & H5).
  exists s'. split; [exact H1|]. split; [exact H2 | exact H5].
Defined.

(** What a [$connect()] that returns has done. *)
Lemma dollar_connect_returns new_Observer url o s s' :
  dollar_connect new_Observer url o s = (Normal tt, s') ->
  exists ob,
    observers s' = observers s ++ [ob]
    /\ observer s' = Some (length (observers s))
    /\ dollar_socket s' = Some (Observer_WebSocket ob)
    /\ closed s' = closed s /\ cleared s' = cleared s.
Proof.
  unfold dollar_connect, construct.
  destruct (new_Observer _ _ _) as [ob|e]; [|discriminate].
  cbn [opts with_dollar_socket with_observer with_observers].
  destruct (store (opts s)) as [st|]; [|discriminate]. cbn.
  destruct (_customProperties st); [|discriminate].
  intros [= <-]. exists ob. repeat split.
Qed.

(** X19.  A second [$connect()] replaces the first connection without
    closing it: after two calls that return, [$disconnect()] closes only the
    socket of the second Observer and stops only the second Observer; the
    first Observer is left as it was constructed, its socket never closed. *)
Theorem second_dollar_connect_leaves_first_open
    new_Observer url1 o1 url2 o2 s s1 s2 :
  dollar_connect new_Observer url1 o1 s = (Normal tt, s1) ->
  dollar_connect new_Observer url2 o2 s1 = (Normal tt, s2) ->
  exists ob1 ob2,
    observers s2 = observers s ++ [ob1; ob2]
    /\ dollar_socket s1 = Some (Observer_WebSocket ob1)
    /\ dollar_socket s2 = Some (Observer_WebSocket ob2)
    /\ closed (dollar_disconnect s2) = closed s ++ [Observer_WebSocket ob2]
    /\ observers (dollar_disconnect s2) !! length (observers s) = Some ob1
    /\ cleared (dollar_disconnect s2)
       = cleared s ++ (if reconnection ob2 then [reconnectTimeoutId ob2] else []).
Proof.
  intros H1 H2.
  destruct (dollar_connect_returns _ _ _ _ _ H1) as (ob1 & O1 & V1 & S1 & C1 & L1).
  destruct (dollar_connect_returns _ _ _ _ _ H2) as (ob2 & O2 & V2 & S2 & C2 & L2).
  exists ob1, ob2.
  assert (O : observers s2 = observers s ++ [ob1; ob2]).
  { rewrite O2, O1, <- app_assoc. reflexivity. }
  assert (Len : length (observers s1) = S (length (observers s))).
  { rewrite O1, length_app. cbn. lia. }
  assert (L : observers s2 !! length (observers s1) = Some ob2).
  { rewrite O2. rewrite lookup_app_r by lia. rewrite Nat.sub_diag. reflexivity. }
  split; [exact O|]. split; [exact S1|]. split; [exact S2|].
  unfold dollar_disconnect. rewrite V2, L.
  destruct (reconnection ob2); cbn; rewrite S2; cbn.
  - rewrite C2, C1, L2, L1. split; [reflexivity|]. split; [|reflexivity].
    rewrite list_lookup_insert_ne by lia.
    rewrite O. rewrite lookup_app_r by lia. rewrite Nat.sub_diag. reflexivity.
  - rewrite C2, C1, L2, L1, app_nil_r. split; [reflexivity|]. split; [|reflexivity].
    rewrite O. rewrite lookup_app_r by lia. rewrite Nat.sub_diag. reflexivity.
Qed.

Lemma second_dollar_connect_leaves_first_open_witness :
  exists s1 s2,
    dollar_connect reconnecting_Observer None None (installed (Some test_store))
    = (Normal tt, s1)
    /\ dollar_connect reconnecting_Observer None None s1 = (Normal tt, s2)
    /\ closed (dollar_disconnect s2) = [1]
    /\ (reconnection <$> observers (dollar_disconnect s2) !! 0) = Some true.
Proof.
  assert (H1 : exists s1, dollar_connect reconnecting_Observer None None
                            (installed (Some test_store)) = (Normal tt, s1))
    by (eexists; vm_compute; reflexivity).
  destruct H1 as [s1 H1].
  assert (E1 : s1 = snd (dollar_connect reconnecting_Observer None None
                           (installed (Some test_store)))) by (rewrite H1; reflexivity).
  assert (H2 : exists s2, dollar_connect reconnecting_Observer None None s1 = (Normal tt, s2))
    by (subst s1; eexists; vm_compute; reflexivity).
  destruct H2 as [s2 H2].
  destruct (second_dollar_connect_leaves_first_open _ _ _ _ _ _ _ _ H1 H2)
    as (ob1 & ob2 & O & S1 & S2 & C & L & _).
  exists s1, s2. split; [exact H1|]. split; [exact H2|].
  assert (E2 : s2 = snd (dollar_connect reconnecting_Observer None None s1))
    by (rewrite H2; reflexivity).
  split.
  - subst s2 s1. vm_compute. reflexivity.
  - subst s2 s1. vm_compute. reflexivity.
Defined.

End MainFacts.
